(** * CryptoBot: a shallow embedding of [cryptobot.py]

    The bot keeps a JSON file of tracked price messages, answers the
    [!crypto] chat command by posting a price embed and recording it,
    and refreshes every recorded message on a timer.

    The development follows the source top to bottom:
    - Python values, exceptions and the text helpers the script relies on
      ([str.split], [str.upper], [int], [float], f-string formatting);
    - binary64 arithmetic through the Standard Library's [SpecFloat];
    - [json.dumps] (with [indent=4]) and [json.loads];
    - the outside world (disk, price API, chat service) as an environment
      of oracles plus a mutable state, threaded by a small monad;
    - the functions of the script, one definition per [def];
    - the properties of the specification.

    Text is modelled with the Standard Library's [string], one [ascii]
    per character; the character functions ([upper], whitespace) are the
    7-bit ones. *)

From Stdlib Require Import ZArith List String Ascii Bool Lia.
From Stdlib Require Import Floats.SpecFloat.
Import ListNotations.

Local Open Scope string_scope.
Local Open Scope Z_scope.

(** ** Characters and strings *)

Module Text.

Definition code (c : ascii) : Z := Z.of_N (N_of_ascii c).
Definition chr (z : Z) : ascii := ascii_of_N (Z.to_N z).

Definition dquote : ascii := chr 34.
Definition squote : ascii := chr 39.
Definition backslash : ascii := chr 92.
Definition newline : ascii := chr 10.

Definition is_digit (c : ascii) : bool := (48 <=? code c) && (code c <=? 57).
Definition digit_val (c : ascii) : Z := code c - 48.
Definition digit_chr (d : Z) : ascii := chr (48 + d).

(** [str.isspace] on the 7-bit range: TAB..CR, FS..US and the space. *)
Definition is_space (c : ascii) : bool :=
  let n := code c in
  ((9 <=? n) && (n <=? 13)) || ((28 <=? n) && (n <=? 32)).

Definition upper_char (c : ascii) : ascii :=
  let n := code c in
  if (97 <=? n) && (n <=? 122) then chr (n - 32) else c.

Definition lower_char (c : ascii) : ascii :=
  let n := code c in
  if (65 <=? n) && (n <=? 90) then chr (n + 32) else c.

Fixpoint map_string (f : ascii -> ascii) (s : string) : string :=
  match s with
  | EmptyString => EmptyString
  | String c r => String (f c) (map_string f r)
  end.

(** [s.upper()] *)
Definition upper (s : string) : string := map_string upper_char s.
Definition lower (s : string) : string := map_string lower_char s.

(** [s.startswith(p)] *)
Fixpoint startswith (p s : string) : bool :=
  match p, s with
  | EmptyString, _ => true
  | String a p', String b s' => Ascii.eqb a b && startswith p' s'
  | String _ _, EmptyString => false
  end.

(** [p in s] for two strings: substring search. *)
Fixpoint contains (p s : string) : bool :=
  startswith p s ||
  match s with
  | EmptyString => false
  | String _ s' => contains p s'
  end.

Fixpoint forallb_string (f : ascii -> bool) (s : string) : bool :=
  match s with
  | EmptyString => true
  | String c r => f c && forallb_string f r
  end.

Fixpoint existsb_string (f : ascii -> bool) (s : string) : bool :=
  match s with
  | EmptyString => false
  | String c r => f c || existsb_string f r
  end.

Fixpoint rev_append (s acc : string) : string :=
  match s with
  | EmptyString => acc
  | String c r => rev_append r (String c acc)
  end.

Definition rev (s : string) : string := rev_append s EmptyString.

Fixpoint lstrip (s : string) : string :=
  match s with
  | String c r => if is_space c then lstrip r else s
  | EmptyString => EmptyString
  end.

(** [s.strip()] *)
Definition strip (s : string) : string := rev (lstrip (rev (lstrip s))).

(** [s.split()]: the maximal runs of non-blank characters, in order.
    [cur] accumulates the current run, reversed. *)
Fixpoint split_aux (s : string) (cur : string) : list string :=
  match s with
  | EmptyString =>
      match cur with EmptyString => [] | _ => [rev cur] end
  | String c r =>
      if is_space c then
        match cur with
        | EmptyString => split_aux r EmptyString
        | _ => rev cur :: split_aux r EmptyString
        end
      else split_aux r (String c cur)
  end.

Definition split (s : string) : list string := split_aux s EmptyString.

Fixpoint repeat_char (c : ascii) (n : nat) : string :=
  match n with
  | O => EmptyString
  | S k => String c (repeat_char c k)
  end.

Fixpoint take (n : nat) (s : string) : string :=
  match n, s with
  | S k, String c r => String c (take k r)
  | _, _ => EmptyString
  end.

Fixpoint drop (n : nat) (s : string) : string :=
  match n, s with
  | S k, String _ r => drop k r
  | _, _ => s
  end.

Definition len (s : string) : Z := Z.of_nat (String.length s).

End Text.

(** ** Decimal numerals of integers *)

Module Numeral.
Import Text.

(** Digits of a non-negative integer, most significant first.  The fuel
    bounds the number of digits; [digits] supplies enough of it. *)
Fixpoint digits_fuel (fuel : nat) (n : Z) (acc : string) : string :=
  match fuel with
  | O => acc
  | S k =>
      let acc' := String (digit_chr (n mod 10)) acc in
      if n <? 10 then acc' else digits_fuel k (n / 10) acc'
  end.

Definition digits (n : Z) : string :=
  digits_fuel (S (Z.to_nat (Z.log2 n))) n EmptyString.

(** [str(n)] for a Python [int]. *)
Definition of_Z (z : Z) : string :=
  if z <? 0 then String (chr 45) (digits (- z)) else digits z.

(** Value of a run of decimal digits read left to right. *)
Fixpoint value_acc (s : string) (acc : Z) : Z :=
  match s with
  | EmptyString => acc
  | String c r => value_acc r (10 * acc + digit_val c)
  end.

Definition value (s : string) : Z := value_acc s 0.

(** [digits] left-padded with zeros to [w] characters. *)
Definition pad (w : nat) (n : Z) : string :=
  let d := digits n in
  repeat_char (digit_chr 0) (w - String.length d) ++ d.

End Numeral.

(** ** Binary64 floating point

    Python's [float] is IEEE 754 binary64.  Values are [spec_float]s of the
    Standard Library, with its multiplication ([SFmul]) instantiated at 53
    bits of precision. *)

Module Float.
Import Text Numeral.

Abbreviation float := spec_float.

Definition prec : Z := 53.
Definition emax : Z := 1024.

Definition eqb (x y : float) : bool :=
  match x, y with
  | S754_zero a, S754_zero b => Bool.eqb a b
  | S754_infinity a, S754_infinity b => Bool.eqb a b
  | S754_nan, S754_nan => true
  | S754_finite a m e, S754_finite b n f =>
      Bool.eqb a b && Pos.eqb m n && Z.eqb e f
  | _, _ => false
  end.

Definition is_finite (x : float) : bool :=
  match x with
  | S754_zero _ | S754_finite _ _ _ => true
  | _ => false
  end.

(** The values binary64 has: a finite one is stored with 53 significant
    bits, or fewer at the least exponent ([valid_binary] of the Standard
    Library). *)
Definition valid (x : float) : bool := valid_binary prec emax x.

(** [x * y] on floats. *)
Definition mul (x y : float) : float := SFmul prec emax x y.

(** Nearest integer to [q + r / d], ties to even, for [0 <= r < d]. *)
Definition round_half_even (q r d : Z) : Z :=
  match 2 * r ?= d with
  | Lt => q
  | Gt => q + 1
  | Eq => if Z.even q then q else q + 1
  end.

(** The [b] with [2^b <= n / d < 2^(b+1)], for positive [n] and [d]. *)
Definition binade (n d : Z) : Z :=
  let a := Z.log2 n in
  let c := Z.log2 d in
  if d * 2 ^ a <=? n * 2 ^ c then a - c else a - c - 1.

(** The float nearest to [n / d] (ties to even), for [0 <= n] and [0 < d]:
    the quotient is rounded to an integer multiple of [2^e], where [e] is
    the exponent of the binade of [n / d], or the least exponent [-1074]
    below the normal range; a result beyond the largest float is
    infinite. *)
Definition of_ratio (neg : bool) (n d : Z) : float :=
  if n =? 0 then S754_zero neg
  else
    let e := Z.max (binade n d - 52) (-1074) in
    let num := n * 2 ^ 1074 in
    let den := d * 2 ^ (e + 1074) in
    let m := round_half_even (num / den) (num mod den) den in
    if m =? 0 then S754_zero neg
    else if m =? 2 ^ 53 then
      if e + 1 <=? 971 then S754_finite neg (Z.to_pos (2 ^ 52)) (e + 1)
      else S754_infinity neg
    else if e <=? 971 then S754_finite neg (Z.to_pos m) e
    else S754_infinity neg.

(** The float nearest to [m * 10^e], for [0 <= m]. *)
Definition of_decimal (neg : bool) (m e : Z) : float :=
  if 0 <=? e then of_ratio neg (m * 10 ^ e) 1
  else of_ratio neg m (10 ^ (- e)).

(** Conversion of a Python [int]; an infinite result stands for the
    [OverflowError] of the conversion. *)
Definition of_Z (z : Z) : float := binary_normalize prec emax z 0 false.

Definition one : float := Eval vm_compute in of_Z 1.
Definition zero : float := S754_zero false.

(** *** Reading a float: [float(s)] *)

Fixpoint span_digits (s : string) : string * string :=
  match s with
  | String c r =>
      if is_digit c then let '(d, t) := span_digits r in (String c d, t)
      else (EmptyString, s)
  | EmptyString => (EmptyString, EmptyString)
  end.

(** Underscores are accepted only between two digits; [prev] tells whether
    the previous character was a digit.  The result has them removed. *)
Fixpoint drop_underscores (prev : bool) (s : string) : option string :=
  match s with
  | EmptyString => Some EmptyString
  | String c r =>
      if Ascii.eqb c "_" then
        match r with
        | String n _ =>
            if prev && is_digit n then drop_underscores false r else None
        | EmptyString => None
        end
      else
        match drop_underscores (is_digit c) r with
        | Some t => Some (String c t)
        | None => None
        end
  end.

Definition split_sign (s : string) : bool * string :=
  match s with
  | String c r =>
      if Ascii.eqb c "-" then (true, r)
      else if Ascii.eqb c "+" then (false, r)
      else (false, s)
  | EmptyString => (false, s)
  end.

(** Exponent part: empty, or [e]/[E], an optional sign and digits. *)
Definition read_exponent (s : string) : option Z :=
  match s with
  | EmptyString => Some 0
  | String c r =>
      if Ascii.eqb (lower_char c) "e" then
        let '(neg, t) := split_sign r in
        match t with
        | EmptyString => None
        | _ =>
            if forallb_string is_digit t
            then Some (if neg then - value t else value t)
            else None
        end
      else None
  end.

(** Mantissa and decimal exponent of an unsigned decimal numeral. *)
Definition read_decimal (s : string) : option (Z * Z) :=
  let '(ip, r1) := span_digits s in
  let '(fp, r2) :=
    match r1 with
    | String c t => if Ascii.eqb c "." then span_digits t else (EmptyString, r1)
    | EmptyString => (EmptyString, r1)
    end in
  match (ip ++ fp)%string with
  | EmptyString => None
  | ds =>
      match read_exponent r2 with
      | Some e => Some (value ds, e - len fp)
      | None => None
      end
  end.

Definition of_string (s : string) : option float :=
  let '(neg, body) := split_sign (strip s) in
  let lb := lower body in
  if String.eqb lb "inf" || String.eqb lb "infinity" then Some (S754_infinity neg)
  else if String.eqb lb "nan" then Some S754_nan
  else
    match drop_underscores false body with
    | None => None
    | Some t =>
        match read_decimal t with
        | Some (m, e) => Some (of_decimal neg m e)
        | None => None
        end
    end.

(** *** Fixed notation with two decimals: the format spec [.2f] *)

Definition sign_string (neg : bool) : string := if neg then "-" else "".

(** Nearest integer to [m * 2^e * 100], ties to even. *)
Definition scale100_round (m : positive) (e : Z) : Z :=
  if 0 <=? e then Zpos m * 2 ^ e * 100
  else
    let d := 2 ^ (- e) in
    let q := (Zpos m * 100) / d in
    let r := (Zpos m * 100) mod d in
    match 2 * r ?= d with
    | Lt => q
    | Gt => q + 1
    | Eq => if Z.even q then q else q + 1
    end.

(** A count of hundredths written with two decimals. *)
Definition hundredths (q : Z) : string :=
  digits (q / 100) ++ "." ++ pad 2 (q mod 100).

Definition format_2f (x : float) : string :=
  match x with
  | S754_nan => "nan"
  | S754_infinity s => sign_string s ++ "inf"
  | S754_zero s => sign_string s ++ "0.00"
  | S754_finite s m e => sign_string s ++ hundredths (scale100_round m e)
  end.

(** *** Shortest numeral: [repr(x)]

    [repr] prints the shortest run of significant digits that reads back
    as the same float, taking the candidate closest to the float when two
    of that length do. *)

(** [floor (log10 (n / d))] for positive [n] and [d]. *)
Fixpoint log10_up (fuel : nat) (n d k : Z) : Z :=
  match fuel with
  | O => k
  | S f => if n <? 10 * d then k else log10_up f n (10 * d) (k + 1)
  end.

Fixpoint log10_down (fuel : nat) (n d k : Z) : Z :=
  match fuel with
  | O => k
  | S f => if d <=? 10 * n then k - 1 else log10_down f (10 * n) d (k - 1)
  end.

Definition ilog10 (n d : Z) : Z :=
  if d <=? n then log10_up 400 n d 0 else log10_down 400 n d 0.

(** A finite non-zero magnitude [m * 2^e] as a fraction. *)
Definition fraction (m : positive) (e : Z) : Z * Z :=
  if 0 <=? e then (Zpos m * 2 ^ e, 1) else (Zpos m, 2 ^ (- e)).

(** The integers around [(n / d) / 10^p], with the remainder that tells
    which is nearer: [(lo, rem, den)] where [n / d / 10^p = lo + rem / den]. *)
Definition scaled (n d p : Z) : Z * Z * Z :=
  let num := if 0 <=? p then n else n * 10 ^ (- p) in
  let den := if 0 <=? p then d * 10 ^ p else d in
  (num / den, num mod den, den).

(** The candidate with [nd] significant digits, if one reads back as
    [S754_finite false m e]: the integer [c] with [c * 10^p] the numeral. *)
Definition candidate (m : positive) (e : Z) (k : Z) (nd : Z) : option (Z * Z) :=
  let x := S754_finite false m e in
  let '(n, d) := fraction m e in
  let p := k - nd + 1 in
  let '(lo, rem, den) := scaled n d p in
  let back c := eqb (of_decimal false c p) x in
  if rem =? 0 then (if back lo then Some (lo, p) else None)
  else
    let hi := lo + 1 in
    match back lo, back hi with
    | true, true =>
        match 2 * rem ?= den with
        | Lt => Some (lo, p)
        | Gt => Some (hi, p)
        | Eq => Some (if Z.even lo then lo else hi, p)
        end
    | true, false => Some (lo, p)
    | false, true => Some (hi, p)
    | false, false => None
    end.

(** The nearest numeral of 17 significant digits, which always reads back. *)
Definition nearest17 (m : positive) (e : Z) (k : Z) : Z * Z :=
  let '(n, d) := fraction m e in
  let p := k - 16 in
  let '(lo, rem, den) := scaled n d p in
  match 2 * rem ?= den with
  | Lt => (lo, p)
  | Gt => (lo + 1, p)
  | Eq => (if Z.even lo then lo else lo + 1, p)
  end.

Fixpoint shortest (fuel : nat) (m : positive) (e : Z) (k : Z) (nd : Z) : Z * Z :=
  match fuel with
  | O => nearest17 m e k
  | S f =>
      match candidate m e k nd with
      | Some cp => cp
      | None => shortest f m e k (nd + 1)
      end
  end.

Fixpoint strip_zeros_rev (s : string) : string :=
  match s with
  | String c r => if Ascii.eqb c "0" then strip_zeros_rev r else s
  | EmptyString => EmptyString
  end.

(** Significant digits (no trailing zero) and position of the decimal
    point of [c * 10^p], for positive [c]. *)
Definition digits_point (c p : Z) : string * Z :=
  let ds := digits c in
  (rev (strip_zeros_rev (rev ds)), len ds + p).

Definition zeros (n : Z) : string := repeat_char "0" (Z.to_nat n).

(** Layout of [repr]: exponent notation outside [1e-4 <= x < 1e16]. *)
Definition layout (ds : string) (decpt : Z) : string :=
  let nd := len ds in
  if (decpt <=? -4) || (16 <? decpt) then
    let ex := decpt - 1 in
    take 1 ds
    ++ match drop 1 ds with EmptyString => "" | r => "." ++ r end
    ++ "e" ++ (if ex <? 0 then "-" else "+") ++ pad 2 (Z.abs ex)
  else if decpt <=? 0 then "0." ++ zeros (- decpt) ++ ds
  else if nd <=? decpt then ds ++ zeros (decpt - nd) ++ ".0"
  else take (Z.to_nat decpt) ds ++ "." ++ drop (Z.to_nat decpt) ds.

Definition repr (x : float) : string :=
  match x with
  | S754_nan => "nan"
  | S754_infinity s => sign_string s ++ "inf"
  | S754_zero s => sign_string s ++ "0.0"
  | S754_finite s m e =>
      let '(n, d) := fraction m e in
      let '(c, p) := shortest 16 m e (ilog10 n d) 1 in
      let '(ds, decpt) := digits_point c p in
      sign_string s ++ layout ds decpt
  end.

End Float.

(** ** Python values and exceptions

    The values that flow through the script: what [json.loads] returns,
    what the command parser builds, and what is written back. A [dict]
    is an association list in insertion order. *)

#[local] Unset Elimination Schemes.

Inductive json : Type :=
  | JNull
  | JBool (b : bool)
  | JInt (z : Z)
  | JFloat (x : Float.float)
  | JStr (s : string)
  | JArr (l : list json)
  | JObj (kvs : list (string * json)).

#[local] Set Elimination Schemes.

(** Exception classes met in the script: the built-in ones, those of
    [requests] and those of the chat library. *)
Inductive exn_class : Type :=
  | IndexError
  | KeyError
  | ValueError
  | TypeError
  | AttributeError
  | OverflowError
  | OSError
  | FileNotFoundError
  | JSONDecodeError            (* json.JSONDecodeError, a ValueError *)
  | RequestException           (* requests: base class *)
  | ConnectionError            (* requests: transport failure *)
  | Timeout                    (* requests: timeout *)
  | HTTPError                  (* requests: raise_for_status *)
  | InvalidJSONError           (* requests: response.json() *)
  | NotFound                   (* discord.NotFound *)
  | Forbidden                  (* discord.Forbidden *)
  | HTTPException              (* discord.HTTPException *)
  | CancelledError.            (* a BaseException that is no Exception *)

Record exn : Type := Exn { exn_kind : exn_class; exn_text : string }.

(** [isinstance(e, Exception)] *)
Definition is_Exception (e : exn) : bool :=
  match exn_kind e with
  | CancelledError => false
  | _ => true
  end.

(** [isinstance(e, requests.exceptions.RequestException)] *)
Definition is_RequestException (e : exn) : bool :=
  match exn_kind e with
  | RequestException | ConnectionError | Timeout | HTTPError
  | InvalidJSONError => true
  | _ => false
  end.

(** [isinstance(e, discord.NotFound)] *)
Definition is_NotFound (e : exn) : bool :=
  match exn_kind e with
  | NotFound => true
  | _ => false
  end.

Inductive res (A : Type) : Type :=
  | Ok (a : A)
  | Raise (e : exn).

Arguments Ok {A} a.
Arguments Raise {A} e.

Definition raise {A} (k : exn_class) (msg : string) : res A :=
  Raise (Exn k msg).

(** ** [str] and [repr] of values (f-strings) *)

Module PyStr.
Import Text Numeral.

Definition hex_digit (d : Z) : ascii :=
  if d <? 10 then chr (48 + d) else chr (87 + d).

Definition hex2 (n : Z) : string :=
  String (hex_digit (n / 16)) (String (hex_digit (n mod 16)) EmptyString).

(** Characters [repr] writes as [\xNN]. *)
Definition unprintable (c : ascii) : bool :=
  let n := code c in
  (n <? 32) || ((127 <=? n) && (n <=? 160)) || (n =? 173).

Definition repr_char (q : ascii) (c : ascii) : string :=
  if Ascii.eqb c q || Ascii.eqb c backslash then String backslash (String c "")
  else if code c =? 9 then String backslash "t"
  else if code c =? 10 then String backslash "n"
  else if code c =? 13 then String backslash "r"
  else if unprintable c then String backslash ("x" ++ hex2 (code c))
  else String c "".

Fixpoint repr_chars (q : ascii) (s : string) : string :=
  match s with
  | EmptyString => EmptyString
  | String c r => repr_char q c ++ repr_chars q r
  end.

(** [repr(s)] of a string: single quotes unless the text has a single
    quote and no double quote. *)
Definition repr_string (s : string) : string :=
  let q :=
    if existsb_string (Ascii.eqb squote) s
       && negb (existsb_string (Ascii.eqb dquote) s)
    then dquote else squote in
  String q (repr_chars q s) ++ String q "".

Fixpoint join (sep : string) (l : list string) : string :=
  match l with
  | [] => ""
  | [x] => x
  | x :: r => x ++ sep ++ join sep r
  end.

Fixpoint repr (v : json) : string :=
  match v with
  | JNull => "None"
  | JBool true => "True"
  | JBool false => "False"
  | JInt z => of_Z z
  | JFloat x => Float.repr x
  | JStr s => repr_string s
  | JArr l => "[" ++ join ", " (map repr l) ++ "]"
  | JObj kvs =>
      "{" ++ join ", " (map (fun kv => repr_string (fst kv) ++ ": " ++ repr (snd kv)) kvs)
      ++ "}"
  end.

(** [str(v)], what an f-string field [{v}] prints. *)
Definition str (v : json) : string :=
  match v with
  | JStr s => s
  | _ => repr v
  end.

End PyStr.

(** ** The [json] module *)

Module Json.
Import Text Numeral.

(** *** [json.dumps(v, indent=4)] *)

Definition hex4 (n : Z) : string :=
  PyStr.hex2 (n / 256) ++ PyStr.hex2 (n mod 256).

(** One character of a string literal, with [ensure_ascii] on: quote,
    backslash and everything outside [' '..'~'] are escaped. *)
Definition escape_char (c : ascii) : string :=
  let n := code c in
  if n =? 34 then String backslash (String dquote "")
  else if n =? 92 then String backslash (String backslash "")
  else if n =? 10 then String backslash "n"
  else if n =? 13 then String backslash "r"
  else if n =? 9 then String backslash "t"
  else if n =? 8 then String backslash "b"
  else if n =? 12 then String backslash "f"
  else if (n <? 32) || (126 <? n) then String backslash ("u" ++ hex4 n)
  else String c "".

Fixpoint escape (s : string) : string :=
  match s with
  | EmptyString => EmptyString
  | String c r => escape_char c ++ escape r
  end.

Definition quote (s : string) : string :=
  String dquote (escape s) ++ String dquote "".

(** [float.__repr__], with the three names JSON has no numeral for. *)
Definition float_text (x : Float.float) : string :=
  match x with
  | S754_nan => "NaN"
  | S754_infinity false => "Infinity"
  | S754_infinity true => "-Infinity"
  | _ => Float.repr x
  end.

(** A line break followed by the indentation of nesting depth [lvl]. *)
Definition break (lvl : nat) : string :=
  String newline (repeat_char " " (4 * lvl)).

(** The items of an array after the first, and the members of an object
    after the first: a comma, the line break [sep], the item. *)
Definition items_text (f : json -> string) (sep : string)
  : list json -> string :=
  fix go (l : list json) : string :=
    match l with
    | [] => ""
    | y :: t => "," ++ sep ++ f y ++ go t
    end.

Definition members_text (f : json -> string) (sep : string)
  : list (string * json) -> string :=
  fix go (l : list (string * json)) : string :=
    match l with
    | [] => ""
    | (k, y) :: t => "," ++ sep ++ quote k ++ ": " ++ f y ++ go t
    end.

Fixpoint dumps_at (lvl : nat) (v : json) : string :=
  match v with
  | JNull => "null"
  | JBool true => "true"
  | JBool false => "false"
  | JInt z => of_Z z
  | JFloat x => float_text x
  | JStr s => quote s
  | JArr [] => "[]"
  | JArr (x :: r) =>
      "[" ++ break (S lvl) ++ dumps_at (S lvl) x
      ++ items_text (dumps_at (S lvl)) (break (S lvl)) r
      ++ break lvl ++ "]"
  | JObj [] => "{}"
  | JObj ((k, x) :: r) =>
      "{" ++ break (S lvl) ++ quote k ++ ": " ++ dumps_at (S lvl) x
      ++ members_text (dumps_at (S lvl)) (break (S lvl)) r
      ++ break lvl ++ "}"
  end.

Definition dumps (v : json) : string := dumps_at 0 v.

(** *** [json.loads(s)] *)

Definition is_ws (c : ascii) : bool :=
  let n := code c in
  (n =? 32) || (n =? 9) || (n =? 10) || (n =? 13).

Fixpoint skip_ws (s : string) : string :=
  match s with
  | String c r => if is_ws c then skip_ws r else s
  | EmptyString => EmptyString
  end.

Definition hex_val (c : ascii) : option Z :=
  let n := code c in
  if (48 <=? n) && (n <=? 57) then Some (n - 48)
  else if (97 <=? n) && (n <=? 102) then Some (n - 87)
  else if (65 <=? n) && (n <=? 70) then Some (n - 55)
  else None.

Definition hex4_val (a b c d : ascii) : option Z :=
  match hex_val a, hex_val b, hex_val c, hex_val d with
  | Some x, Some y, Some z, Some w => Some (((x * 16 + y) * 16 + z) * 16 + w)
  | _, _, _, _ => None
  end.

(** The character after a backslash, [u] apart. *)
Definition unescape (c : ascii) : option ascii :=
  let n := code c in
  if (n =? 34) || (n =? 92) || (n =? 47) then Some c
  else if n =? 98 then Some (chr 8)
  else if n =? 102 then Some (chr 12)
  else if n =? 110 then Some (chr 10)
  else if n =? 114 then Some (chr 13)
  else if n =? 116 then Some (chr 9)
  else None.

Definition cons_char (c : ascii) (r : option (string * string))
  : option (string * string) :=
  match r with
  | Some (t, rest) => Some (String c t, rest)
  | None => None
  end.

(** The body of a string literal, after its opening quote: the decoded
    text and what follows the closing quote.  Raw control characters are
    refused; a [\u] escape beyond the characters of [string] has no
    value here. *)
Fixpoint scan_string (s : string) : option (string * string) :=
  match s with
  | EmptyString => None
  | String c r =>
      if Ascii.eqb c dquote then Some (EmptyString, r)
      else if Ascii.eqb c backslash then
        match r with
        | String e r1 =>
            if Ascii.eqb e "u" then
              match r1 with
              | String h1 (String h2 (String h3 (String h4 r2))) =>
                  match hex4_val h1 h2 h3 h4 with
                  | Some n =>
                      if n <? 256 then cons_char (chr n) (scan_string r2)
                      else None
                  | None => None
                  end
              | _ => None
              end
            else
              match unescape e with
              | Some ch => cons_char ch (scan_string r1)
              | None => None
              end
        | EmptyString => None
        end
      else if code c <? 32 then None
      else cons_char c (scan_string r)
  end.

(** The numeral at the head of [s]: an optional minus sign, an integer
    part (a lone zero, or digits not starting with zero), then optionally
    a point with digits and optionally an exponent.  The result is the
    matched text, whether it has a fraction or an exponent, and the rest. *)
Definition scan_int_part (s : string) : option (string * string) :=
  match s with
  | String c r =>
      if Ascii.eqb c "0" then Some ("0", r)
      else if is_digit c then
        let '(d, t) := Float.span_digits r in Some (String c d, t)
      else None
  | EmptyString => None
  end.

Definition scan_frac (s : string) : string * string :=
  match s with
  | String c r =>
      if Ascii.eqb c "." then
        match Float.span_digits r with
        | (EmptyString, _) => (EmptyString, s)
        | (d, t) => (String c d, t)
        end
      else (EmptyString, s)
  | EmptyString => (EmptyString, s)
  end.

Definition scan_exp (s : string) : string * string :=
  match s with
  | String c r =>
      if Ascii.eqb c "e" || Ascii.eqb c "E" then
        let '(sg, r') :=
          match r with
          | String g t =>
              if Ascii.eqb g "-" || Ascii.eqb g "+" then (String g "", t)
              else (EmptyString, r)
          | EmptyString => (EmptyString, r)
          end in
        match Float.span_digits r' with
        | (EmptyString, _) => (EmptyString, s)
        | (d, t) => (String c (sg ++ d), t)
        end
      else (EmptyString, s)
  | EmptyString => (EmptyString, s)
  end.

Definition scan_number (s : string) : option (string * bool * string) :=
  let '(sg, r0) :=
    match s with
    | String c r => if Ascii.eqb c "-" then ("-", r) else ("", s)
    | EmptyString => ("", s)
    end in
  match scan_int_part r0 with
  | None => None
  | Some (ip, r1) =>
      let '(fp, r2) := scan_frac r1 in
      let '(ep, r3) := scan_exp r2 in
      let real :=
        match (fp ++ ep)%string with EmptyString => false | _ => true end in
      Some (sg ++ ip ++ fp ++ ep, real, r3)
  end.

(** [int(text)] for a matched integer numeral. *)
Definition int_of_token (t : string) : Z :=
  match t with
  | String c r => if Ascii.eqb c "-" then - value r else value t
  | EmptyString => 0
  end.

Definition number_of_token (t : string) (real : bool) : option json :=
  if real then
    match Float.of_string t with
    | Some x => Some (JFloat x)
    | None => None
    end
  else Some (JInt (int_of_token t)).

Definition literal (name : string) (v : json) (s : string)
  : option (json * string) :=
  if startswith name s then Some (v, drop (String.length name) s) else None.

(** [dict(pairs)]: a repeated key keeps its first place and takes the
    last value. *)
Fixpoint dict_set (kvs : list (string * json)) (k : string) (v : json)
  : list (string * json) :=
  match kvs with
  | [] => [(k, v)]
  | (k', v') :: r =>
      if String.eqb k' k then (k', v) :: r else (k', v') :: dict_set r k v
  end.

Definition dict_of_pairs (l : list (string * json)) : list (string * json) :=
  fold_left (fun d kv => dict_set d (fst kv) (snd kv)) l [].

(** The value at the head of [s]; [members] and [elements] read the
    inside of an object and of an array from the first key or item on.
    Of two nested calls one at least consumes a character, so a fuel
    above twice the length of the text is never exhausted. *)
Fixpoint scan (fuel : nat) (s : string) {struct fuel} : option (json * string) :=
  match fuel with
  | O => None
  | S f =>
      match s with
      | EmptyString => None
      | String c r =>
          if Ascii.eqb c dquote then
            match scan_string r with
            | Some (t, r') => Some (JStr t, r')
            | None => None
            end
          else if Ascii.eqb c "{" then
            match skip_ws r with
            | String c1 r1 =>
                if Ascii.eqb c1 "}" then Some (JObj [], r1)
                else
                  match members f (String c1 r1) with
                  | Some (l, r') => Some (JObj (dict_of_pairs l), r')
                  | None => None
                  end
            | EmptyString => None
            end
          else if Ascii.eqb c "[" then
            match skip_ws r with
            | String c1 r1 =>
                if Ascii.eqb c1 "]" then Some (JArr [], r1)
                else
                  match elements f (String c1 r1) with
                  | Some (l, r') => Some (JArr l, r')
                  | None => None
                  end
            | EmptyString => None
            end
          else if Ascii.eqb c "n" then literal "null" JNull s
          else if Ascii.eqb c "t" then literal "true" (JBool true) s
          else if Ascii.eqb c "f" then literal "false" (JBool false) s
          else
            match scan_number s with
            | Some (t, real, r') =>
                match number_of_token t real with
                | Some v => Some (v, r')
                | None => None
                end
            | None =>
                if Ascii.eqb c "N" then literal "NaN" (JFloat S754_nan) s
                else if Ascii.eqb c "I" then
                  literal "Infinity" (JFloat (S754_infinity false)) s
                else if Ascii.eqb c "-" then
                  literal "-Infinity" (JFloat (S754_infinity true)) s
                else None
            end
      end
  end

with members (fuel : nat) (s : string) {struct fuel}
  : option (list (string * json) * string) :=
  match fuel with
  | O => None
  | S f =>
      match s with
      | String q r =>
          if Ascii.eqb q dquote then
            match scan_string r with
            | Some (k, r1) =>
                match skip_ws r1 with
                | String col r2 =>
                    if Ascii.eqb col ":" then
                      match scan f (skip_ws r2) with
                      | Some (v, r3) =>
                          match skip_ws r3 with
                          | String d r4 =>
                              if Ascii.eqb d "}" then Some ([(k, v)], r4)
                              else if Ascii.eqb d "," then
                                match members f (skip_ws r4) with
                                | Some (l, r5) => Some ((k, v) :: l, r5)
                                | None => None
                                end
                              else None
                          | EmptyString => None
                          end
                      | None => None
                      end
                    else None
                | EmptyString => None
                end
            | None => None
            end
          else None
      | EmptyString => None
      end
  end

with elements (fuel : nat) (s : string) {struct fuel}
  : option (list json * string) :=
  match fuel with
  | O => None
  | S f =>
      match scan f s with
      | Some (v, r3) =>
          match skip_ws r3 with
          | String d r4 =>
              if Ascii.eqb d "]" then Some ([v], r4)
              else if Ascii.eqb d "," then
                match elements f (skip_ws r4) with
                | Some (l, r5) => Some (v :: l, r5)
                | None => None
                end
              else None
          | EmptyString => None
          end
      | None => None
      end
  end.

(** [json.loads]: one value between optional blanks, nothing after. *)
Definition loads (s : string) : option json :=
  match scan (2 * String.length s + 2) (skip_ws s) with
  | Some (v, r) =>
      match skip_ws r with
      | EmptyString => Some v
      | _ => None
      end
  | None => None
  end.

End Json.

(** ** Dynamic operations of Python on these values *)

Module Py.
Import Text Numeral.

Definition type_name (v : json) : string :=
  match v with
  | JNull => "NoneType"
  | JBool _ => "bool"
  | JInt _ => "int"
  | JFloat _ => "float"
  | JStr _ => "str"
  | JArr _ => "list"
  | JObj _ => "dict"
  end.

Definition quoted (s : string) : string := String squote s ++ String squote "".

Fixpoint lookup (kvs : list (string * json)) (k : string) : option json :=
  match kvs with
  | [] => None
  | (k', v) :: r => if String.eqb k' k then Some v else lookup r k
  end.

(** [v is None] *)
Definition is_None (v : json) : bool :=
  match v with
  | JNull => true
  | _ => false
  end.

(** [l[i]] on a list of strings *)
Definition index (l : list string) (i : nat) : res string :=
  match nth_error l i with
  | Some x => Ok x
  | None => raise IndexError "list index out of range"
  end.

(** [v[k]] with a string key *)
Definition getitem (v : json) (k : string) : res json :=
  match v with
  | JObj kvs =>
      match lookup kvs k with
      | Some x => Ok x
      | None => raise KeyError (PyStr.repr_string k)
      end
  | JArr _ => raise TypeError "list indices must be integers or slices, not str"
  | JStr _ => raise TypeError "string indices must be integers, not 'str'"
  | _ => raise TypeError (quoted (type_name v) ++ " object is not subscriptable")
  end.

(** [k in v] with a string [k] *)
Definition contains (k : string) (v : json) : res bool :=
  match v with
  | JObj kvs => Ok (match lookup kvs k with Some _ => true | None => false end)
  | JArr l =>
      Ok (existsb (fun x => match x with JStr s => String.eqb s k | _ => false end) l)
  | JStr s => Ok (Text.contains k s)
  | _ => raise TypeError ("argument of type " ++ quoted (type_name v) ++ " is not iterable")
  end.

(** [v.get(k, default)] *)
Definition dict_get (v : json) (k : string) (default : json) : res json :=
  match v with
  | JObj kvs =>
      Ok (match lookup kvs k with Some x => x | None => default end)
  | _ => raise AttributeError (quoted (type_name v) ++ " object has no attribute 'get'")
  end.

(** [v.items()] *)
Definition items (v : json) : res (list (string * json)) :=
  match v with
  | JObj kvs => Ok kvs
  | _ => raise AttributeError (quoted (type_name v) ++ " object has no attribute 'items'")
  end.

(** [len(v)] *)
Definition len (v : json) : res Z :=
  match v with
  | JObj kvs => Ok (Z.of_nat (List.length kvs))
  | JArr l => Ok (Z.of_nat (List.length l))
  | JStr s => Ok (Text.len s)
  | _ => raise TypeError ("object of type " ++ quoted (type_name v) ++ " has no len()")
  end.

(** [v[k] = x] with a string key; the result is [v] after the update. *)
Definition setitem (v : json) (k : string) (x : json) : res json :=
  match v with
  | JObj kvs => Ok (JObj (Json.dict_set kvs k x))
  | JArr _ => raise TypeError "list indices must be integers or slices, not str"
  | _ => raise TypeError (quoted (type_name v) ++ " object does not support item assignment")
  end.

(** [int(s)] for a string, base ten: blanks around, a sign, digits with
    single underscores between them.  Integers are unbounded. *)
Definition int_of_string (s : string) : res Z :=
  let bad := raise ValueError
    ("invalid literal for int() with base 10: " ++ PyStr.repr_string s) in
  let '(neg, body) := Float.split_sign (strip s) in
  match Float.drop_underscores false body with
  | Some (String c r as ds) =>
      if forallb_string is_digit ds
      then Ok (if neg then - value ds else value ds)
      else bad
  | _ => bad
  end.

(** Conversion of an [int] where a float is needed. *)
Definition float_of_int (z : Z) : res Float.float :=
  let x := Float.of_Z z in
  if Float.is_finite x then Ok x
  else raise OverflowError "int too large to convert to float".

(** [float(v)] *)
Definition to_float (v : json) : res Float.float :=
  match v with
  | JFloat x => Ok x
  | JInt z => float_of_int z
  | JBool b => Ok (if b then Float.one else Float.zero)
  | JStr s =>
      match Float.of_string s with
      | Some x => Ok x
      | None => raise ValueError
          ("could not convert string to float: " ++ PyStr.repr_string s)
      end
  | _ => raise TypeError
      ("float() argument must be a string or a real number, not "
       ++ quoted (type_name v))
  end.

(** [x * v] for a float [x] *)
Definition float_times (x : Float.float) (v : json) : res Float.float :=
  match v with
  | JFloat y => Ok (Float.mul x y)
  | JInt z =>
      match float_of_int z with
      | Ok y => Ok (Float.mul x y)
      | Raise e => Raise e
      end
  | JBool b => Ok (Float.mul x (if b then Float.one else Float.zero))
  | JStr _ | JArr _ =>
      raise TypeError "can't multiply sequence by non-int of type 'float'"
  | _ => raise TypeError
      ("unsupported operand type(s) for *: 'float' and " ++ quoted (type_name v))
  end.

(** [os.path.join(a, b)] on POSIX paths, for a non-empty [a] without a
    trailing slash. *)
Definition path_join (a b : string) : string :=
  if startswith "/" b then b else a ++ "/" ++ b.

End Py.

(** ** The outside world

    The script talks to three things: the local disk (the cache file and
    the image folder), the price service and the chat service.  What
    they answer is not the script's to decide: an environment [Env] gives
    the answer to every request as a function of the history of requests
    so far, and the state [St] holds what the script can change, the
    cache file, together with that history. *)

Record Message : Type := {
  msg_from_self : bool;        (* message.author == client.user *)
  msg_content : string;        (* message.content *)
  msg_channel : Z              (* message.channel *)
}.

Record Embed : Type := {
  title : string;
  colour : Z;
  fields : list (string * string * bool);   (* name, value, inline *)
  thumbnail : option string;
  footer : option string
}.

(** A [discord.File]: the path it was opened from and its file name. *)
Record Attachment : Type := { att_path : string; att_name : string }.

Inductive Event : Type :=
  | Printed (line : string)
  | Requested (pair : string)
  | SentEmbed (chan : Z) (e : Embed) (files : list Attachment)
  | SentText (chan : Z) (text : string)
  | FetchedMessage (chan : Z) (mid : json)
  | EditedEmbed (chan : Z) (mid : json) (e : Embed)
  | EditedAttachments (chan : Z) (mid : json) (files : list Attachment)
  | Saved (text : string).

Inductive http_outcome : Type :=
  | HttpFailed (e : exn)                    (* [requests.post] raised *)
  | HttpResponse (status : Z) (body : string).

Inductive path_state : Type := Missing | Unreadable | Readable.

Record file : Type := { readable : bool; content : string }.

Record Env : Type := {
  cache_writable : bool;
  path : string -> path_state;
  clock : list Event -> string;
  http_post : list Event -> string -> http_outcome;
  channel_of : list Event -> json -> option Z;
  send_outcome : list Event -> Z -> res Z;
  fetch_outcome : list Event -> Z -> json -> res unit;
  edit_outcome : list Event -> Z -> json -> res unit
}.

Record St : Type := {
  cache_file : option file;
  history : list Event
}.

(** ** The monad of the script: environment, state and exceptions *)

Definition M (A : Type) : Type := Env -> St -> res A * St.

Definition ret {A} (a : A) : M A := fun _ s => (Ok a, s).

Definition bind {A B} (m : M A) (k : A -> M B) : M B :=
  fun env s =>
    match m env s with
    | (Ok a, s') => k a env s'
    | (Raise e, s') => (Raise e, s')
    end.

Declare Scope bot_scope.
Delimit Scope bot_scope with bot.

Notation "x <- m ;; k" := (bind m (fun x => k))
  (at level 61, m at next level, right associativity) : bot_scope.
Notation "' p <- m ;; k" := (bind m (fun x => match x with p => k end))
  (at level 61, p pattern, m at next level, right associativity) : bot_scope.
Notation "m ;; k" := (bind m (fun _ => k))
  (at level 61, right associativity) : bot_scope.

Local Open Scope bot_scope.

Definition lift {A} (r : res A) : M A := fun _ s => (r, s).

Definition throw {A} (k : exn_class) (msg : string) : M A :=
  lift (raise k msg).

(** [try: body / except <class> as e: handler e] *)
Definition try_except {A} (body : M A) (catches : exn -> bool)
    (handler : exn -> M A) : M A :=
  fun env s =>
    match body env s with
    | (Raise e, s') => if catches e then handler e env s' else (Raise e, s')
    | done => done
    end.

(** [for x in l: body x] *)
Fixpoint for_each {A} (l : list A) (body : A -> M unit) : M unit :=
  match l with
  | [] => ret tt
  | x :: r => body x ;; for_each r body
  end.

Definition emit (ev : Event) : M unit :=
  fun _ s => (Ok tt, {| cache_file := cache_file s; history := history s ++ [ev] |}).

(** An answer of the environment at the present history. *)
Definition ask {A} (f : Env -> list Event -> A) : M A :=
  fun env s => (Ok (f env (history s)), s).

(** *** Console, disk, price service, chat service *)

Module IO.
Import Text.

Definition print (line : string) : M unit := emit (Printed line).

(** [datetime.now().strftime(...)] *)
Definition now : M string := ask clock.

(** [os.path.exists(p)] for a path of the image folder *)
Definition path_exists (p : string) : M bool :=
  fun env s =>
    (Ok (match path env p with Missing => false | _ => true end), s).

(** [discord.File(p, filename=name)] opens the file for reading. *)
Definition discord_File (p name : string) : M Attachment :=
  fun env s =>
    match path env p with
    | Readable => (Ok {| att_path := p; att_name := name |}, s)
    | Unreadable =>
        (raise OSError ("[Errno 13] Permission denied: " ++ PyStr.repr_string p), s)
    | Missing =>
        (raise FileNotFoundError
           ("[Errno 2] No such file or directory: " ++ PyStr.repr_string p), s)
    end.

(** [requests.post(url, json={'pairs': [pair]})] *)
Definition requests_post (pair : string) : M (Z * string) :=
  out <- ask (fun env h => http_post env h pair) ;;
  emit (Requested pair) ;;
  match out with
  | HttpFailed e => lift (Raise e)
  | HttpResponse status body => ret (status, body)
  end.

(** [response.raise_for_status()] *)
Definition raise_for_status (response : Z * string) : M unit :=
  let status := fst response in
  if (400 <=? status) && (status <? 600)
  then throw HTTPError (Numeral.of_Z status ++ " Error")
  else ret tt.

(** [response.json()] *)
Definition response_json (response : Z * string) : M json :=
  match Json.loads (snd response) with
  | Some v => ret v
  | None => throw InvalidJSONError "Expecting value"
  end.

(** What [client.get_channel(id)] answers at the history [h].  The
    client keeps its channels in dicts keyed by id: [None] names no
    channel, a list or a dict cannot be hashed, and any other id is
    looked up. *)
Definition find_channel (env : Env) (h : list Event) (id : json)
  : res (option Z) :=
  match id with
  | JNull => Ok None
  | JArr _ => raise TypeError "unhashable type: 'list'"
  | JObj _ => raise TypeError "unhashable type: 'dict'"
  | _ => Ok (channel_of env h id)
  end.

(** [client.get_channel(id)] *)
Definition get_channel (id : json) : M (option Z) :=
  fun env s => (find_channel env (history s) id, s).

(** [channel.send(embed=e, files=files)]: the id of the new message *)
Definition send_embed (chan : Z) (e : Embed) (files : list Attachment) : M Z :=
  out <- ask (fun env h => send_outcome env h chan) ;;
  emit (SentEmbed chan e files) ;;
  lift out.

(** [channel.send(text)] *)
Definition send_text (chan : Z) (text : string) : M unit :=
  out <- ask (fun env h => send_outcome env h chan) ;;
  emit (SentText chan text) ;;
  _ <- lift out ;;
  ret tt.

(** [channel.fetch_message(mid)] *)
Definition fetch_message (chan : Z) (mid : json) : M unit :=
  out <- ask (fun env h => fetch_outcome env h chan mid) ;;
  emit (FetchedMessage chan mid) ;;
  lift out.

(** [message.edit(embed=e)] on the message fetched as [(chan, mid)] *)
Definition edit_embed (chan : Z) (mid : json) (e : Embed) : M unit :=
  out <- ask (fun env h => edit_outcome env h chan mid) ;;
  emit (EditedEmbed chan mid e) ;;
  lift out.

(** [message.edit(attachments=files)] *)
Definition edit_attachments (chan : Z) (mid : json) (files : list Attachment)
  : M unit :=
  out <- ask (fun env h => edit_outcome env h chan mid) ;;
  emit (EditedAttachments chan mid files) ;;
  lift out.

(** The cache file as [open(CACHE_FILE, 'r')] finds it. *)
Definition read_cache_file : M (option file) :=
  fun _ s => (Ok (cache_file s), s).

(** [open(CACHE_FILE, 'w')] followed by the write of [text]: the file is
    replaced as a whole; a new file is readable. *)
Definition write_cache_file (text : string) : M unit :=
  fun env s =>
    if cache_writable env then
      (Ok tt,
       {| cache_file :=
            Some {| readable := match cache_file s with
                                | Some f => readable f
                                | None => true
                                end;
                    content := text |};
          history := history s ++ [Saved text] |})
    else
      (raise OSError "[Errno 13] Permission denied: 'crypto_cache.json'", s).

End IO.

(** ** The script *)

Module Bot.
Import Text IO.

Definition CACHE_FILE : string := "crypto_cache.json".
Definition IMAGES_FOLDER : string := "images".

(** [discord.Color.blue()] *)
Definition blue : Z := 3447003.

(** [get_crypto_data(symbol, fiat)]; [None] is [JNull]. *)
Definition get_crypto_data (symbol fiat : json) : M json :=
  let pair := PyStr.str symbol ++ "-" ++ PyStr.str fiat in
  try_except
    (response <- requests_post pair ;;
     raise_for_status response ;;
     data <- response_json response ;;
     print ("API Response: " ++ Json.dumps data) ;;
     has_data <- lift (Py.contains "data" data) ;;
     missing <-
       (if negb has_data then ret true
        else
          inner <- lift (Py.getitem data "data") ;;
          has_pair <- lift (Py.contains pair inner) ;;
          ret (negb has_pair)) ;;
     if missing : bool then
       print ("Error: '" ++ pair ++ "' not found in response") ;;
       ret JNull
     else
       inner <- lift (Py.getitem data "data") ;;
       lift (Py.getitem inner pair))
    is_RequestException
    (fun e =>
       print ("Error fetching data for " ++ PyStr.str symbol ++ " in "
              ++ PyStr.str fiat ++ ": " ++ exn_text e) ;;
       ret JNull).

(** [load_cache()] *)
Definition load_cache : M json :=
  found <- read_cache_file ;;
  match found with
  | Some f =>
      if readable f then
        match Json.loads (content f) with
        | Some v => ret v
        | None => throw JSONDecodeError "Expecting value"
        end
      else throw OSError "[Errno 13] Permission denied: 'crypto_cache.json'"
  | None => ret (JObj [])
  end.

(** [save_cache(cache)] *)
Definition save_cache (cache : json) : M unit :=
  write_cache_file (Json.dumps cache).

(** [create_embed(symbol, fiat, data, amount)] *)
Definition create_embed (symbol fiat data amount : json) : M (Embed * string) :=
  last <- lift (Py.getitem data "last") ;;
  price <- lift (Py.to_float last) ;;
  change <- lift (Py.getitem data "priceChangePercentage") ;;
  percent_change <- lift (Py.to_float change) ;;
  let formatted_price := PyStr.str fiat ++ " " ++ Float.format_2f price in
  total_value <- lift (Py.float_times price amount) ;;
  let formatted_total_value :=
    PyStr.str fiat ++ " " ++ Float.format_2f total_value in
  let formatted_percent_change := Float.format_2f percent_change ++ "%" in
  updated_time <- now ;;
  let image_path := Py.path_join IMAGES_FOLDER (PyStr.str symbol ++ ".png") in
  has_image <- path_exists image_path ;;
  let embed :=
    {| title := PyStr.str symbol ++ " Price in " ++ PyStr.str fiat;
       colour := blue;
       fields :=
         [ ("Current Price", formatted_price, false);
           ("24h Change", formatted_percent_change, false);
           ("Value of " ++ PyStr.str amount ++ " " ++ PyStr.str symbol,
            formatted_total_value, false) ];
       thumbnail :=
         if has_image : bool
         then Some ("attachment://" ++ PyStr.str symbol ++ ".png")
         else None;
       footer := Some ("Last updated: " ++ updated_time) |} in
  ret (embed, image_path).

(** The body of the [try] of [on_message]. *)
Definition track (message : Message) : M unit :=
  let parts := split (msg_content message) in
  p1 <- lift (Py.index parts 1) ;;
  let symbol := upper p1 in
  p2 <- lift (Py.index parts 2) ;;
  let fiat := upper p2 in
  p3 <- lift (Py.index parts 3) ;;
  channel_id <- lift (Py.int_of_string p3) ;;
  amount <-
    (if (4 <? Z.of_nat (List.length parts))%Z then
       p4 <- lift (Py.index parts 4) ;;
       lift (Py.to_float (JStr p4))
     else ret Float.one) ;;
  data <- get_crypto_data (JStr symbol) (JStr fiat) ;;
  if Py.is_None data then
    send_text (msg_channel message)
      ("Could not fetch data for " ++ symbol ++ " in " ++ fiat)
  else
    '(embed, image_path) <-
      create_embed (JStr symbol) (JStr fiat) data (JFloat amount) ;;
    cache <- load_cache ;;
    size <- lift (Py.len cache) ;;
    let message_key :=
      Numeral.of_Z channel_id ++ "-" ++ symbol ++ "-" ++ fiat ++ "-"
      ++ Numeral.of_Z size in
    channel <- get_channel (JInt channel_id) ;;
    match channel with
    | None => throw AttributeError "'NoneType' object has no attribute 'send'"
    | Some chan =>
        attachment <- discord_File image_path (symbol ++ ".png") ;;
        sent_message_id <- send_embed chan embed [attachment] ;;
        cache' <- lift (Py.setitem cache message_key
                          (JObj [ ("message_id", JInt sent_message_id);
                                  ("symbol", JStr symbol);
                                  ("fiat", JStr fiat);
                                  ("amount", JFloat amount);
                                  ("channel_id", JInt channel_id) ])) ;;
        save_cache cache' ;;
        send_text (msg_channel message)
          ("Tracking " ++ symbol ++ " in " ++ fiat ++ " with amount "
           ++ Float.repr amount ++ " in channel " ++ Numeral.of_Z channel_id)
    end.

(** [on_message(message)] *)
Definition on_message (message : Message) : M unit :=
  if msg_from_self message then ret tt
  else if startswith "!crypto" (msg_content message) then
    try_except (track message) is_Exception
      (fun e =>
         send_text (msg_channel message) ("An error occurred: " ++ exn_text e) ;;
         print ("Error: " ++ exn_text e))
  else ret tt.

(** The body of the loop of [update_crypto_prices], for one entry. *)
Definition refresh (data : json) : M unit :=
  symbol <- lift (Py.getitem data "symbol") ;;
  fiat <- lift (Py.getitem data "fiat") ;;
  amount <- lift (Py.dict_get data "amount" (JFloat Float.one)) ;;
  channel_id <- lift (Py.getitem data "channel_id") ;;
  channel <- get_channel channel_id ;;
  match channel with
  | None => ret tt
  | Some chan =>
      crypto_data <- get_crypto_data symbol fiat ;;
      if Py.is_None crypto_data then ret tt
      else
        '(embed, image_path) <- create_embed symbol fiat crypto_data amount ;;
        try_except
          (message_id <- lift (Py.getitem data "message_id") ;;
           fetch_message chan message_id ;;
           edit_embed chan message_id embed ;;
           has_image <- path_exists image_path ;;
           if has_image : bool then
             attachment <- discord_File image_path (PyStr.str symbol ++ ".png") ;;
             edit_attachments chan message_id [attachment]
           else ret tt)
          is_NotFound
          (fun _ =>
             message_id <- lift (Py.getitem data "message_id") ;;
             print ("Message " ++ PyStr.str message_id
                    ++ " not found in channel " ++ PyStr.str channel_id))
  end.

(** [update_crypto_prices()]: one tick of the timer. *)
Definition update_crypto_prices : M unit :=
  cache <- load_cache ;;
  entries <- lift (Py.items cache) ;;
  for_each entries (fun entry => refresh (snd entry)).

End Bot.

(** ** Specification vocabulary *)

(** [calm P s s']: from [s] to [s'] the cache file is the same and the
    history grew by events satisfying [P] only.  [quiet P m]: whatever the
    environment answers, [m] takes a state to one related by [calm P]. *)
Definition calm (P : Event -> Prop) (s s' : St) : Prop :=
  cache_file s' = cache_file s /\
  exists l, history s' = (history s ++ l)%list /\ Forall P l.

Definition quiet (P : Event -> Prop) {A} (m : M A) : Prop :=
  forall env s, calm P s (snd (m env s)).

(** Events by kind. *)
Definition is_edit (ev : Event) : Prop :=
  match ev with
  | EditedEmbed _ _ _ | EditedAttachments _ _ _ => True
  | _ => False
  end.

Definition is_console_or_request (ev : Event) : Prop :=
  match ev with
  | Printed _ | Requested _ => True
  | _ => False
  end.

Definition not_saved (ev : Event) : Prop :=
  match ev with
  | Saved _ => False
  | _ => True
  end.


(** A numeral with exactly two decimals: an optional minus sign, one or
    more digits, a point and two digits.  [read_fixed2] gives its sign
    and the number of hundredths it denotes. *)
Definition read_fixed2 (s : string) : option (bool * Z) :=
  let '(neg, body) :=
    match s with
    | String c r => if Ascii.eqb c "-" then (true, r) else (false, s)
    | EmptyString => (false, s)
    end in
  let '(ip, r) := Float.span_digits body in
  match ip, r with
  | String _ _, String p (String a (String b EmptyString)) =>
      if Ascii.eqb p "." && Text.is_digit a && Text.is_digit b
      then Some (neg, Numeral.value ip * 100
                      + Text.digit_val a * 10 + Text.digit_val b)
      else None
  | _, _ => None
  end.

(** [shows_hundredths x s]: the text [s] is a numeral with two decimals,
    of the sign of [x], and no numeral with two decimals is nearer to the
    finite float [x]: with [x = n / d] and [q] the hundredths read from
    [s], [|q / 100 - n / d| <= 1 / 200]. *)
Definition shows_hundredths (x : Float.float) (s : string) : Prop :=
  match x with
  | S754_zero neg => read_fixed2 s = Some (neg, 0)
  | S754_finite neg m e =>
      exists q, read_fixed2 s = Some (neg, q) /\
        2 * Z.abs (q * snd (Float.fraction m e) - 100 * fst (Float.fraction m e))
        <= snd (Float.fraction m e)
  | _ => False
  end.


(** ** Sample worlds

    A world where everything answers: the price service knows every
    pair, channels 1 and 42 exist, the images of BTC and ETH are on disk,
    every send and edit succeeds.  The variants change one answer. *)

Module Scenario.

Definition snapshot (last change : string) : json :=
  JObj [("last", JStr last); ("priceChangePercentage", JStr change)].

(** The body the price service answers for [pair]. *)
Definition ticker (pair : string) : string :=
  Json.dumps
    (JObj [("ok", JStr "ok");
           ("data", JObj [(pair, snapshot "50000.00" "-1.23")])]).

Definition two : Float.float := S754_finite false 4503599627370496 (-51).
Definition half : Float.float := S754_finite false 4503599627370496 (-53).

Definition world : Env :=
  {| cache_writable := true;
     path := fun p =>
       if String.eqb p "images/BTC.png" || String.eqb p "images/ETH.png"
       then Readable else Missing;
     clock := fun _ => "2024-05-01 12:00:00";
     http_post := fun _ pair => HttpResponse 200 (ticker pair);
     channel_of := fun _ id =>
       match id with
       | JInt z => if (z =? 1) || (z =? 42) then Some z else None
       | _ => None
       end;
     send_outcome := fun h _ => Ok (1000 + Z.of_nat (List.length h));
     fetch_outcome := fun _ _ _ => Ok tt;
     edit_outcome := fun _ _ _ => Ok tt |}.

Definition with_http (f : string -> http_outcome) (env : Env) : Env :=
  {| cache_writable := cache_writable env;
     path := path env;
     clock := clock env;
     http_post := fun _ pair => f pair;
     channel_of := channel_of env;
     send_outcome := send_outcome env;
     fetch_outcome := fetch_outcome env;
     edit_outcome := edit_outcome env |}.

Definition without_images (env : Env) : Env :=
  {| cache_writable := cache_writable env;
     path := fun _ => Missing;
     clock := clock env;
     http_post := http_post env;
     channel_of := channel_of env;
     send_outcome := send_outcome env;
     fetch_outcome := fetch_outcome env;
     edit_outcome := edit_outcome env |}.

Definition without_channels (env : Env) : Env :=
  {| cache_writable := cache_writable env;
     path := path env;
     clock := clock env;
     http_post := http_post env;
     channel_of := fun _ _ => None;
     send_outcome := send_outcome env;
     fetch_outcome := fetch_outcome env;
     edit_outcome := edit_outcome env |}.

Definition with_fetch (r : res unit) (env : Env) : Env :=
  {| cache_writable := cache_writable env;
     path := path env;
     clock := clock env;
     http_post := http_post env;
     channel_of := channel_of env;
     send_outcome := send_outcome env;
     fetch_outcome := fun _ _ _ => r;
     edit_outcome := edit_outcome env |}.

Definition with_send (r : res Z) (env : Env) : Env :=
  {| cache_writable := cache_writable env;
     path := path env;
     clock := clock env;
     http_post := http_post env;
     channel_of := channel_of env;
     send_outcome := fun _ _ => r;
     fetch_outcome := fetch_outcome env;
     edit_outcome := edit_outcome env |}.

(** No cache file yet, nothing happened. *)
Definition fresh : St := {| cache_file := None; history := [] |}.

Definition on_disk (text : string) : St :=
  {| cache_file := Some {| readable := true; content := text |};
     history := [] |}.

Definition command (text : string) : Message :=
  {| msg_from_self := false; msg_content := text; msg_channel := 7 |}.

(** The tracked item of the specification's scenario. *)
Definition btc_item : json :=
  JObj [("message_id", JInt 555); ("symbol", JStr "BTC"); ("fiat", JStr "USD");
        ("amount", JFloat two); ("channel_id", JInt 1)].

Definition btc_store : json := JObj [("1-BTC-USD-0", btc_item)].

(** The price service cannot be reached. *)
Definition down : Env :=
  with_http (fun _ => HttpFailed (Exn ConnectionError "Connection refused")) world.

(** The price service answers with an error status. *)
Definition unavailable : Env :=
  with_http (fun _ => HttpResponse 503 "Service Unavailable") world.

(** The price service answers something that is no JSON document. *)
Definition garbled : Env :=
  with_http (fun _ => HttpResponse 200 "<html>busy</html>") world.

(** The price service knows no pair. *)
Definition no_pairs : Env :=
  with_http
    (fun _ => HttpResponse 200
       (Json.dumps (JObj [("ok", JStr "ok"); ("data", JObj [])]))) world.

(** The price service answers a document whose data is [null]. *)
Definition null_data : Env :=
  with_http
    (fun _ => HttpResponse 200 (Json.dumps (JObj [("data", JNull)]))) world.

(** Every posted message has been deleted. *)
Definition gone : Env :=
  with_fetch
    (Raise (Exn NotFound "404 Not Found (error code: 10008): Unknown Message"))
    world.

(** A world with one trouble of each kind: channel 9 is unknown, the
    price of DOGE cannot be fetched and the message 404 has been
    deleted. *)
Definition patchy : Env :=
  {| cache_writable := true;
     path := path world;
     clock := clock world;
     http_post := fun _ pair =>
       if String.eqb pair "DOGE-USD"
       then HttpFailed (Exn Timeout "Read timed out.")
       else HttpResponse 200 (ticker pair);
     channel_of := channel_of world;
     send_outcome := send_outcome world;
     fetch_outcome := fun _ _ mid =>
       match mid with
       | JInt 404 =>
           Raise (Exn NotFound
                    "404 Not Found (error code: 10008): Unknown Message")
       | _ => Ok tt
       end;
     edit_outcome := edit_outcome world |}.

Definition item (message_id : Z) (symbol fiat : string) (channel_id : Z)
  : json :=
  JObj [("message_id", JInt message_id); ("symbol", JStr symbol);
        ("fiat", JStr fiat); ("amount", JFloat two);
        ("channel_id", JInt channel_id)].

(** Three entries that fail, each in its way, and one that does not. *)
Definition patchy_store : json :=
  JObj [ ("9-BTC-USD-0", item 551 "BTC" "USD" 9);
         ("1-DOGE-USD-1", item 552 "DOGE" "USD" 1);
         ("1-ETH-USD-2", item 404 "ETH" "USD" 1);
         ("1-BTC-USD-3", btc_item) ].

(** Three commands and a message that is none. *)
Definition session : list Message :=
  [ command "!crypto eth eur 42 0.5";
    command "hello";
    command "!crypto ETH EUR 42 0.5";
    command "!crypto btc usd 1" ].

End Scenario.


(** The three ways an entry of the store fails within a tick.
    [skipped env s data s'] tells the state [s'] the tick is in once the
    entry [data], met in state [s], has failed:
    - its channel cannot be resolved;
    - the price fetch is absent;
    - the posted message no longer exists. *)
Inductive skipped (env : Env) (s : St) (data : json) : St -> Prop :=
  | skipped_channel symbol fiat amount channel_id :
      Py.getitem data "symbol" = Ok symbol ->
      Py.getitem data "fiat" = Ok fiat ->
      Py.dict_get data "amount" (JFloat Float.one) = Ok amount ->
      Py.getitem data "channel_id" = Ok channel_id ->
      IO.find_channel env (history s) channel_id = Ok None ->
      skipped env s data s
  | skipped_fetch symbol fiat amount channel_id chan s' :
      Py.getitem data "symbol" = Ok symbol ->
      Py.getitem data "fiat" = Ok fiat ->
      Py.dict_get data "amount" (JFloat Float.one) = Ok amount ->
      Py.getitem data "channel_id" = Ok channel_id ->
      IO.find_channel env (history s) channel_id = Ok (Some chan) ->
      Bot.get_crypto_data symbol fiat env s = (Ok JNull, s') ->
      skipped env s data s'
  | skipped_message symbol fiat amount channel_id chan crypto_data s1
        embed image_path message_id e :
      Py.getitem data "symbol" = Ok symbol ->
      Py.getitem data "fiat" = Ok fiat ->
      Py.dict_get data "amount" (JFloat Float.one) = Ok amount ->
      Py.getitem data "channel_id" = Ok channel_id ->
      IO.find_channel env (history s) channel_id = Ok (Some chan) ->
      Bot.get_crypto_data symbol fiat env s = (Ok crypto_data, s1) ->
      Py.is_None crypto_data = false ->
      Bot.create_embed symbol fiat crypto_data amount env s1
      = (Ok (embed, image_path), s1) ->
      Py.getitem data "message_id" = Ok message_id ->
      fetch_outcome env (history s1) chan message_id = Raise e ->
      is_NotFound e = true ->
      skipped env s data
        {| cache_file := cache_file s1;
           history :=
             (history s1 ++ [FetchedMessage chan message_id]) ++
             [Printed ("Message " ++ PyStr.str message_id
                       ++ " not found in channel " ++ PyStr.str channel_id)] |}.


(** The arguments of a command as [on_message] reads them: symbol, fiat,
    channel and amount. *)
Definition command_args (content : string)
  : res (string * string * Z * Float.float) :=
  let parts := Text.split content in
  match Py.index parts 1 with
  | Raise e => Raise e
  | Ok p1 =>
  match Py.index parts 2 with
  | Raise e => Raise e
  | Ok p2 =>
  match Py.index parts 3 with
  | Raise e => Raise e
  | Ok p3 =>
  match Py.int_of_string p3 with
  | Raise e => Raise e
  | Ok channel_id =>
  match (if 4 <? Z.of_nat (List.length parts)
         then match Py.index parts 4 with
              | Ok p4 => Py.to_float (JStr p4)
              | Raise e => Raise e
              end
         else Ok Float.one) with
  | Raise e => Raise e
  | Ok amount => Ok (Text.upper p1, Text.upper p2, channel_id, amount)
  end end end end end.

(** The key and the record [on_message] stores for a tracked message. *)
Definition tracked_key (channel_id : Z) (symbol fiat : string) (size : Z)
  : string :=
  Numeral.of_Z channel_id ++ "-" ++ symbol ++ "-" ++ fiat ++ "-"
  ++ Numeral.of_Z size.

Definition tracked_item (message_id : Z) (symbol fiat : string)
    (amount : Float.float) (channel_id : Z) : json :=
  JObj [ ("message_id", JInt message_id); ("symbol", JStr symbol);
         ("fiat", JStr fiat); ("amount", JFloat amount);
         ("channel_id", JInt channel_id) ].

(** [recorded env s message s']: handling [message] in state [s] went all
    the way: the arguments were read, the price was fetched, the store
    was loaded, the channel was found, the image was opened, the initial
    message was posted and the store, with the new record, was saved. *)
Inductive recorded (env : Env) (s : St) (message : Message) (s' : St) : Prop :=
  | recorded_intro symbol fiat channel_id amount data s1 embed image_path
        cache size chan message_id cache' tail :
      msg_from_self message = false ->
      Text.startswith "!crypto" (msg_content message) = true ->
      command_args (msg_content message) = Ok (symbol, fiat, channel_id, amount) ->
      Bot.get_crypto_data (JStr symbol) (JStr fiat) env s = (Ok data, s1) ->
      Py.is_None data = false ->
      Bot.create_embed (JStr symbol) (JStr fiat) data (JFloat amount) env s1
      = (Ok (embed, image_path), s1) ->
      Bot.load_cache env s1 = (Ok cache, s1) ->
      Py.len cache = Ok size ->
      channel_of env (history s1) (JInt channel_id) = Some chan ->
      path env image_path = Readable ->
      send_outcome env (history s1) chan = Ok message_id ->
      Py.setitem cache (tracked_key channel_id symbol fiat size)
        (tracked_item message_id symbol fiat amount channel_id) = Ok cache' ->
      cache_writable env = true ->
      cache_file s' =
        Some {| readable := match cache_file s with
                            | Some f => readable f
                            | None => true
                            end;
                content := Json.dumps cache' |} ->
      history s' =
        (history s1
         ++ SentEmbed chan embed
              [{| att_path := image_path; att_name := symbol ++ ".png" |}]
         :: Saved (Json.dumps cache') :: tail)%list ->
      recorded env s message s'.


(** ** Floats and their numerals

    [canonical m e]: [m * 2^e] is written the way binary64 stores it, with
    53 significant bits, or fewer at the least exponent. *)
Definition canonical (m : positive) (e : Z) : Prop :=
  (2 ^ 52 <= Zpos m < 2 ^ 53 /\ -1074 <= e <= 971) \/
  (Zpos m < 2 ^ 52 /\ e = -1074).

(** The gap to the float below [m * 2^e] is half the gap to the float
    above it when [m * 2^e] is a power of two in the normal range. *)
Definition low_gap_halved (m : positive) (e : Z) : bool :=
  (Zpos m =? 2 ^ 52) && (-1074 <? e).

(** [within_half_gap n d m e]: the fraction [n / d] is nearer to
    [m * 2^e] than to any other float. *)
Definition within_half_gap (n d : Z) (m : positive) (e : Z) : Prop :=
  (if low_gap_halved m e
   then (4 * Zpos m - 1) * (2 ^ (e + 1074) * d) < 4 * (n * 2 ^ 1074)
   else (2 * Zpos m - 1) * (2 ^ (e + 1074) * d) < 2 * (n * 2 ^ 1074)) /\
  2 * (n * 2 ^ 1074) < (2 * Zpos m + 1) * (2 ^ (e + 1074) * d).

(** The characters of the numerals [repr] writes. *)
Definition numeral_char (c : ascii) : bool :=
  Text.is_digit c || Ascii.eqb c "." || Ascii.eqb c "e"
  || Ascii.eqb c "+" || Ascii.eqb c "-".

(** [stops_digits s]: [s] does not go on with a digit. *)
Definition stops_digits (s : string) : Prop :=
  match s with
  | String c _ => Text.is_digit c = false
  | EmptyString => True
  end.

(** A numeral in parts: the digits before the point, the digits after it
    if it has a point, and the sign and digits of its exponent if it has
    one. *)
Definition frac_text (fp : option string) : string :=
  match fp with
  | Some f => String "." f
  | None => ""
  end.

Definition exp_text (ex : option (bool * string)) : string :=
  match ex with
  | Some (neg, ed) => String "e" ((if neg then "-" else "+") ++ ed)
  | None => ""
  end.

Definition numeral_text (ip : string) (fp : option string)
    (ex : option (bool * string)) : string :=
  ip ++ frac_text fp ++ exp_text ex.

Definition frac_digits (fp : option string) : string :=
  match fp with Some f => f | None => "" end.

Definition exp_value (ex : option (bool * string)) : Z :=
  match ex with
  | Some (neg, ed) => if neg then - Numeral.value ed else Numeral.value ed
  | None => 0
  end.

(** The parts are digits, and those that are present are not empty. *)
Definition digit_parts (ip : string) (fp : option string)
    (ex : option (bool * string)) : Prop :=
  Text.forallb_string Text.is_digit ip = true /\ ip <> "" /\
  Text.forallb_string Text.is_digit (frac_digits fp) = true /\
  match ex with
  | Some (_, ed) => Text.forallb_string Text.is_digit ed = true /\ ed <> ""
  | None => True
  end.

(** The parts of a numeral both [float] and [json.loads] accept: an
    integer part without a leading zero, unless it is the lone zero, and a
    fraction or an exponent. *)
Definition numeral_parts (ip : string) (fp : option string)
    (ex : option (bool * string)) : Prop :=
  (ip = "0" \/
   exists d r, ip = String d r /\ Text.is_digit d = true /\ d <> "0"%char /\
               Text.forallb_string Text.is_digit r = true) /\
  match fp with
  | Some f => Text.forallb_string Text.is_digit f = true /\ f <> ""
  | None => True
  end /\
  match ex with
  | Some (_, ed) => Text.forallb_string Text.is_digit ed = true /\ ed <> ""
  | None => True
  end /\
  (frac_text fp ++ exp_text ex)%string <> "".


(** ** Stores that survive a save

    [reads_back x]: the numeral [json.dumps] writes for the float [x] is
    read by [json.loads] as one numeral with a fraction or an exponent,
    of value [x]. *)
Definition reads_back (x : Float.float) : bool :=
  match x with
  | S754_nan | S754_infinity _ => true
  | _ =>
      match Json.scan_number (Float.repr x) with
      | Some (t, true, EmptyString) =>
          String.eqb t (Float.repr x)
          && match Float.of_string t with
             | Some y => Float.eqb x y
             | None => false
             end
      | _ => false
      end
  end.

Definition each_item (P : json -> Prop) : list json -> Prop :=
  fix go (l : list json) : Prop :=
    match l with
    | [] => True
    | x :: r => P x /\ go r
    end.

Definition each_member (P : json -> Prop) : list (string * json) -> Prop :=
  fix go (l : list (string * json)) : Prop :=
    match l with
    | [] => True
    | (_, x) :: r => P x /\ go r
    end.

(** [faithful v]: no object of [v] has a repeated key and every float of
    [v] reads back. *)
Fixpoint faithful (v : json) : Prop :=
  match v with
  | JFloat x => reads_back x = true
  | JArr l => each_item faithful l
  | JObj kvs => NoDup (map fst kvs) /\ each_member faithful kvs
  | _ => True
  end.

(** A well-formed store: a mapping with distinct keys whose values are
    tracked items with a finite amount. *)
Definition well_formed_item (item : json) : Prop :=
  exists message_id symbol fiat amount channel_id,
    item = tracked_item message_id symbol fiat amount channel_id /\
    Float.valid amount = true /\ Float.is_finite amount = true.

Definition well_formed_store (store : json) : Prop :=
  exists kvs,
    store = JObj kvs /\ NoDup (map fst kvs) /\
    Forall (fun kv => well_formed_item (snd kv)) kvs.


(** What may follow a value in the text [json.dumps] writes: nothing, a
    comma or a line break. *)
Definition boundary (rest : string) : bool :=
  match rest with
  | EmptyString => true
  | String c _ => Ascii.eqb c "," || Ascii.eqb c Text.newline
  end.


(** [reads v]: [json.loads] reads [v] from the text [json.dumps] writes
    for it, at any nesting depth and before any boundary. *)
Definition reads (v : json) : Prop :=
  forall lvl rest fuel,
    boundary rest = true ->
    (2 * String.length (Json.dumps_at lvl v ++ rest) < fuel)%nat ->
    Json.scan fuel (Json.dumps_at lvl v ++ rest) = Some (v, rest).


(** ** Sequences of commands *)

(** The state after the messages have been handled one after the other;
    an exception that escapes a handler does not stop the bot. *)
Fixpoint handle_all (env : Env) (messages : list Message) (s : St) : St :=
  match messages with
  | [] => s
  | m :: r => handle_all env r (snd (Bot.on_message m env s))
  end.

(** [holds env s kvs]: in state [s] the store loads as the mapping [kvs]. *)
Definition holds (env : Env) (s : St) (kvs : list (string * json)) : Prop :=
  fst (Bot.load_cache env s) = Ok (JObj kvs).

(** [keyed_by_position kvs]: every entry is a tracked item filed under
    the key derived from its channel, its symbol, its fiat and its
    position in [kvs], the size of the store when it was added. *)
Definition keyed_by_position (kvs : list (string * json)) : Prop :=
  forall i k v, nth_error kvs i = Some (k, v) ->
    exists message_id symbol fiat amount channel_id,
      v = tracked_item message_id symbol fiat amount channel_id /\
      k = tracked_key channel_id symbol fiat (Z.of_nat i).

(** What follows the last dash of a text. *)
Fixpoint after_last_dash (s : string) : string :=
  match s with
  | EmptyString => EmptyString
  | String c r =>
      if Text.existsb_string (Ascii.eqb "-") r then after_last_dash r
      else if Ascii.eqb c "-" then r else s
  end.


(** [built s kvs]: the cache file of [s] is absent and [kvs] is empty, or
    it is the readable file [on_message] writes for the mapping [kvs]. *)
Definition built (s : St) (kvs : list (string * json)) : Prop :=
  (cache_file s = None /\ kvs = []) \/
  cache_file s = Some {| readable := true; content := Json.dumps (JObj kvs) |}.

Definition item_reads_back (kv : string * json) : Prop :=
  exists message_id symbol fiat amount channel_id,
    snd kv = tracked_item message_id symbol fiat amount channel_id /\
    reads_back amount = true.

(** ** More vocabulary *)

Definition is_print (ev : Event) : Prop :=
  match ev with
  | Printed _ => True
  | _ => False
  end.

(** [misshapen doc]: the decoded response is not an object, or its
    ["data"] entry is not one. *)
Definition misshapen (doc : json) : Prop :=
  match doc with
  | JObj kvs =>
      exists inner, Py.lookup kvs "data" = Some inner /\
                    forall d, inner <> JObj d
  | _ => True
  end.

(** [storable v]: no object of [v] has a repeated key and every float of
    [v] is a value of binary64. *)
Fixpoint storable (v : json) : Prop :=
  match v with
  | JFloat x => Float.valid x = true
  | JArr l => each_item storable l
  | JObj kvs => NoDup (map fst kvs) /\ each_member storable kvs
  | _ => True
  end.

(** What a tick may do: ask for prices, print, fetch and edit posted
    messages. *)
Definition is_refresh_event (ev : Event) : Prop :=
  match ev with
  | Requested _ | Printed _ | FetchedMessage _ _
  | EditedEmbed _ _ _ | EditedAttachments _ _ _ => True
  | _ => False
  end.

(** What a command leaves in the history after its price request, on
    the channel [c] it was sent from:
    - an error reply and its console line;
    - the reply that no price could be fetched;
    - the initial post, attempted, then an error reply and its line;
    - the initial post, the save of the store and the confirmation. *)
Inductive reply_shape (c : Z) : list Event -> Prop :=
  | reply_error text :
      reply_shape c
        [ SentText c ("An error occurred: " ++ text);
          Printed ("Error: " ++ text) ]
  | reply_no_price symbol fiat :
      reply_shape c
        [ SentText c ("Could not fetch data for " ++ symbol ++ " in " ++ fiat) ]
  | reply_error_after_post chan embed files text :
      reply_shape c
        [ SentEmbed chan embed files;
          SentText c ("An error occurred: " ++ text);
          Printed ("Error: " ++ text) ]
  | reply_tracking chan embed files saved symbol fiat amount channel_id :
      reply_shape c
        [ SentEmbed chan embed files;
          Saved saved;
          SentText c
            ("Tracking " ++ symbol ++ " in " ++ fiat ++ " with amount "
             ++ Float.repr amount ++ " in channel " ++ Numeral.of_Z channel_id) ].

(** The same world with a cache file that cannot be written. *)
Definition read_only (env : Env) : Env :=
  {| cache_writable := false;
     path := path env;
     clock := clock env;
     http_post := http_post env;
     channel_of := channel_of env;
     send_outcome := send_outcome env;
     fetch_outcome := fetch_outcome env;
     edit_outcome := edit_outcome env |}.

(** What the bot does, one thing at a time: it handles a message or the
    timer fires. *)
Inductive Activity : Type :=
  | Command (m : Message)
  | Tick.

(** The state after the activities, each run to its end from the state
    the previous one left, whether it raised or not. *)
Fixpoint run_all (env : Env) (acts : list Activity) (s : St) : St :=
  match acts with
  | [] => s
  | Command m :: r => run_all env r (snd (Bot.on_message m env s))
  | Tick :: r => run_all env r (snd (Bot.update_crypto_prices env s))
  end.

Definition is_command (a : Activity) : bool :=
  match a with
  | Command _ => true
  | Tick => false
  end.

(** The number of price requests among the events. *)
Definition requests (l : list Event) : nat :=
  List.length
    (filter (fun ev => match ev with Requested _ => true | _ => false end) l).


(** * Properties *)

Local Open Scope bot_scope.

(** ** What a computation leaves alone *)

Section Frame.

Variable P : Event -> Prop.

Lemma calm_refl s : calm P s s.
Proof.
  split; [reflexivity|]. exists []. now rewrite app_nil_r.
Qed.

Lemma calm_trans s1 s2 s3 : calm P s1 s2 -> calm P s2 s3 -> calm P s1 s3.
Proof.
  intros [C1 [l1 [H1 F1]]] [C2 [l2 [H2 F2]]]. split.
  - congruence.
  - exists (l1 ++ l2)%list. split.
    + now rewrite H2, H1, app_assoc.
    + apply Forall_app; auto.
Qed.

Lemma quiet_ret A (a : A) : quiet P (ret a).
Proof. intros env s. apply calm_refl. Qed.

Lemma quiet_lift A (r : res A) : quiet P (lift r).
Proof. intros env s. apply calm_refl. Qed.

Lemma quiet_throw A k msg : quiet P (@throw A k msg).
Proof. apply quiet_lift. Qed.

Lemma quiet_ask A (f : Env -> list Event -> A) : quiet P (ask f).
Proof. intros env s. apply calm_refl. Qed.

Lemma quiet_emit ev : P ev -> quiet P (emit ev).
Proof.
  intros HP env s. split; [reflexivity|]. exists [ev]. split; auto.
Qed.

Lemma quiet_bind A B (m : M A) (k : A -> M B) :
  quiet P m -> (forall a, quiet P (k a)) -> quiet P (bind m k).
Proof.
  intros Hm Hk env s. unfold bind. specialize (Hm env s).
  destruct (m env s) as [[a|e] s1]; simpl in *.
  - eapply calm_trans; [exact Hm|]. apply Hk.
  - exact Hm.
Qed.

Lemma quiet_try_except A (body : M A) catches handler :
  quiet P body -> (forall e, quiet P (handler e)) ->
  quiet P (try_except body catches handler).
Proof.
  intros Hb Hh env s. unfold try_except. specialize (Hb env s).
  destruct (body env s) as [[a|e] s1]; simpl in *; [exact Hb|].
  destruct (catches e); simpl; [|exact Hb].
  eapply calm_trans; [exact Hb|]. apply Hh.
Qed.

Lemma quiet_for_each A (l : list A) (body : A -> M unit) :
  (forall x, quiet P (body x)) -> quiet P (for_each l body).
Proof.
  intros Hb. induction l as [|x r IH]; simpl.
  - apply quiet_ret.
  - apply quiet_bind; auto.
Qed.

Lemma quiet_path_exists p : quiet P (IO.path_exists p).
Proof. intros env s. apply calm_refl. Qed.

Lemma quiet_discord_File p name : quiet P (IO.discord_File p name).
Proof.
  intros env s. unfold IO.discord_File.
  destruct (path env p); apply calm_refl.
Qed.

Lemma quiet_read_cache_file : quiet P IO.read_cache_file.
Proof. intros env s. apply calm_refl. Qed.

Lemma quiet_get_channel id : quiet P (IO.get_channel id).
Proof. intros env s. apply calm_refl. Qed.

End Frame.

(** Breaks a computation into its steps and settles each with the
    lemmas above; [tac] settles the events emitted. *)
Ltac quiet_step tac :=
  lazymatch goal with
  | |- quiet _ (ret _) => apply quiet_ret
  | |- quiet _ (lift _) => apply quiet_lift
  | |- quiet _ (throw _ _) => apply quiet_throw
  | |- quiet _ (ask _) => apply quiet_ask
  | |- quiet _ (emit _) => apply quiet_emit; tac
  | |- quiet _ (bind _ _) => apply quiet_bind; [|intros ?]
  | |- quiet _ (try_except _ _ _) => apply quiet_try_except; [|intros ?]
  | |- quiet _ (for_each _ _) => apply quiet_for_each; intros ?
  | |- quiet _ (IO.path_exists _) => apply quiet_path_exists
  | |- quiet _ (IO.discord_File _ _) => apply quiet_discord_File
  | |- quiet _ IO.read_cache_file => apply quiet_read_cache_file
  | |- quiet _ (IO.print _) => unfold IO.print
  | |- quiet _ IO.now => unfold IO.now
  | |- quiet _ (IO.requests_post _) => unfold IO.requests_post
  | |- quiet _ (IO.raise_for_status _) => unfold IO.raise_for_status
  | |- quiet _ (IO.response_json _) => unfold IO.response_json
  | |- quiet _ (IO.get_channel _) => apply quiet_get_channel
  | |- quiet _ (IO.send_embed _ _ _) => unfold IO.send_embed
  | |- quiet _ (IO.send_text _ _) => unfold IO.send_text
  | |- quiet _ (IO.fetch_message _ _) => unfold IO.fetch_message
  | |- quiet _ (IO.edit_embed _ _ _) => unfold IO.edit_embed
  | |- quiet _ (IO.edit_attachments _ _ _) => unfold IO.edit_attachments
  | |- quiet _ (match ?x with _ => _ end) => destruct x
  end.

Ltac quiet_steps tac := repeat quiet_step tac.

Lemma quiet_weaken (P Q : Event -> Prop) A (m : M A) :
  (forall ev, P ev -> Q ev) -> quiet P m -> quiet Q m.
Proof.
  intros HPQ Hm env s. destruct (Hm env s) as [C [l [H F]]].
  split; [exact C|]. exists l. split; [exact H|].
  eapply Forall_impl; eauto.
Qed.

Lemma get_crypto_data_quiet symbol fiat :
  quiet is_console_or_request (Bot.get_crypto_data symbol fiat).
Proof.
  unfold Bot.get_crypto_data. quiet_steps ltac:(exact I).
Qed.

Lemma create_embed_silent symbol fiat data amount :
  quiet (fun _ => False) (Bot.create_embed symbol fiat data amount).
Proof.
  unfold Bot.create_embed. quiet_steps fail.
Qed.

Lemma load_cache_silent : quiet (fun _ => False) Bot.load_cache.
Proof.
  unfold Bot.load_cache. quiet_steps fail.
Qed.

(** The same, with the functions of the script already covered. *)
Ltac quiet_script tac :=
  repeat first
    [ quiet_step tac
    | lazymatch goal with
      | |- quiet _ (Bot.get_crypto_data _ _) =>
          eapply quiet_weaken; [|apply get_crypto_data_quiet];
          intros [] ?; simpl in *; tac
      | |- quiet _ (Bot.create_embed _ _ _ _) =>
          eapply quiet_weaken; [|apply create_embed_silent]; intros ? []
      | |- quiet _ Bot.load_cache =>
          eapply quiet_weaken; [|apply load_cache_silent]; intros ? []
      end ].

Lemma refresh_quiet data : quiet not_saved (Bot.refresh data).
Proof.
  unfold Bot.refresh. quiet_script ltac:(first [exact I | contradiction]).
Qed.

Lemma update_crypto_prices_quiet : quiet not_saved Bot.update_crypto_prices.
Proof.
  unfold Bot.update_crypto_prices.
  quiet_script ltac:(first [exact I | contradiction]).
  apply refresh_quiet.
Qed.

(** ** The refresh tick does not touch the store *)

Lemma load_cache_reads_file env s s' :
  cache_file s' = cache_file s ->
  fst (Bot.load_cache env s') = fst (Bot.load_cache env s).
Proof.
  intros H. unfold Bot.load_cache, bind, IO.read_cache_file. simpl.
  rewrite H. destruct (cache_file s) as [f|]; [|reflexivity].
  destruct (readable f); [|reflexivity].
  destruct (Json.loads (content f)); reflexivity.
Qed.

(** C5. Whatever the price service and the chat service answer during a
    tick (a posted message that no longer exists included), the cache
    file after the tick is the cache file before it, the tick saved
    nothing, and loading the store gives what it gave before. *)
Theorem tick_leaves_store_untouched env s :
  let s' := snd (Bot.update_crypto_prices env s) in
  cache_file s' = cache_file s /\
  (exists l, history s' = (history s ++ l)%list /\ Forall not_saved l) /\
  fst (Bot.load_cache env s') = fst (Bot.load_cache env s).
Proof.
  destruct (update_crypto_prices_quiet env s) as [C L].
  repeat split; auto using load_cache_reads_file.
Qed.

(** ** Loading the store *)

(** C9. Without a cache file, [load_cache] returns the empty mapping
    and raises nothing; when it raises, the file exists and is either
    unreadable or not a JSON document. *)
Theorem load_cache_missing_file env s :
  (cache_file s = None -> Bot.load_cache env s = (Ok (JObj []), s)) /\
  (forall e, fst (Bot.load_cache env s) = Raise e ->
     exists f, cache_file s = Some f /\
       (readable f = false \/ Json.loads (content f) = None)).
Proof.
  unfold Bot.load_cache, bind, IO.read_cache_file. simpl. split.
  - intros ->. reflexivity.
  - intros e. destruct (cache_file s) as [f|]; [|discriminate].
    intros H. exists f. split; [reflexivity|].
    destruct (readable f); [|now left].
    destruct (Json.loads (content f)); [discriminate|now right].
Qed.

(** ** The price fetcher *)

(** Decides the [except] clauses met by an exception of a known class. *)
Ltac decide_catch :=
  repeat match goal with
  | |- context [?f (Exn ?k ?t)] =>
      lazymatch f with
      | is_RequestException => idtac
      | is_Exception => idtac
      | is_NotFound => idtac
      end;
      let b := eval cbv in (f (Exn k t)) in
      lazymatch b with
      | true => idtac
      | false => idtac
      end;
      change (f (Exn k t)) with b
  | H : context [?f (Exn ?k ?t)] |- _ =>
      lazymatch f with
      | is_RequestException => idtac
      | is_Exception => idtac
      | is_NotFound => idtac
      end;
      let b := eval cbv in (f (Exn k t)) in
      lazymatch b with
      | true => idtac
      | false => idtac
      end;
      change (f (Exn k t)) with b in H
  end.

(** Unfolds the plumbing of the monad and reduces what is decided. *)
Ltac run :=
  cbv beta iota zeta delta [bind try_except lift throw raise ask emit ret
    IO.print IO.now IO.requests_post IO.raise_for_status
    IO.response_json IO.get_channel IO.path_exists IO.send_embed
    IO.send_text IO.fetch_message IO.edit_embed IO.edit_attachments
    IO.read_cache_file fst snd negb] in *;
  repeat match goal with
  | |- context [IO.find_channel ?env ?h (JInt ?z)] =>
      change (IO.find_channel env h (JInt z))
        with (@Ok (option Z) (channel_of env h (JInt z)))
  | H : context [IO.find_channel ?env ?h (JInt ?z)] |- _ =>
      change (IO.find_channel env h (JInt z))
        with (@Ok (option Z) (channel_of env h (JInt z))) in H
  end;
  decide_catch;
  cbv beta iota in *.

(** Where the fetcher answers [None]: when the request raises one of
    [requests]' exceptions (transport failure, timeout), when the status
    is an error status, when the body is no JSON document, and when the
    document is an object without ["data"] or whose ["data"] is an
    object without the pair; and when it returns a value other than
    [None], that value is the entry of the pair in the ["data"] of the
    response. *)
Lemma get_crypto_data_absent env s symbol fiat :
  let pair := PyStr.str symbol ++ "-" ++ PyStr.str fiat in
  let out := http_post env (history s) pair in
  let result := fst (Bot.get_crypto_data symbol fiat env s) in
  (forall e, out = HttpFailed e -> is_RequestException e = true ->
     result = Ok JNull) /\
  (forall status body, out = HttpResponse status body ->
     400 <= status < 600 -> result = Ok JNull) /\
  (forall status body, out = HttpResponse status body ->
     Json.loads body = None -> result = Ok JNull) /\
  (forall status body kvs, out = HttpResponse status body ->
     Json.loads body = Some (JObj kvs) ->
     Py.lookup kvs "data" = None \/
     (exists d, Py.lookup kvs "data" = Some (JObj d) /\ Py.lookup d pair = None) ->
     result = Ok JNull) /\
  (forall v, result = Ok v -> v <> JNull ->
     exists status body doc inner,
       out = HttpResponse status body /\ Json.loads body = Some doc /\
       Py.contains "data" doc = Ok true /\ Py.getitem doc "data" = Ok inner /\
       Py.contains pair inner = Ok true /\ Py.getitem inner pair = Ok v).
Proof.
  intros pair out result. subst result. unfold Bot.get_crypto_data.
  fold pair. run. fold out.
  repeat split.
  - intros e -> He. run. now rewrite He.
  - intros status body -> [Hlo Hhi]. run.
    apply Z.leb_le in Hlo. apply Z.ltb_lt in Hhi. now rewrite Hlo, Hhi.
  - intros status body -> Hbody. run.
    destruct ((400 <=? status) && (status <? 600)); [reflexivity|].
    now rewrite Hbody.
  - intros status body kvs -> Hbody Hshape. run.
    destruct ((400 <=? status) && (status <? 600)); [reflexivity|].
    rewrite Hbody. unfold Py.contains at 1, Py.getitem at 1.
    destruct Hshape as [Hd | [d [Hd Hp]]]; rewrite Hd; run.
    + reflexivity.
    + unfold Py.contains. now rewrite Hp.
  - intros v Hv Hnn. destruct out as [e|status body] eqn:Hout; run.
    + exfalso. destruct (is_RequestException e); run; congruence.
    + exists status, body.
      destruct ((400 <=? status) && (status <? 600)); run;
        [exfalso; congruence|].
      destruct (Json.loads body) as [doc|]; run; [|exfalso; congruence].
      exists doc.
      destruct (Py.contains "data" doc) as [[|]|e1] eqn:Hc; run.
      3:{ exfalso. destruct (is_RequestException e1); run; congruence. }
      2:{ exfalso. congruence. }
      destruct (Py.getitem doc "data") as [inner|e2] eqn:Hg; run.
      2:{ exfalso. destruct (is_RequestException e2); run; congruence. }
      exists inner.
      destruct (Py.contains pair inner) as [[|]|e3] eqn:Hc2; run.
      3:{ exfalso. destruct (is_RequestException e3); run; congruence. }
      2:{ exfalso. congruence. }
      destruct (Py.getitem inner pair) as [w|e4] eqn:Hg2; run.
      2:{ exfalso. destruct (is_RequestException e4); run; congruence. }
      repeat split; congruence.
Qed.

(** ** Strings and numerals *)

Section StringFacts.
Import Text.

Lemma append_nil_r (s : string) : s ++ "" = s.
Proof. induction s as [|c r IH]; simpl; congruence. Qed.

Lemma append_assoc (a b c : string) : (a ++ b) ++ c = a ++ (b ++ c).
Proof. induction a as [|x r IH]; simpl; congruence. Qed.

Lemma length_append (a b : string) :
  String.length (a ++ b) = (String.length a + String.length b)%nat.
Proof. induction a as [|x r IH]; simpl; congruence. Qed.

Lemma forallb_string_append f (a b : string) :
  forallb_string f (a ++ b) = forallb_string f a && forallb_string f b.
Proof.
  induction a as [|x r IH]; simpl; [reflexivity|].
  rewrite IH. now rewrite andb_assoc.
Qed.

Lemma code_chr z : 0 <= z < 256 -> code (chr z) = z.
Proof.
  intros H. unfold code, chr. rewrite N_ascii_embedding.
  - now rewrite Z2N.id by lia.
  - change 256%N with (Z.to_N 256). apply Z2N.inj_lt; lia.
Qed.

Lemma code_range c : 0 <= code c < 256.
Proof.
  unfold code. pose proof (N_ascii_bounded c) as H.
  split; [apply N2Z.is_nonneg|]. change 256 with (Z.of_N 256).
  now apply N2Z.inj_lt.
Qed.

Lemma chr_code c : chr (code c) = c.
Proof. unfold code, chr. rewrite N2Z.id. apply ascii_N_embedding. Qed.

Lemma code_inj a b : code a = code b -> a = b.
Proof. intros H. rewrite <- (chr_code a), <- (chr_code b). now rewrite H. Qed.

Lemma is_digit_digit_chr d : 0 <= d < 10 -> is_digit (digit_chr d) = true.
Proof.
  intros H. unfold is_digit, digit_chr. rewrite code_chr by lia.
  apply andb_true_intro. split; apply Z.leb_le; lia.
Qed.

Lemma digit_val_digit_chr d : 0 <= d < 10 -> digit_val (digit_chr d) = d.
Proof. intros H. unfold digit_val, digit_chr. rewrite code_chr; lia. Qed.

Lemma digit_chr_zero d : 0 <= d < 10 -> digit_chr d = "0"%char -> d = 0.
Proof.
  intros H E. apply (f_equal code) in E. unfold digit_chr in E.
  rewrite code_chr in E by lia. change (code "0") with 48 in E. lia.
Qed.

Lemma span_digits_append (ds r : string) :
  forallb_string is_digit ds = true ->
  match r with String c _ => is_digit c = false | EmptyString => True end ->
  Float.span_digits (ds ++ r) = (ds, r).
Proof.
  intros Hd Hr. induction ds as [|c t IH]; simpl.
  - destruct r as [|c t]; [reflexivity|]. simpl. now rewrite Hr.
  - simpl in Hd. apply andb_prop in Hd as [Hc Ht].
    rewrite Hc, (IH Ht). reflexivity.
Qed.

End StringFacts.

Section NumeralFacts.
Import Text Numeral.

Lemma value_acc_append (s t : string) a :
  value_acc (s ++ t) a = value_acc t (value_acc s a).
Proof. revert a. induction s as [|c r IH]; simpl; intros a; auto. Qed.

(** What [digits_fuel] adds in front of its accumulator, given fuel for
    every bit of [n]. *)
Lemma digits_fuel_spec fuel : forall n acc,
  (0 < fuel)%nat -> 0 <= n < 2 ^ Z.of_nat fuel ->
  exists ds,
    digits_fuel fuel n acc = ds ++ acc /\
    forallb_string is_digit ds = true /\
    (forall a, value_acc ds a = a * 10 ^ len ds + n) /\
    (exists c r, ds = String c r /\ (0 < n -> c <> "0"%char)).
Proof.
  induction fuel as [|k IH]; intros n acc Hf Hn; [lia|].
  simpl. assert (Hd : 0 <= n mod 10 < 10) by (apply Z.mod_pos_bound; lia).
  destruct (n <? 10) eqn:Hlt.
  - apply Z.ltb_lt in Hlt.
    exists (String (digit_chr (n mod 10)) ""). repeat split.
    + simpl. now rewrite is_digit_digit_chr.
    + intros a. cbn [value_acc]. rewrite digit_val_digit_chr by lia.
      rewrite Z.mod_small by lia. unfold len. simpl String.length.
      change (10 ^ Z.of_nat 1) with 10. lia.
    + eexists _, _. split; [reflexivity|]. intros Hpos E.
      apply digit_chr_zero in E; [|lia]. rewrite Z.mod_small in E; lia.
  - apply Z.ltb_ge in Hlt.
    assert (Hk : 0 <= n / 10 < 2 ^ Z.of_nat k).
    { split; [apply Z.div_pos; lia|].
      apply Z.div_lt_upper_bound; [lia|].
      rewrite Nat2Z.inj_succ, Z.pow_succ_r in Hn by lia. lia. }
    assert (Hq : 1 <= n / 10) by (apply Z.div_le_lower_bound; lia).
    assert (Hk0 : (0 < k)%nat).
    { destruct k; [simpl in Hk; lia | lia]. }
    destruct (IH (n / 10) (String (digit_chr (n mod 10)) acc) Hk0 Hk)
      as (ds & E & Hall & Hval & c & r & Hhead & Hnz).
    exists (ds ++ String (digit_chr (n mod 10)) ""). repeat split.
    + rewrite E, append_assoc. reflexivity.
    + rewrite forallb_string_append, Hall. simpl.
      now rewrite is_digit_digit_chr.
    + intros a. rewrite value_acc_append, Hval. cbn [value_acc].
      rewrite digit_val_digit_chr by lia.
      unfold len. rewrite length_append. simpl String.length.
      rewrite Nat2Z.inj_add, Z.pow_add_r by lia.
      change (10 ^ Z.of_nat 1) with 10.
      pose proof (Z.div_mod n 10). lia.
    + exists c, (r ++ String (digit_chr (n mod 10)) ""). split.
      * rewrite Hhead. reflexivity.
      * intros _. apply Hnz. lia.
Qed.

Lemma digits_spec n : 0 <= n ->
  forallb_string is_digit (digits n) = true /\
  value (digits n) = n /\
  (exists c r, digits n = String c r /\ (0 < n -> c <> "0"%char)).
Proof.
  intros Hn. unfold digits.
  destruct (digits_fuel_spec (S (Z.to_nat (Z.log2 n))) n "") as
      (ds & E & Hall & Hval & Hhead).
  - lia.
  - split; [lia|]. rewrite Nat2Z.inj_succ, Z2Nat.id by apply Z.log2_nonneg.
    destruct (Z.eq_dec n 0) as [->|Hz]; [reflexivity|].
    apply Z.log2_spec. lia.
  - rewrite E, append_nil_r. repeat split; auto.
    unfold value. rewrite Hval. lia.
Qed.

Lemma value_of_Z z : Json.int_of_token (of_Z z) = z.
Proof.
  unfold of_Z. destruct (z <? 0) eqn:Hz.
  - apply Z.ltb_lt in Hz. simpl.
    destruct (digits_spec (- z)) as (_ & Hv & _); [lia|].
    change (Ascii.eqb (chr 45) "-") with true. simpl. rewrite Hv. lia.
  - apply Z.ltb_ge in Hz. destruct (digits_spec z Hz) as (Hall & Hv & c & r & E & _).
    unfold Json.int_of_token. rewrite E in *. simpl in Hall.
    apply andb_prop in Hall as [Hc _].
    destruct (Ascii.eqb c "-") eqn:Hm; [|exact Hv].
    apply Ascii.eqb_eq in Hm. subst c. discriminate.
Qed.

(** Two digits for a number below one hundred. *)
Lemma pad2_digits r : 0 <= r < 100 ->
  pad 2 r = String (digit_chr (r / 10)) (String (digit_chr (r mod 10)) "").
Proof.
  intros H.
  assert (Hall : forallb (fun k : nat =>
            String.eqb (pad 2 (Z.of_nat k))
              (String (digit_chr (Z.of_nat k / 10))
                 (String (digit_chr (Z.of_nat k mod 10)) "")))
            (seq 0 100) = true) by (vm_compute; reflexivity).
  rewrite forallb_forall in Hall.
  specialize (Hall (Z.to_nat r)). rewrite Z2Nat.id in Hall by lia.
  apply String.eqb_eq, Hall, in_seq. lia.
Qed.

End NumeralFacts.

(** ** The presenter *)

Section PresenterFacts.
Import Text Numeral.

Lemma scale100_round_spec m e :
  let q := Float.scale100_round m e in
  let n := fst (Float.fraction m e) in
  let d := snd (Float.fraction m e) in
  0 <= q /\ 2 * Z.abs (q * d - 100 * n) <= d.
Proof.
  unfold Float.scale100_round, Float.fraction.
  destruct (0 <=? e) eqn:He; cbn [fst snd].
  - apply Z.leb_le in He.
    assert (0 < 2 ^ e) by (apply Z.pow_pos_nonneg; lia).
    split; [nia|].
    replace (Z.pos m * 2 ^ e * 100 * 1 - 100 * (Z.pos m * 2 ^ e)) with 0 by ring.
    change (Z.abs 0) with 0. lia.
  - apply Z.leb_gt in He.
    assert (Hd : 0 < 2 ^ (- e)) by (apply Z.pow_pos_nonneg; lia).
    set (d := 2 ^ (- e)) in *.
    pose proof (Z.div_mod (Z.pos m * 100) d ltac:(lia)) as Hdm.
    pose proof (Z.mod_pos_bound (Z.pos m * 100) d Hd) as Hr.
    assert (Hq : 0 <= Z.pos m * 100 / d) by (apply Z.div_pos; lia).
    set (q := Z.pos m * 100 / d) in *.
    set (r := (Z.pos m * 100) mod d) in *.
    destruct (2 * r ?= d) eqn:Hc.
    + apply Z.compare_eq in Hc. destruct (Z.even q); split; lia.
    + rewrite Z.compare_lt_iff in Hc. split; lia.
    + rewrite Z.compare_gt_iff in Hc. split; lia.
Qed.

Lemma read_fixed2_digits ip a b :
  forallb_string is_digit ip = true -> ip <> "" ->
  is_digit a = true -> is_digit b = true ->
  let text := ip ++ String "." (String a (String b "")) in
  let q := value ip * 100 + digit_val a * 10 + digit_val b in
  read_fixed2 text = Some (false, q) /\
  read_fixed2 (String "-" text) = Some (true, q).
Proof.
  intros Hall Hne Ha Hb text q.
  assert (Hspan : Float.span_digits text
                  = (ip, String "." (String a (String b "")))).
  { apply span_digits_append; [exact Hall|reflexivity]. }
  destruct ip as [|c r]; [contradiction|].
  assert (Hhead : Ascii.eqb c "-" = false).
  { simpl in Hall. apply andb_prop in Hall as [Hc _].
    destruct (Ascii.eqb c "-") eqn:Hm; [|reflexivity].
    apply Ascii.eqb_eq in Hm. subst c. discriminate. }
  split; unfold read_fixed2.
  - change text with (String c (r ++ String "." (String a (String b "")))) at 1.
    cbv beta iota. rewrite Hhead. fold text. rewrite Hspan.
    change (Ascii.eqb "." ".") with true. rewrite Ha, Hb. reflexivity.
  - change (Ascii.eqb "-" "-") with true. cbv beta iota. rewrite Hspan.
    change (Ascii.eqb "." ".") with true. rewrite Ha, Hb. reflexivity.
Qed.

Lemma read_hundredths q : 0 <= q ->
  read_fixed2 (Float.hundredths q) = Some (false, q) /\
  read_fixed2 ("-" ++ Float.hundredths q) = Some (true, q).
Proof.
  intros Hq. unfold Float.hundredths.
  assert (Hi : 0 <= q / 100) by (apply Z.div_pos; lia).
  assert (Hr : 0 <= q mod 100 < 100) by (apply Z.mod_pos_bound; lia).
  destruct (digits_spec (q / 100) Hi) as (Hall & Hval & c & r & E & _).
  rewrite (pad2_digits _ Hr).
  assert (Ha : 0 <= q mod 100 / 10 < 10).
  { split; [apply Z.div_pos; lia|apply Z.div_lt_upper_bound; lia]. }
  assert (Hb : 0 <= (q mod 100) mod 10 < 10) by (apply Z.mod_pos_bound; lia).
  pose proof (read_fixed2_digits (digits (q / 100))
                (digit_chr (q mod 100 / 10)) (digit_chr ((q mod 100) mod 10))
                Hall ltac:(rewrite E; discriminate)
                (is_digit_digit_chr _ Ha) (is_digit_digit_chr _ Hb)) as H.
  cbv zeta in H. rewrite Hval, !digit_val_digit_chr in H by lia.
  replace (q / 100 * 100 + q mod 100 / 10 * 10 + (q mod 100) mod 10)
    with q in H.
  - exact H.
  - pose proof (Z.div_mod q 100). pose proof (Z.div_mod (q mod 100) 10). lia.
Qed.

(** A finite float is shown by [.2f] as the nearest numeral with two
    decimals. *)
Lemma format_2f_shows x :
  Float.is_finite x = true -> shows_hundredths x (Float.format_2f x).
Proof.
  destruct x as [s|s| |s m e]; simpl; try discriminate; intros _.
  - destruct s; reflexivity.
  - destruct (scale100_round_spec m e) as [Hq Hnear].
    exists (Float.scale100_round m e). split; [|exact Hnear].
    destruct (read_hundredths _ Hq) as [Hpos Hneg].
    destruct s; simpl; assumption.
Qed.

End PresenterFacts.

(** C1. For a snapshot whose price and change convert to finite floats
    and an amount whose product with the price is finite, the embed has
    the three fields of the source; the total shown is the float product
    [price * amount]; and each of price, change and total is written as
    the nearest numeral with exactly two decimals.  In the scenario of
    the specification (last price 50000.00, change -1.23, amount 2.0,
    USD) the fields read "USD 50000.00", "-1.23%" and "USD 100000.00". *)
Theorem create_embed_shows_total :
  (forall env s symbol fiat data a last change price pct,
     Py.getitem data "last" = Ok last -> Py.to_float last = Ok price ->
     Py.getitem data "priceChangePercentage" = Ok change ->
     Py.to_float change = Ok pct ->
     Float.is_finite price = true -> Float.is_finite pct = true ->
     Float.is_finite (Float.mul price a) = true ->
     exists embed image_path,
       Bot.create_embed symbol fiat data (JFloat a) env s
       = (Ok (embed, image_path), s) /\
       fields embed =
         [ ("Current Price", PyStr.str fiat ++ " " ++ Float.format_2f price, false);
           ("24h Change", Float.format_2f pct ++ "%", false);
           ("Value of " ++ Float.repr a ++ " " ++ PyStr.str symbol,
            PyStr.str fiat ++ " " ++ Float.format_2f (Float.mul price a), false) ] /\
       shows_hundredths price (Float.format_2f price) /\
       shows_hundredths pct (Float.format_2f pct) /\
       shows_hundredths (Float.mul price a) (Float.format_2f (Float.mul price a)))
  /\
  (forall env s,
     exists embed image_path,
       Bot.create_embed (JStr "BTC") (JStr "USD")
         (Scenario.snapshot "50000.00" "-1.23") (JFloat Scenario.two) env s
       = (Ok (embed, image_path), s) /\
       fields embed =
         [ ("Current Price", "USD 50000.00", false);
           ("24h Change", "-1.23%", false);
           ("Value of 2.0 BTC", "USD 100000.00", false) ]).
Proof.
  assert (General : forall env s symbol fiat data a last change price pct,
     Py.getitem data "last" = Ok last -> Py.to_float last = Ok price ->
     Py.getitem data "priceChangePercentage" = Ok change ->
     Py.to_float change = Ok pct ->
     exists embed image_path,
       Bot.create_embed symbol fiat data (JFloat a) env s
       = (Ok (embed, image_path), s) /\
       fields embed =
         [ ("Current Price", PyStr.str fiat ++ " " ++ Float.format_2f price, false);
           ("24h Change", Float.format_2f pct ++ "%", false);
           ("Value of " ++ Float.repr a ++ " " ++ PyStr.str symbol,
            PyStr.str fiat ++ " " ++ Float.format_2f (Float.mul price a), false) ]).
  { intros env s symbol fiat data a last change price pct Hl Hp Hc Hpc.
    unfold Bot.create_embed. run. rewrite Hl, Hp, Hc, Hpc.
    unfold Py.float_times. run.
    eexists _, _. split; reflexivity. }
  split.
  - intros env s symbol fiat data a last change price pct Hl Hp Hc Hpc F1 F2 F3.
    destruct (General env s symbol fiat data a last change price pct Hl Hp Hc Hpc)
      as (embed & image_path & Hrun & Hfields).
    exists embed, image_path. repeat split; auto using format_2f_shows.
  - intros env s.
    destruct (General env s (JStr "BTC") (JStr "USD")
                (Scenario.snapshot "50000.00" "-1.23") Scenario.two
                (JStr "50000.00") (JStr "-1.23")
                (S754_finite false 6871947673600000 (-37))
                (S754_finite true 5539427541665710 (-52))
                eq_refl ltac:(vm_compute; reflexivity)
                eq_refl ltac:(vm_compute; reflexivity))
      as (embed & image_path & Hrun & Hfields).
    exists embed, image_path. split; [exact Hrun|].
    rewrite Hfields. vm_compute. reflexivity.
Qed.

Lemma create_embed_shows_total_witness :
  exists embed image_path,
    Bot.create_embed (JStr "ETH") (JStr "EUR")
      (Scenario.snapshot "1999.995" "0.125") (JFloat Scenario.half)
      Scenario.world Scenario.fresh
    = (Ok (embed, image_path), Scenario.fresh) /\
    fields embed =
      [ ("Current Price", "EUR 1999.99", false);
        ("24h Change", "0.12%", false);
        ("Value of 0.5 ETH", "EUR 1000.00", false) ].
Proof.
  destruct (proj1 create_embed_shows_total Scenario.world Scenario.fresh
              (JStr "ETH") (JStr "EUR")
              (Scenario.snapshot "1999.995" "0.125") Scenario.half
              (JStr "1999.995") (JStr "0.125") _ _
              eq_refl ltac:(vm_compute; reflexivity)
              eq_refl ltac:(vm_compute; reflexivity)
              eq_refl eq_refl eq_refl)
    as (embed & image_path & Hrun & Hfields & _).
  exists embed, image_path. split; [exact Hrun|].
  rewrite Hfields. vm_compute. reflexivity.
Defined.

(** Case analysis on the computation that is to run first: the
    scrutinee, itself no [match], of the outermost [match]. *)
Ltac destruct_plain t :=
  lazymatch t with
  | context [match ?x with _ => _ end] =>
      lazymatch x with
      | context [match _ with _ => _ end] => destruct_plain x
      | _ => destruct x eqn:?
      end
  end.

Ltac plain_step :=
  run; lazymatch goal with |- ?G => destruct_plain G end.

Lemma create_embed_state symbol fiat data amount env s :
  snd (Bot.create_embed symbol fiat data amount env s) = s.
Proof.
  unfold Bot.create_embed. repeat plain_step; reflexivity.
Qed.

Lemma load_cache_state env s : snd (Bot.load_cache env s) = s.
Proof.
  unfold Bot.load_cache. repeat plain_step; reflexivity.
Qed.

(** ** The refresh tick *)

Lemma for_each_step {A} (x : A) (rest : list A) (body : A -> M unit) env s s' :
  body x env s = (Ok tt, s') ->
  for_each (x :: rest) body env s = for_each rest body env s'.
Proof. intros H. simpl. unfold bind. now rewrite H. Qed.

Lemma for_each_app {A} (before rest : list A) (body : A -> M unit) env s s1 :
  for_each before body env s = (Ok tt, s1) ->
  for_each (before ++ rest) body env s = for_each rest body env s1.
Proof.
  revert s. induction before as [|x l IH]; intros s H; simpl in *.
  - unfold ret in H. now inversion H.
  - unfold bind in *. destruct (body x env s) as [[[]|e] s0]; [|discriminate].
    now apply IH.
Qed.

(** An entry that fails in one of the three ways raises nothing. *)
Lemma skipped_returns env s data s' :
  skipped env s data s' -> Bot.refresh data env s = (Ok tt, s').
Proof.
  intros Hskip.
  destruct Hskip; unfold Bot.refresh; run;
    repeat match goal with
           | H : _ = Ok _ |- _ => rewrite H
           | H : _ = (_, _) |- _ => rewrite H
           | H : _ = Raise _ |- _ => rewrite H
           | H : _ = true |- _ => rewrite H
           | H : _ = false |- _ => rewrite H
           end; run; reflexivity.
Qed.

(** It attempts no edit and leaves the cache file. *)
Lemma skipped_calm env s data s' :
  skipped env s data s' -> calm (fun ev => ~ is_edit ev) s s'.
Proof.
  intros Hskip. destruct Hskip.
  - apply calm_refl.
  - pose proof (get_crypto_data_quiet symbol fiat env s) as Hq.
    rewrite H4 in Hq. simpl in Hq.
    destruct Hq as [C [l [Hh Hf]]]. split; [exact C|].
    exists l. split; [exact Hh|].
    eapply Forall_impl; [|exact Hf]. intros [] Hev; simpl in *; tauto.
  - pose proof (get_crypto_data_quiet symbol fiat env s) as Hq.
    rewrite H4 in Hq. simpl in Hq.
    destruct Hq as [C [l [Hh Hf]]]. split; [exact C|].
    eexists. split.
    + simpl. rewrite Hh, <- !app_assoc. reflexivity.
    + apply Forall_app. split.
      * eapply Forall_impl; [|exact Hf]. intros [] Hev; simpl in *; tauto.
      * repeat constructor; simpl; tauto.
Qed.

(** C2. In a tick over a store in which the entries [before] have been
    processed without an exception, an entry that then fails in one of
    the three ways (no channel, no price, no posted message) attempts
    no edit and leaves the cache file, and the tick goes on: it ends as
    the loop over the remaining entries ends from the state the failed
    entry left, so that nothing is raised out of the tick on account of
    that entry. *)
Theorem failed_item_is_skipped env s before key data rest s1 s2 :
  fst (Bot.load_cache env s) = Ok (JObj (before ++ (key, data) :: rest)) ->
  for_each before (fun entry => Bot.refresh (snd entry)) env s = (Ok tt, s1) ->
  skipped env s1 data s2 ->
  cache_file s2 = cache_file s1 /\
  (exists l, history s2 = (history s1 ++ l)%list /\
             Forall (fun ev => ~ is_edit ev) l) /\
  Bot.update_crypto_prices env s
  = for_each rest (fun entry => Bot.refresh (snd entry)) env s2 /\
  (rest = [] -> Bot.update_crypto_prices env s = (Ok tt, s2)).
Proof.
  intros Hload Hbefore Hskip.
  destruct (skipped_calm _ _ _ _ Hskip) as [C L].
  assert (Htick : Bot.update_crypto_prices env s
                  = for_each rest (fun entry => Bot.refresh (snd entry)) env s2).
  { unfold Bot.update_crypto_prices, bind.
    pose proof (load_cache_state env s) as Hs.
    destruct (Bot.load_cache env s) as [r s0]. cbn [fst snd] in *.
    subst r s0. cbn [Py.items lift].
    rewrite (for_each_app _ _ _ _ _ _ Hbefore).
    apply for_each_step. now apply skipped_returns. }
  repeat split; auto.
  intros ->. exact Htick.
Qed.

Lemma failed_item_is_skipped_witness :
  exists s' l embed,
    Bot.update_crypto_prices Scenario.patchy
      (Scenario.on_disk (Json.dumps Scenario.patchy_store)) = (Ok tt, s') /\
    history s' =
      (l ++ [ EditedEmbed 1 (JInt 555) embed;
              EditedAttachments 1 (JInt 555)
                [{| att_path := "images/BTC.png"; att_name := "BTC.png" |}] ])%list /\
    Forall (fun ev => ~ is_edit ev) l.
Proof.
  eassert (Hbefore :
    for_each [ ("9-BTC-USD-0", Scenario.item 551 "BTC" "USD" 9);
               ("1-DOGE-USD-1", Scenario.item 552 "DOGE" "USD" 1) ]
      (fun entry => Bot.refresh (snd entry)) Scenario.patchy
      (Scenario.on_disk (Json.dumps Scenario.patchy_store)) = (Ok tt, _))
    by (vm_compute; reflexivity).
  match type of Hbefore with
  | _ = (_, ?s1) =>
      eassert (Hskip : skipped Scenario.patchy s1
                         (Scenario.item 404 "ETH" "USD" 1) _)
  end.
  { eapply skipped_message.
    1-4: reflexivity.
    - vm_compute. reflexivity.
    - vm_compute. reflexivity.
    - reflexivity.
    - vm_compute. reflexivity.
    - reflexivity.
    - vm_compute. reflexivity.
    - reflexivity. }
  destruct (failed_item_is_skipped Scenario.patchy
              (Scenario.on_disk (Json.dumps Scenario.patchy_store))
              [ ("9-BTC-USD-0", Scenario.item 551 "BTC" "USD" 9);
                ("1-DOGE-USD-1", Scenario.item 552 "DOGE" "USD" 1) ]
              "1-ETH-USD-2" (Scenario.item 404 "ETH" "USD" 1)
              [("1-BTC-USD-3", Scenario.btc_item)] _ _
              ltac:(vm_compute; reflexivity) Hbefore Hskip)
    as (_ & _ & Htick & _).
  rewrite Htick. clear.
  (eexists; eexists; eexists; split; [vm_compute; reflexivity|]).
  cbn [history].
  split.
  - match goal with
    | |- ?h = _ =>
        let a := eval vm_compute in (firstn (List.length h - 2) h) in
        let b := eval vm_compute in (skipn (List.length h - 2) h) in
        change h with (a ++ b)%list
    end.
    reflexivity.
  - repeat constructor; intros [].
Defined.

(** C3. The response [{"data": null}] is a JSON document without the
    pair.  The fetcher does not return [None] for it: the membership
    test that is to find the pair missing raises a [TypeError], which
    is none of the exceptions the fetcher catches.  A tick over a store
    of two entries stops at the first with that exception, the second
    entry is never asked for; where the response is [{"data": {}}], the
    fetcher returns [None] and the same tick visits both entries. *)
Theorem fetch_raises_on_null_data :
  let failure := Exn TypeError "argument of type 'NoneType' is not iterable" in
  let body := Json.dumps (JObj [("data", JNull)]) in
  let store :=
    JObj [ ("1-BTC-USD-0", Scenario.btc_item);
           ("1-ETH-USD-1", Scenario.item 556 "ETH" "USD" 1) ] in
  let tick env := Bot.update_crypto_prices env (Scenario.on_disk (Json.dumps store)) in
  http_post Scenario.null_data [] "BTC-USD" = HttpResponse 200 body /\
  Json.loads body = Some (JObj [("data", JNull)]) /\
  fst (Bot.get_crypto_data (JStr "BTC") (JStr "USD")
         Scenario.null_data Scenario.fresh) = Raise failure /\
  fst (tick Scenario.null_data) = Raise failure /\
  history (snd (tick Scenario.null_data))
  = [Requested "BTC-USD"; Printed ("API Response: " ++ body)] /\
  fst (Bot.get_crypto_data (JStr "BTC") (JStr "USD")
         Scenario.no_pairs Scenario.fresh) = Ok JNull /\
  fst (tick Scenario.no_pairs) = Ok tt /\
  filter (fun ev => match ev with Requested _ => true | _ => false end)
    (history (snd (tick Scenario.no_pairs)))
  = [Requested "BTC-USD"; Requested "ETH-USD"].
Proof. repeat split; vm_compute; reflexivity. Qed.

Lemma get_crypto_data_absent_examples :
  fst (Bot.get_crypto_data (JStr "BTC") (JStr "USD") Scenario.down Scenario.fresh)
  = Ok JNull /\
  fst (Bot.get_crypto_data (JStr "BTC") (JStr "USD") Scenario.unavailable
         Scenario.fresh) = Ok JNull /\
  fst (Bot.get_crypto_data (JStr "BTC") (JStr "USD") Scenario.garbled
         Scenario.fresh) = Ok JNull /\
  fst (Bot.get_crypto_data (JStr "BTC") (JStr "USD") Scenario.no_pairs
         Scenario.fresh) = Ok JNull /\
  Json.loads (Scenario.ticker "BTC-USD")
  = Some (JObj [("ok", JStr "ok");
                ("data", JObj [("BTC-USD", Scenario.snapshot "50000.00" "-1.23")])]).
Proof.
  split; [|split; [|split; [|split]]].
  - eapply (proj1 (get_crypto_data_absent Scenario.down Scenario.fresh
                     (JStr "BTC") (JStr "USD"))); reflexivity.
  - eapply (proj1 (proj2 (get_crypto_data_absent Scenario.unavailable
                            Scenario.fresh (JStr "BTC") (JStr "USD"))));
      [reflexivity | lia].
  - eapply (proj1 (proj2 (proj2 (get_crypto_data_absent Scenario.garbled
                                   Scenario.fresh (JStr "BTC") (JStr "USD")))));
      reflexivity.
  - eapply (proj1 (proj2 (proj2 (proj2
               (get_crypto_data_absent Scenario.no_pairs Scenario.fresh
                  (JStr "BTC") (JStr "USD"))))));
      [reflexivity | vm_compute; reflexivity |].
    right. exists []. split; reflexivity.
  - destruct (proj2 (proj2 (proj2 (proj2
               (get_crypto_data_absent Scenario.world Scenario.fresh
                  (JStr "BTC") (JStr "USD")))))
               (Scenario.snapshot "50000.00" "-1.23")
               ltac:(vm_compute; reflexivity) ltac:(discriminate))
      as (status & body & doc & inner & Hout & Hdoc & _).
    cbv in Hout. inversion Hout. subst body. vm_compute. reflexivity.
Defined.

Lemma load_cache_missing_file_witness :
  Bot.load_cache Scenario.world Scenario.fresh = (Ok (JObj []), Scenario.fresh) /\
  exists f, cache_file (Scenario.on_disk "{oops") = Some f /\
    (readable f = false \/ Json.loads (content f) = None).
Proof.
  split.
  - apply (proj1 (load_cache_missing_file Scenario.world Scenario.fresh)).
    reflexivity.
  - eapply (proj2 (load_cache_missing_file Scenario.world
                     (Scenario.on_disk "{oops"))).
    vm_compute. reflexivity.
Defined.

(** ** The command handler *)

(** The same, with what is known of the functions of the script. *)
Ltac destruct_head t :=
  lazymatch t with
  | context [match ?x with _ => _ end] =>
      lazymatch x with
      | context [match _ with _ => _ end] => destruct_head x
      | Bot.get_crypto_data ?a ?b ?env ?s =>
          let Hq := fresh "Hquiet" in
          pose proof (get_crypto_data_quiet a b env s) as Hq;
          destruct x as [? ?] eqn:?; cbn [snd] in Hq
      | Bot.create_embed ?a ?b ?c ?d ?env ?s =>
          let Hq := fresh "Hstate" in
          pose proof (create_embed_state a b c d env s) as Hq;
          destruct x as [? ?] eqn:?; cbn [snd] in Hq; subst
      | Bot.load_cache ?env ?s =>
          let Hq := fresh "Hstate" in
          pose proof (load_cache_state env s) as Hq;
          destruct x as [? ?] eqn:?; cbn [snd] in Hq; subst
      | _ => destruct x eqn:?
      end
  end.

Ltac step :=
  run; cbn [cache_file history] in *;
  lazymatch goal with
  | |- ?G => destruct_head G
  end.


Ltac unchanged :=
  left; run; cbn [cache_file history] in *;
  repeat match goal with
         | H : calm _ _ _ |- _ => destruct H as [? _]
         end;
  congruence.

Ltac rewrite_known :=
  repeat match goal with
         | H : ?l = _ |- context [?l] => rewrite H
         end.

Ltac went_through :=
  right; run; cbn [cache_file history] in *;
  repeat match goal with
         | H : calm _ _ _ |- _ => destruct H as [? _]
         end;
  eapply recorded_intro;
  [ eassumption | eassumption
  | unfold command_args; cbv zeta; rewrite_known; reflexivity
  | eassumption | eassumption | eassumption | eassumption | eassumption
  | eassumption | eassumption | eassumption | eassumption | eassumption
  | cbn [cache_file];
    match goal with
    | H : cache_file _ = cache_file ?s |- context [cache_file ?s] =>
        rewrite <- H
    end; rewrite_known; reflexivity
  | cbn [history]; rewrite <- ?app_assoc; cbn [app]; reflexivity ].

(** Either [on_message] leaves the cache file as it is, or it went all
    the way. *)
Lemma on_message_cases env s message :
  let s' := snd (Bot.on_message message env s) in
  cache_file s' = cache_file s \/ recorded env s message s'.
Proof.
  unfold Bot.on_message, Bot.track, Bot.save_cache, IO.write_cache_file,
    IO.discord_File.
  cbv zeta.
  step; [unchanged|].
  step; [|unchanged].
  do 4 (step; [|repeat step; unchanged]).
  repeat (step; try unchanged); went_through.
Qed.

(** C10. A command whose arguments are malformed, whose price fetch is
    absent, whose channel cannot be resolved or whose initial post fails
    leaves the cache file as it was; and whenever the cache file changes,
    the handler went all the way: the initial message was posted, with
    success, before the store, completed by the whole new record, was
    saved. *)
Theorem failed_command_leaves_store env s message :
  let s' := snd (Bot.on_message message env s) in
  ((exists e, command_args (msg_content message) = Raise e) \/
   (exists symbol fiat channel_id amount,
      command_args (msg_content message) = Ok (symbol, fiat, channel_id, amount) /\
      ((forall data s1,
          Bot.get_crypto_data (JStr symbol) (JStr fiat) env s = (Ok data, s1) ->
          Py.is_None data = true) \/
       (forall h, channel_of env h (JInt channel_id) = None) \/
       (forall h chan, exists e, send_outcome env h chan = Raise e))) ->
   cache_file s' = cache_file s) /\
  (cache_file s' <> cache_file s -> recorded env s message s').
Proof.
  intros s'. destruct (on_message_cases env s message) as [Same|Done];
    fold s' in Same || fold s' in Done.
  - split; [intros _; exact Same | intros Hne; contradiction].
  - split; [|intros _; exact Done].
    intros Hfail. exfalso. destruct Done.
    destruct Hfail as [[e He] | (sy & fi & ci & am & Hargs & Hfail)];
      [congruence|].
    rewrite Hargs in H1. inversion H1; subst.
    destruct Hfail as [Hfetch | [Hchan | Hsend]].
    + specialize (Hfetch _ _ H2). congruence.
    + rewrite Hchan in H7. discriminate.
    + destruct (Hsend (history s1) chan) as [e He]. congruence.
Qed.

Lemma failed_command_leaves_store_witness :
  cache_file (snd (Bot.on_message (Scenario.command "!crypto ETH EUR forty-two")
                     Scenario.world (Scenario.on_disk (Json.dumps Scenario.btc_store))))
  = cache_file (Scenario.on_disk (Json.dumps Scenario.btc_store)) /\
  cache_file (snd (Bot.on_message (Scenario.command "!crypto ETH EUR 42 0.5")
                     Scenario.down (Scenario.on_disk (Json.dumps Scenario.btc_store))))
  = cache_file (Scenario.on_disk (Json.dumps Scenario.btc_store)) /\
  cache_file (snd (Bot.on_message (Scenario.command "!crypto ETH EUR 43 0.5")
                     (Scenario.without_channels Scenario.world) Scenario.fresh))
  = cache_file Scenario.fresh /\
  cache_file (snd (Bot.on_message (Scenario.command "!crypto ETH EUR 42")
                     (Scenario.with_send (Raise (Exn Forbidden "403 Forbidden"))
                        Scenario.world) Scenario.fresh))
  = cache_file Scenario.fresh /\
  recorded Scenario.world Scenario.fresh (Scenario.command "!crypto ETH EUR 42 0.5")
    (snd (Bot.on_message (Scenario.command "!crypto ETH EUR 42 0.5")
            Scenario.world Scenario.fresh)).
Proof.
  split; [|split; [|split; [|split]]].
  - apply (proj1 (failed_command_leaves_store _ _ _)).
    left. eexists. vm_compute. reflexivity.
  - apply (proj1 (failed_command_leaves_store _ _ _)).
    right. exists "ETH", "EUR", 42, Scenario.half.
    split; [vm_compute; reflexivity|]. left.
    intros data s1 H. vm_compute in H. inversion H. reflexivity.
  - apply (proj1 (failed_command_leaves_store _ _ _)).
    right. exists "ETH", "EUR", 43, Scenario.half.
    split; [vm_compute; reflexivity|]. right. left. reflexivity.
  - apply (proj1 (failed_command_leaves_store _ _ _)).
    right. exists "ETH", "EUR", 42, Float.one.
    split; [vm_compute; reflexivity|]. right. right.
    intros h chan. eexists. reflexivity.
  - apply (proj2 (failed_command_leaves_store _ _ _)).
    vm_compute. discriminate.
Defined.

Lemma lookup_dict_set kvs k v : Py.lookup (Json.dict_set kvs k v) k = Some v.
Proof.
  induction kvs as [|[k' v'] r IH]; simpl.
  - now rewrite String.eqb_refl.
  - destruct (String.eqb k' k) eqn:E; simpl; rewrite E; auto.
Qed.

Lemma lookup_dict_set_other kvs k v k' :
  k' <> k -> Py.lookup (Json.dict_set kvs k v) k' = Py.lookup kvs k'.
Proof.
  intros Hne. induction kvs as [|[k0 v0] r IH]; simpl.
  - destruct (String.eqb k k') eqn:E; [|reflexivity].
    apply String.eqb_eq in E. congruence.
  - destruct (String.eqb k0 k) eqn:E; simpl.
    + apply String.eqb_eq in E. subst k0.
      destruct (String.eqb k k') eqn:E'; [|reflexivity].
      apply String.eqb_eq in E'. congruence.
    + now rewrite IH.
Qed.

Lemma getitem_setitem cache k v cache' :
  Py.setitem cache k v = Ok cache' -> Py.getitem cache' k = Ok v.
Proof.
  destruct cache; simpl; try discriminate.
  intros H. inversion H. simpl. now rewrite lookup_dict_set.
Qed.

(** The track command, as the code has it.  It is introduced by
    [!crypto]; a message introduced by [track] is ignored. *)
Lemma track_keyword_is_ignored :
  Text.split "track ETH EUR 42 0.5" = ["track"; "ETH"; "EUR"; "42"; "0.5"] /\
  Bot.on_message (Scenario.command "track ETH EUR 42 0.5")
    Scenario.world Scenario.fresh = (Ok tt, Scenario.fresh).
Proof. split; reflexivity. Qed.

Lemma command_args_inv content symbol fiat channel_id amount :
  command_args content = Ok (symbol, fiat, channel_id, amount) ->
  let parts := Text.split content in
  exists p1 p2 p3,
    Py.index parts 1 = Ok p1 /\ Py.index parts 2 = Ok p2 /\
    Py.index parts 3 = Ok p3 /\ Py.int_of_string p3 = Ok channel_id /\
    symbol = Text.upper p1 /\ fiat = Text.upper p2 /\
    (if 4 <? Z.of_nat (List.length parts)
     then exists p4, Py.index parts 4 = Ok p4 /\
                     Py.to_float (JStr p4) = Ok amount
     else amount = Float.one).
Proof.
  unfold command_args. cbv zeta. intros H.
  destruct (Py.index (Text.split content) 1) as [p1|] eqn:E1; [|discriminate].
  destruct (Py.index (Text.split content) 2) as [p2|] eqn:E2; [|discriminate].
  destruct (Py.index (Text.split content) 3) as [p3|] eqn:E3; [|discriminate].
  destruct (Py.int_of_string p3) as [c|] eqn:Ec; [|discriminate].
  exists p1, p2, p3.
  destruct (4 <? Z.of_nat (List.length (Text.split content))).
  - destruct (Py.index (Text.split content) 4) as [p4|] eqn:E4; [|discriminate].
    destruct (Py.to_float (JStr p4)) as [x|] eqn:E; [|discriminate].
    inversion H; subst. do 3 (split; [reflexivity|]).
    split; [exact Ec|]. do 2 (split; [reflexivity|]).
    exists p4. split; [reflexivity|exact E].
  - inversion H; subst. do 3 (split; [reflexivity|]).
    split; [exact Ec|]. do 2 (split; [reflexivity|]). reflexivity.
Qed.

(** C6, as the code has it. A message that starts with [!crypto] and
    carries a symbol, a fiat, a channel and optionally an amount, handled
    when the price is fetched, the embed is rendered, the store loads,
    the channel resolves, the image of the symbol opens, the post
    succeeds and the cache file can be written, posts the initial message
    and saves the store with a new record under the key
    [<channel>-<SYMBOL>-<FIAT>-<size of the store>], holding the id of
    the posted message, the symbol, the fiat, the amount and the
    channel. *)
Theorem crypto_command_tracks env s message symbol fiat channel_id amount
    data s1 embed image_path cache size chan message_id cache' :
  msg_from_self message = false ->
  Text.startswith "!crypto" (msg_content message) = true ->
  command_args (msg_content message) = Ok (symbol, fiat, channel_id, amount) ->
  Bot.get_crypto_data (JStr symbol) (JStr fiat) env s = (Ok data, s1) ->
  Py.is_None data = false ->
  Bot.create_embed (JStr symbol) (JStr fiat) data (JFloat amount) env s1
  = (Ok (embed, image_path), s1) ->
  Bot.load_cache env s1 = (Ok cache, s1) ->
  Py.len cache = Ok size ->
  channel_of env (history s1) (JInt channel_id) = Some chan ->
  path env image_path = Readable ->
  send_outcome env (history s1) chan = Ok message_id ->
  Py.setitem cache (tracked_key channel_id symbol fiat size)
    (tracked_item message_id symbol fiat amount channel_id) = Ok cache' ->
  cache_writable env = true ->
  let s' := snd (Bot.on_message message env s) in
  (exists tail,
     history s' =
       (history s1
        ++ SentEmbed chan embed
             [{| att_path := image_path; att_name := symbol ++ ".png" |}]
        :: Saved (Json.dumps cache') :: tail)%list) /\
  (exists f, cache_file s' = Some f /\ content f = Json.dumps cache') /\
  Py.getitem cache' (tracked_key channel_id symbol fiat size)
  = Ok (tracked_item message_id symbol fiat amount channel_id).
Proof.
  intros Hself Hstart Hargs Hfetch Hsome Hembed Hload Hlen Hchan Hpath Hsend
    Hset Hw s'.
  split; [|split; [|eapply getitem_setitem; eassumption]].
  all: subst s';
    destruct (command_args_inv _ _ _ _ _ Hargs)
      as (p1 & p2 & p3 & H1 & H2 & H3 & Hcid & -> & -> & Hamount);
    unfold tracked_key, tracked_item in Hset;
    unfold Bot.on_message, Bot.track, Bot.save_cache, IO.write_cache_file,
      IO.discord_File; cbv zeta;
    rewrite Hself, Hstart, H1; run; rewrite H2; run; rewrite H3; run;
    rewrite Hcid; run;
    (destruct (4 <? Z.of_nat (List.length (Text.split (msg_content message))));
     [destruct Hamount as (p4 & H4 & Hfloat); rewrite H4; run; rewrite Hfloat
     |subst amount]);
    run; rewrite Hfetch; run; rewrite Hsome; run; rewrite Hembed; run;
    rewrite Hload; run; rewrite Hlen; run; rewrite Hchan; run;
    rewrite Hpath; run; rewrite Hsend; run; rewrite Hset; run;
    rewrite Hw; run; cbn [history cache_file].
  all: repeat match goal with
              | |- context [match ?x with _ => _ end] =>
                  lazymatch x with
                  | send_outcome _ _ _ => destruct x
                  | is_Exception _ => destruct x
                  end; run; cbn [history cache_file]
              end.
  all: try (eexists; rewrite <- ?app_assoc; cbn [app]; reflexivity).
  all: eexists; split; reflexivity.
Qed.

Lemma crypto_command_tracks_witness :
  let s' := snd (Bot.on_message (Scenario.command "!crypto ETH EUR 42 0.5")
                   Scenario.world Scenario.fresh) in
  (exists embed tail,
     history s' =
       ([Requested "ETH-EUR";
         Printed ("API Response: " ++ Scenario.ticker "ETH-EUR")]
        ++ SentEmbed 42 embed
             [{| att_path := "images/ETH.png"; att_name := "ETH.png" |}]
        :: tail)%list) /\
  (exists f, cache_file s' = Some f /\
     Json.loads (content f)
     = Some (JObj [("42-ETH-EUR-0",
                    JObj [("message_id", JInt 1002); ("symbol", JStr "ETH");
                          ("fiat", JStr "EUR"); ("amount", JFloat Scenario.half);
                          ("channel_id", JInt 42)])])).
Proof.
  intros s'.
  pose proof (crypto_command_tracks Scenario.world Scenario.fresh
                (Scenario.command "!crypto ETH EUR 42 0.5")
                "ETH" "EUR" 42 Scenario.half _ _ _ _ _ _ _ _ _
                eq_refl eq_refl
                ltac:(vm_compute; reflexivity)
                ltac:(vm_compute; reflexivity)
                eq_refl
                ltac:(vm_compute; reflexivity)
                ltac:(vm_compute; reflexivity)
                eq_refl
                ltac:(vm_compute; reflexivity)
                ltac:(vm_compute; reflexivity)
                ltac:(vm_compute; reflexivity)
                ltac:(vm_compute; reflexivity)
                eq_refl) as (Hhist & Hfile & _).
  fold s' in Hhist, Hfile. split.
  - destruct Hhist as [tail Hhist]. eexists _, _. rewrite Hhist. reflexivity.
  - destruct Hfile as (f & Hf & Hcontent). exists f. split; [exact Hf|].
    rewrite Hcontent. vm_compute. reflexivity.
Defined.

(** C7, at the input where the code departs from it.  With no image for
    the symbol on disk, the command is answered by an error: nothing is
    posted in the target channel and nothing is recorded; while the
    refresh of a recorded message, which checks for the image first,
    edits the message all the same. *)
Theorem tracking_fails_without_image :
  path (Scenario.without_images Scenario.world) "images/ETH.png" = Missing /\
  Bot.on_message (Scenario.command "!crypto ETH EUR 42 0.5")
    (Scenario.without_images Scenario.world) Scenario.fresh
  = (Ok tt,
     {| cache_file := None;
        history :=
          [ Requested "ETH-EUR";
            Printed ("API Response: " ++ Scenario.ticker "ETH-EUR");
            SentText 7
              "An error occurred: [Errno 2] No such file or directory: 'images/ETH.png'";
            Printed "Error: [Errno 2] No such file or directory: 'images/ETH.png'" ] |}) /\
  (let after := Bot.update_crypto_prices
                  (Scenario.without_images Scenario.world)
                  (Scenario.on_disk (Json.dumps Scenario.btc_store)) in
   fst after = Ok tt /\
   exists embed,
     thumbnail embed = None /\
     In (EditedEmbed 1 (JInt 555) embed) (history (snd after))).
Proof.
  split; [reflexivity|]. split; [vm_compute; reflexivity|].
  split; [vm_compute; reflexivity|].
  eexists. split; [|vm_compute; right; right; right; left; reflexivity].
  reflexivity.
Qed.

(** ** Writing and reading JSON *)

Section JsonFacts.
Import Text Numeral Json.

#[local] Arguments break : simpl never.

(** Induction on values, with the hypothesis for every item of an array
    and every member of an object. *)
Lemma json_induction (P : json -> Prop) :
  P JNull -> (forall b, P (JBool b)) -> (forall z, P (JInt z)) ->
  (forall x, P (JFloat x)) -> (forall s, P (JStr s)) ->
  (forall l, Forall P l -> P (JArr l)) ->
  (forall kvs, Forall (fun kv => P (snd kv)) kvs -> P (JObj kvs)) ->
  forall v, P v.
Proof.
  intros Hnull Hbool Hint Hfloat Hstr Harr Hobj.
  fix IH 1. intros [ | b | z | x | s | l | kvs ].
  - exact Hnull.
  - apply Hbool.
  - apply Hint.
  - apply Hfloat.
  - apply Hstr.
  - apply Harr. induction l as [|y t IHl]; constructor; [apply IH | exact IHl].
  - apply Hobj. induction kvs as [|[k y] t IHl]; constructor;
      [apply IH | exact IHl].
Qed.

(** *** String literals *)

Lemma scan_escape_char c rest :
  scan_string (escape_char c ++ rest) = cons_char c (scan_string rest).
Proof. destruct c as [[] [] [] [] [] [] [] []]; reflexivity. Qed.

Lemma scan_escape s rest :
  scan_string (escape s ++ String dquote rest) = Some (s, rest).
Proof.
  induction s as [|c r IH]; simpl.
  - reflexivity.
  - rewrite append_assoc, scan_escape_char, IH. reflexivity.
Qed.

Lemma quote_append s rest :
  quote s ++ rest = String dquote (escape s ++ String dquote rest).
Proof. unfold quote. simpl. now rewrite append_assoc. Qed.

(** *** Blanks *)

Lemma skip_ws_spaces n s : skip_ws (repeat_char " " n ++ s) = skip_ws s.
Proof. induction n as [|k IH]; simpl; auto. Qed.

Lemma skip_ws_break lvl s : skip_ws (break lvl ++ s) = skip_ws s.
Proof. unfold break. simpl. apply skip_ws_spaces. Qed.

Lemma skip_ws_stop c r : is_ws c = false -> skip_ws (String c r) = String c r.
Proof. intros H. simpl. now rewrite H. Qed.

(** *** Numerals *)

Lemma boundary_not_digit rest :
  boundary rest = true ->
  match rest with String c _ => is_digit c = false | EmptyString => True end.
Proof.
  destruct rest as [|c r]; simpl; [trivial|]. intros H.
  apply orb_prop in H as [H|H]; apply Ascii.eqb_eq in H; subst c; reflexivity.
Qed.

Lemma span_digits_boundary a rest :
  boundary rest = true ->
  Float.span_digits (a ++ rest)
  = (fst (Float.span_digits a), snd (Float.span_digits a) ++ rest).
Proof.
  intros Hb. induction a as [|c r IH]; simpl.
  - pose proof (boundary_not_digit rest Hb) as Hn.
    destruct rest as [|c r]; [reflexivity|]. simpl. now rewrite Hn.
  - destruct (is_digit c); [|reflexivity].
    rewrite IH. destruct (Float.span_digits r). reflexivity.
Qed.

Lemma scan_int_part_boundary s rest ip t :
  scan_int_part s = Some (ip, t) ->
  boundary rest = true ->
  scan_int_part (s ++ rest) = Some (ip, t ++ rest).
Proof.
  intros H Hb. destruct s as [|c r]; [discriminate|]. simpl in *.
  destruct (Ascii.eqb c "0"); [now inversion H|].
  destruct (is_digit c); [|discriminate].
  rewrite (span_digits_boundary r rest Hb).
  destruct (Float.span_digits r). inversion H. reflexivity.
Qed.

Lemma scan_frac_boundary s rest :
  boundary rest = true ->
  scan_frac (s ++ rest) = (fst (scan_frac s), snd (scan_frac s) ++ rest).
Proof.
  intros Hb. destruct s as [|c r]; simpl.
  - destruct rest as [|c r]; [reflexivity|]. simpl in *.
    apply orb_prop in Hb as [H|H]; apply Ascii.eqb_eq in H; subst c;
      reflexivity.
  - destruct (Ascii.eqb c "."); [|reflexivity].
    rewrite (span_digits_boundary r rest Hb).
    destruct (Float.span_digits r) as [[|d ds] t]; reflexivity.
Qed.

Lemma scan_exp_boundary s rest :
  boundary rest = true ->
  scan_exp (s ++ rest) = (fst (scan_exp s), snd (scan_exp s) ++ rest).
Proof.
  intros Hb. destruct s as [|c r]; simpl.
  - destruct rest as [|c r]; [reflexivity|]. simpl in *.
    apply orb_prop in Hb as [H|H]; apply Ascii.eqb_eq in H; subst c;
      reflexivity.
  - destruct (Ascii.eqb c "e" || Ascii.eqb c "E"); [|reflexivity].
    destruct r as [|g t]; simpl.
    + pose proof (boundary_not_digit rest Hb) as Hn.
      destruct rest as [|c' r']; [reflexivity|]. simpl in *.
      apply orb_prop in Hb as [H|H]; apply Ascii.eqb_eq in H; subst c';
        reflexivity.
    + destruct (Ascii.eqb g "-" || Ascii.eqb g "+").
      * rewrite (span_digits_boundary t rest Hb).
        destruct (Float.span_digits t) as [[|d ds] u]; reflexivity.
      * change (String g (t ++ rest)) with (String g t ++ rest).
        rewrite (span_digits_boundary (String g t) rest Hb).
        destruct (Float.span_digits (String g t)) as [[|d ds] u]; reflexivity.
Qed.

(** A numeral is matched the same way when a boundary follows it. *)
Lemma scan_number_boundary s rest tok real t :
  scan_number s = Some (tok, real, t) ->
  boundary rest = true ->
  scan_number (s ++ rest) = Some (tok, real, t ++ rest).
Proof.
  intros H Hb. unfold scan_number in *.
  assert (Hsign :
    (let '(sg, r0) :=
       match s ++ rest with
       | String c r => if Ascii.eqb c "-" then ("-", r) else ("", s ++ rest)
       | EmptyString => ("", s ++ rest)
       end in (sg, r0))
    = (let '(sg, r0) :=
         match s with
         | String c r => if Ascii.eqb c "-" then ("-", r) else ("", s)
         | EmptyString => ("", s)
         end in (sg, r0 ++ rest))).
  { destruct s as [|c r]; simpl.
    - destruct rest as [|c r]; [reflexivity|]. simpl in Hb.
      apply orb_prop in Hb as [E|E]; apply Ascii.eqb_eq in E; subst c;
        reflexivity.
    - destruct (Ascii.eqb c "-"); reflexivity. }
  destruct (match s with
            | String c r => if Ascii.eqb c "-" then ("-", r) else ("", s)
            | EmptyString => ("", s)
            end) as [sg r0] eqn:Es.
  destruct (match s ++ rest with
            | String c r => if Ascii.eqb c "-" then ("-", r) else ("", s ++ rest)
            | EmptyString => ("", s ++ rest)
            end) as [sg' r0'] eqn:Es'.
  inversion Hsign; subst sg' r0'.
  destruct (scan_int_part r0) as [[ip r1]|] eqn:Ei; [|discriminate].
  rewrite (scan_int_part_boundary r0 rest ip r1 Ei Hb).
  rewrite (scan_frac_boundary r1 rest Hb).
  destruct (scan_frac r1) as [fp r2]. cbn [fst snd].
  rewrite (scan_exp_boundary r2 rest Hb).
  destruct (scan_exp r2) as [ep r3]. cbn [fst snd].
  inversion H. reflexivity.
Qed.

Lemma span_digits_all ds :
  forallb_string is_digit ds = true -> Float.span_digits ds = (ds, "").
Proof.
  intros H. rewrite <- (append_nil_r ds) at 1.
  now apply span_digits_append.
Qed.

Lemma scan_int_part_digits n : 0 <= n ->
  scan_int_part (digits n) = Some (digits n, "").
Proof.
  intros Hn. destruct (digits_spec n Hn) as (Hall & _ & c & r & E & Hnz).
  rewrite E in *. simpl in Hall. apply andb_prop in Hall as [Hc Hr].
  simpl. destruct (Ascii.eqb c "0") eqn:E0.
  - apply Ascii.eqb_eq in E0. subst c.
    destruct (Z.eq_dec n 0) as [->|Hpos].
    + change (digits 0) with "0" in E. inversion E. reflexivity.
    + exfalso. apply Hnz; [lia|reflexivity].
  - rewrite Hc, (span_digits_all r Hr). reflexivity.
Qed.

Lemma digits_head_not_minus n : 0 <= n ->
  match digits n with
  | String c _ => Ascii.eqb c "-" = false
  | EmptyString => False
  end.
Proof.
  intros Hn. destruct (digits_spec n Hn) as (Hall & _ & c & r & E & _).
  rewrite E in *. simpl in Hall. apply andb_prop in Hall as [Hc _].
  destruct (Ascii.eqb c "-") eqn:Hm; [|reflexivity].
  apply Ascii.eqb_eq in Hm. subst c. discriminate.
Qed.

Lemma scan_number_of_Z z : scan_number (of_Z z) = Some (of_Z z, false, "").
Proof.
  unfold of_Z. destruct (z <? 0) eqn:Hz.
  - apply Z.ltb_lt in Hz. unfold scan_number.
    change (Ascii.eqb (chr 45) "-") with true. cbv iota.
    rewrite scan_int_part_digits by lia. simpl.
    now rewrite append_nil_r.
  - apply Z.ltb_ge in Hz. unfold scan_number.
    pose proof (digits_head_not_minus z Hz) as Hh.
    pose proof (scan_int_part_digits z Hz) as Hi.
    destruct (digits z) as [|c r] eqn:E; [contradiction|].
    rewrite Hh, Hi. simpl. now rewrite append_nil_r.
Qed.

(** A numeral starts with a minus sign or a digit. *)
Lemma scan_number_head s tok real r :
  scan_number s = Some (tok, real, r) ->
  exists c s', s = String c s' /\ (c = "-"%char \/ is_digit c = true).
Proof.
  unfold scan_number. destruct s as [|c s']; [discriminate|].
  intros H. exists c, s'. split; [reflexivity|].
  destruct (Ascii.eqb c "-") eqn:Hm.
  - left. now apply Ascii.eqb_eq.
  - right. simpl in H. destruct (Ascii.eqb c "0") eqn:H0.
    + apply Ascii.eqb_eq in H0. now subst c.
    + destruct (is_digit c); [reflexivity|discriminate].
Qed.

Lemma numeral_head_plain c :
  c = "-"%char \/ is_digit c = true ->
  is_ws c = false /\ Ascii.eqb c dquote = false /\
  Ascii.eqb c "{" = false /\ Ascii.eqb c "[" = false /\
  Ascii.eqb c "]" = false /\ Ascii.eqb c "}" = false /\
  Ascii.eqb c "n" = false /\ Ascii.eqb c "t" = false /\
  Ascii.eqb c "f" = false.
Proof.
  intros [->|H]; [repeat split|].
  destruct c as [[] [] [] [] [] [] [] []]; try discriminate H; repeat split.
Qed.

(** Where a numeral is matched, [scan] returns its value. *)
Lemma scan_numeral fuel s tok real r v :
  scan_number s = Some (tok, real, r) ->
  number_of_token tok real = Some v ->
  scan (S fuel) s = Some (v, r).
Proof.
  intros Hn Hv. destruct (scan_number_head _ _ _ _ Hn) as (c & s' & -> & Hc).
  destruct (numeral_head_plain c Hc) as (_ & H1 & H2 & H3 & _ & _ & H4 & H5 & H6).
  cbn [scan]. rewrite H1, H2, H3, H4, H5, H6, Hn, Hv. reflexivity.
Qed.

Lemma float_eqb_eq x y : Float.eqb x y = true -> x = y.
Proof.
  destruct x as [a|a| |a m e], y as [b|b| |b n f]; simpl; try discriminate;
    intros H.
  - apply Bool.eqb_prop in H. now subst.
  - apply Bool.eqb_prop in H. now subst.
  - reflexivity.
  - apply andb_prop in H as [H He]. apply andb_prop in H as [Hs Hm].
    apply Bool.eqb_prop in Hs. apply Pos.eqb_eq in Hm. apply Z.eqb_eq in He.
    now subst.
Qed.

(** *** Every value *)

Lemma scan_int fuel z rest :
  boundary rest = true ->
  scan (S fuel) (of_Z z ++ rest) = Some (JInt z, rest).
Proof.
  intros Hb. eapply scan_numeral.
  - apply (scan_number_boundary _ rest _ _ _ (scan_number_of_Z z) Hb).
  - unfold number_of_token. now rewrite value_of_Z.
Qed.

Lemma reads_back_finite y :
  Float.is_finite y = true -> reads_back y = true ->
  scan_number (Float.repr y) = Some (Float.repr y, true, "") /\
  Float.of_string (Float.repr y) = Some y.
Proof.
  intros Hf Hy.
  assert (Hmatch :
    match scan_number (Float.repr y) with
    | Some (t, true, EmptyString) =>
        String.eqb t (Float.repr y)
        && match Float.of_string t with
           | Some z => Float.eqb y z
           | None => false
           end
    | _ => false
    end = true).
  { destruct y; try discriminate Hf; exact Hy. }
  destruct (scan_number (Float.repr y)) as [[[t [|]] [|]]|]; try discriminate.
  apply andb_prop in Hmatch as [Ht Hv]. apply String.eqb_eq in Ht. subst t.
  destruct (Float.of_string (Float.repr y)) as [w|]; [|discriminate].
  apply float_eqb_eq in Hv. subst w. split; reflexivity.
Qed.

Lemma scan_float fuel x rest :
  reads_back x = true -> boundary rest = true ->
  scan (S fuel) (float_text x ++ rest) = Some (JFloat x, rest).
Proof.
  intros Hx Hb.
  assert (Hfinite : Float.is_finite x = true ->
            scan (S fuel) (Float.repr x ++ rest) = Some (JFloat x, rest)).
  { intros Hf. destruct (reads_back_finite x Hf Hx) as [Hs Hv].
    eapply scan_numeral.
    - apply (scan_number_boundary _ rest _ _ _ Hs Hb).
    - unfold number_of_token. now rewrite Hv. }
  destruct x as [s|[|]| |s m e].
  - apply Hfinite. reflexivity.
  - reflexivity.
  - reflexivity.
  - reflexivity.
  - apply Hfinite. reflexivity.
Qed.

(** The first character of the text of a value is no blank and closes
    no array or object. *)
Lemma dumps_head lvl v rest :
  faithful v ->
  exists c r, dumps_at lvl v ++ rest = String c r /\
    is_ws c = false /\ Ascii.eqb c "]" = false /\ Ascii.eqb c "}" = false.
Proof.
  intros Hf.
  assert (Hnum : forall s tok real t,
            scan_number s = Some (tok, real, t) ->
            exists c r, s ++ rest = String c r /\
              is_ws c = false /\ Ascii.eqb c "]" = false /\
              Ascii.eqb c "}" = false).
  { intros s tok real t Hs.
    destruct (scan_number_head _ _ _ _ Hs) as (c & s' & -> & Hc).
    destruct (numeral_head_plain c Hc) as (H1 & _ & _ & _ & H2 & H3 & _).
    exists c, (s' ++ rest). auto. }
  destruct v as [ | [|] | z | x | s | [|y l] | [|[k y] kvs] ];
    try (simpl; eexists _, _; repeat split; fail).
  - apply (Hnum _ _ _ _ (scan_number_of_Z z)).
  - destruct x as [s|[|]| |s m e];
      try (simpl; eexists _, _; repeat split; fail).
    + destruct (reads_back_finite (S754_zero s) eq_refl Hf) as [Hs _].
      apply (Hnum _ _ _ _ Hs).
    + destruct (reads_back_finite (S754_finite s m e) eq_refl Hf) as [Hs _].
      apply (Hnum _ _ _ _ Hs).
Qed.

Lemma skip_ws_to_value lvl' lvl v rest :
  faithful v ->
  skip_ws (break lvl' ++ dumps_at lvl v ++ rest) = dumps_at lvl v ++ rest.
Proof.
  intros Hf. rewrite skip_ws_break.
  destruct (dumps_head lvl v rest Hf) as (c & r & -> & Hws & _).
  now apply skip_ws_stop.
Qed.

Lemma length_string c s : String.length (String c s) = S (String.length s).
Proof. reflexivity. Qed.

Ltac lengths :=
  repeat (rewrite length_append in * || rewrite length_string in *);
  lia.

Lemma items_text_cons f sep y t tail :
  items_text f sep (y :: t) ++ tail
  = String "," (sep ++ f y ++ items_text f sep t ++ tail).
Proof.
  change (items_text f sep (y :: t))
    with (String "," (sep ++ f y ++ items_text f sep t)).
  cbn [String.append]. now rewrite !append_assoc.
Qed.

Lemma members_text_cons f sep k y t tail :
  members_text f sep ((k, y) :: t) ++ tail
  = String "," (sep ++ quote k ++ String ":" (String " "
      (f y ++ members_text f sep t ++ tail))).
Proof.
  change (members_text f sep ((k, y) :: t))
    with (String "," (sep ++ quote k ++ String ":" (String " "
            (f y ++ members_text f sep t)))).
  cbn [String.append]. rewrite !append_assoc. cbn [String.append].
  now rewrite !append_assoc.
Qed.

(** The items of an array, from the first on. *)
Lemma elements_dumps lvl rest r : forall x g,
  Forall (fun v => faithful v -> reads v) (x :: r) ->
  each_item faithful (x :: r) ->
  let tail := items_text (dumps_at (S lvl)) (break (S lvl)) r
              ++ break lvl ++ String "]" rest in
  (2 * String.length (dumps_at (S lvl) x ++ tail) + 1 < g)%nat ->
  elements g (dumps_at (S lvl) x ++ tail) = Some (x :: r, rest).
Proof.
  induction r as [|y t IHr]; intros x g HP [Hx Hr] tail Hfuel;
    inversion HP as [|? ? Px Pr]; subst.
  - destruct g as [|g]; [lia|]. cbn [elements].
    rewrite (Px Hx (S lvl) tail g); [|reflexivity|lia].
    subst tail. cbn [items_text String.append].
    rewrite skip_ws_break. reflexivity.
  - destruct g as [|g]; [lia|]. cbn [elements].
    assert (Htail : tail = String "," (break (S lvl) ++ dumps_at (S lvl) y
                      ++ items_text (dumps_at (S lvl)) (break (S lvl)) t
                      ++ break lvl ++ String "]" rest)).
    { subst tail. apply items_text_cons. }
    rewrite (Px Hx (S lvl) tail g); [|now rewrite Htail|lia].
    rewrite Htail. rewrite skip_ws_stop by reflexivity.
    change (Ascii.eqb "," "]") with false.
    change (Ascii.eqb "," ",") with true. cbv iota.
    destruct Hr as [Hy Ht].
    rewrite (skip_ws_to_value (S lvl) (S lvl) y _ Hy).
    rewrite (IHr y g Pr (conj Hy Ht)); [reflexivity|].
    rewrite Htail in Hfuel. lengths.
Qed.

(** The members of an object, from the first key on. *)
Lemma members_dumps lvl rest r : forall k x g,
  Forall (fun kv => faithful (snd kv) -> reads (snd kv)) ((k, x) :: r) ->
  each_member faithful ((k, x) :: r) ->
  let tail := members_text (dumps_at (S lvl)) (break (S lvl)) r
              ++ break lvl ++ String "}" rest in
  let text := quote k ++ String ":" (String " " (dumps_at (S lvl) x ++ tail)) in
  (2 * String.length text + 1 < g)%nat ->
  members g text = Some ((k, x) :: r, rest).
Proof.
  induction r as [|[k' y] t IHr]; intros k x g HP [Hx Hr] tail text Hfuel;
    inversion HP as [|? ? Px Pr]; subst; cbn [snd] in Px.
  - destruct g as [|g]; [lia|]. subst text. rewrite quote_append in *.
    cbn [members]. change (Ascii.eqb dquote dquote) with true. cbv iota.
    rewrite scan_escape. rewrite skip_ws_stop by reflexivity.
    change (Ascii.eqb ":" ":") with true. cbv iota.
    destruct (dumps_head (S lvl) x tail Hx) as (c & r & Hhead & Hws & _).
    assert (Hsp : skip_ws (String " " (dumps_at (S lvl) x ++ tail))
                  = dumps_at (S lvl) x ++ tail).
    { cbn [skip_ws]. change (is_ws " ") with true. cbv iota.
      rewrite Hhead. now apply skip_ws_stop. }
    rewrite Hsp.
    rewrite (Px Hx (S lvl) tail g); [|reflexivity|lengths].
    subst tail. cbn [members_text String.append].
    rewrite skip_ws_break. reflexivity.
  - destruct g as [|g]; [lia|]. subst text. rewrite quote_append in *.
    cbn [members]. change (Ascii.eqb dquote dquote) with true. cbv iota.
    rewrite scan_escape. rewrite skip_ws_stop by reflexivity.
    change (Ascii.eqb ":" ":") with true. cbv iota.
    destruct (dumps_head (S lvl) x tail Hx) as (c & r & Hhead & Hws & _).
    assert (Hsp : skip_ws (String " " (dumps_at (S lvl) x ++ tail))
                  = dumps_at (S lvl) x ++ tail).
    { cbn [skip_ws]. change (is_ws " ") with true. cbv iota.
      rewrite Hhead. now apply skip_ws_stop. }
    rewrite Hsp.
    assert (Htail : tail = String "," (break (S lvl) ++ quote k'
                      ++ String ":" (String " " (dumps_at (S lvl) y
                      ++ members_text (dumps_at (S lvl)) (break (S lvl)) t
                      ++ break lvl ++ String "}" rest)))).
    { subst tail. apply members_text_cons. }
    rewrite (Px Hx (S lvl) tail g); [|now rewrite Htail|lengths].
    rewrite Htail. rewrite skip_ws_stop by reflexivity.
    change (Ascii.eqb "," "}") with false.
    change (Ascii.eqb "," ",") with true. cbv iota.
    rewrite skip_ws_break.
    destruct Hr as [Hy Ht].
    rewrite quote_append at 1. rewrite skip_ws_stop by reflexivity.
    rewrite <- quote_append.
    rewrite (IHr k' y g Pr (conj Hy Ht)); [reflexivity|].
    rewrite Htail in Hfuel. lengths.
Qed.

Lemma dict_set_fresh kvs k v :
  ~ In k (map fst kvs) -> dict_set kvs k v = (kvs ++ [(k, v)])%list.
Proof.
  induction kvs as [|[k' v'] r IH]; simpl; intros Hn; [reflexivity|].
  destruct (String.eqb k' k) eqn:E.
  - apply String.eqb_eq in E. tauto.
  - rewrite IH by tauto. reflexivity.
Qed.

Lemma dict_of_pairs_distinct l :
  NoDup (map fst l) -> dict_of_pairs l = l.
Proof.
  unfold dict_of_pairs.
  assert (H : forall acc, NoDup (map fst (acc ++ l)) ->
            fold_left (fun d kv => dict_set d (fst kv) (snd kv)) l acc
            = (acc ++ l)%list).
  { induction l as [|[k v] r IH]; intros acc Hnd; simpl.
    - now rewrite app_nil_r.
    - rewrite dict_set_fresh.
      + rewrite IH; rewrite <- app_assoc; [reflexivity|exact Hnd].
      + rewrite map_app in Hnd. simpl in Hnd.
        apply NoDup_remove_2 in Hnd. intros Hin. apply Hnd.
        apply in_or_app. now left. }
  intros Hnd. apply (H [] Hnd).
Qed.

(** Every faithful value is read back from its text. *)
Lemma scan_dumps v : faithful v -> reads v.
Proof.
  induction v as [ | b | z | x | s | l IHl | kvs IHkvs ] using json_induction;
    intros Hf lvl rest fuel Hb Hfuel;
    (destruct fuel as [|fuel]; [lia|]).
  - reflexivity.
  - destruct b; reflexivity.
  - now apply scan_int.
  - now apply scan_float.
  - cbn [dumps_at]. rewrite quote_append. cbn [scan].
    change (Ascii.eqb dquote dquote) with true. cbv iota.
    now rewrite scan_escape.
  - destruct l as [|x r]; [reflexivity|].
    assert (Htext : dumps_at lvl (JArr (x :: r)) ++ rest
              = String "[" (break (S lvl) ++ dumps_at (S lvl) x
                  ++ items_text (dumps_at (S lvl)) (break (S lvl)) r
                  ++ break lvl ++ String "]" rest)).
    { cbn [dumps_at String.append]. rewrite !append_assoc.
      cbn [String.append]. reflexivity. }
    rewrite Htext in *. cbn [scan].
    change (Ascii.eqb "[" dquote) with false.
    change (Ascii.eqb "[" "{") with false.
    change (Ascii.eqb "[" "[") with true. cbv iota.
    destruct Hf as [Hx Hr].
    rewrite (skip_ws_to_value (S lvl) (S lvl) x _ Hx).
    destruct (dumps_head (S lvl) x
                (items_text (dumps_at (S lvl)) (break (S lvl)) r
                 ++ break lvl ++ String "]" rest) Hx)
      as (c & t & Hhead & _ & Hclose & _).
    rewrite Hhead. rewrite Hclose. rewrite <- Hhead.
    rewrite (elements_dumps lvl rest r x fuel IHl (conj Hx Hr)); [reflexivity|].
    lengths.
  - destruct kvs as [|[k x] r]; [reflexivity|].
    assert (Htext : dumps_at lvl (JObj ((k, x) :: r)) ++ rest
              = String "{" (break (S lvl) ++ quote k
                  ++ String ":" (String " " (dumps_at (S lvl) x
                  ++ members_text (dumps_at (S lvl)) (break (S lvl)) r
                  ++ break lvl ++ String "}" rest)))).
    { cbn [dumps_at String.append]. rewrite !append_assoc.
      cbn [String.append]. rewrite !append_assoc. reflexivity. }
    rewrite Htext in *. cbn [scan].
    change (Ascii.eqb "{" dquote) with false.
    change (Ascii.eqb "{" "{") with true. cbv iota.
    destruct Hf as [Hnd Hr].
    rewrite skip_ws_break.
    rewrite quote_append at 1. rewrite skip_ws_stop by reflexivity.
    change (Ascii.eqb dquote "}") with false. cbv iota.
    rewrite <- quote_append.
    rewrite (members_dumps lvl rest r k x fuel IHkvs Hr).
    + now rewrite dict_of_pairs_distinct.
    + lengths.
Qed.

(** [json.loads (json.dumps v)] is [v] for a faithful [v]. *)
Lemma loads_dumps v : faithful v -> loads (dumps v) = Some v.
Proof.
  intros Hf. unfold loads, dumps.
  destruct (dumps_head 0 v "" Hf) as (c & r & Hhead & Hws & _).
  rewrite append_nil_r in Hhead.
  rewrite Hhead, skip_ws_stop by exact Hws. rewrite <- Hhead.
  pose proof (scan_dumps v Hf 0%nat ""
                (2 * String.length (dumps_at 0 v) + 2)%nat eq_refl) as H.
  rewrite append_nil_r in H. rewrite H; [reflexivity|lia].
Qed.

End JsonFacts.

(** ** Floats read back

    [float] rounds a numeral to the nearest float, so it returns the float
    [x] for every numeral nearer to [x] than to any other float; the
    numeral [repr] writes for [x] is one of them, and both [float] and
    [json.loads] accept its layout. *)

Section FloatFacts.
Import Text Numeral.

Lemma pow2_pos k : 0 <= k -> 0 < 2 ^ k.
Proof. intros. apply Z.pow_pos_nonneg; lia. Qed.

Lemma pow2_mono a b : 0 <= a <= b -> 2 ^ a <= 2 ^ b.
Proof. intros. apply Z.pow_le_mono_r; lia. Qed.

(** *** Rounding a fraction

    [binade n d] is the binary exponent of [n / d]; the exponents are
    shifted by [K] to keep them non-negative. *)
Lemma binade_spec n d K :
  0 < n -> 0 < d -> 0 <= K -> 0 <= Float.binade n d + K ->
  2 ^ (Float.binade n d + K) * d <= n * 2 ^ K
  < 2 ^ (Float.binade n d + K + 1) * d.
Proof.
  intros Hn Hd HK Hb. unfold Float.binade in *.
  pose proof (Z.log2_spec n Hn) as [Ha1 Ha2].
  pose proof (Z.log2_spec d Hd) as [Hc1 Hc2].
  pose proof (Z.log2_nonneg n) as Ha0. pose proof (Z.log2_nonneg d) as Hc0.
  set (a := Z.log2 n) in *. set (c := Z.log2 d) in *.
  rewrite <- Z.add_1_r in Ha2, Hc2.
  pose proof (pow2_pos a Ha0). pose proof (pow2_pos c Hc0).
  pose proof (pow2_pos K HK).
  destruct (d * 2 ^ a <=? n * 2 ^ c) eqn:Hcmp.
  - apply Z.leb_le in Hcmp. split.
    + (* 2^(a-c+K) * d * 2^c = 2^K * (d * 2^a) *)
      apply Z.mul_le_mono_pos_r with (p := 2 ^ c); [lia|].
      replace (2 ^ (a - c + K) * d * 2 ^ c) with (2 ^ K * (d * 2 ^ a)).
      * nia.
      * replace (2 ^ (a - c + K) * d * 2 ^ c)
          with (d * (2 ^ (a - c + K) * 2 ^ c)) by ring.
        rewrite <- Z.pow_add_r by lia. replace (a - c + K + c) with (K + a) by lia.
        rewrite Z.pow_add_r by lia. ring.
    + assert (E : 2 ^ (a - c + K + 1) * 2 ^ c = 2 ^ (a + 1) * 2 ^ K).
      { rewrite <- !Z.pow_add_r by lia. f_equal. lia. }
      pose proof (pow2_pos (a - c + K + 1) ltac:(lia)). nia.
  - apply Z.leb_gt in Hcmp. split.
    + assert (E : 2 ^ (a - c - 1 + K) * 2 ^ (c + 1) = 2 ^ a * 2 ^ K).
      { rewrite <- !Z.pow_add_r by lia. f_equal. lia. }
      pose proof (pow2_pos (a - c - 1 + K) ltac:(lia)). nia.
    + replace (a - c - 1 + K + 1) with (a - c + K) by lia.
      apply Z.mul_lt_mono_pos_r with (p := 2 ^ c); [lia|].
      replace (2 ^ (a - c + K) * d * 2 ^ c) with (2 ^ K * (d * 2 ^ a)).
      * nia.
      * replace (2 ^ (a - c + K) * d * 2 ^ c)
          with (d * (2 ^ (a - c + K) * 2 ^ c)) by ring.
        rewrite <- Z.pow_add_r by lia. replace (a - c + K + c) with (K + a) by lia.
        rewrite Z.pow_add_r by lia. ring.
Qed.

Lemma binade_below n d b K : 0 < n -> 0 < d -> 0 <= K -> 0 <= b + K ->
  n * 2 ^ K < 2 ^ (b + K) * d -> Float.binade n d < b.
Proof.
  intros Hn Hd HK Hb H.
  destruct (Z.lt_ge_cases (Float.binade n d) b) as [|Hge]; [assumption|exfalso].
  destruct (binade_spec n d K Hn Hd HK ltac:(lia)) as [Hlo _].
  pose proof (pow2_mono (b + K) (Float.binade n d + K) ltac:(lia)).
  pose proof (pow2_pos (b + K) Hb). nia.
Qed.

Lemma binade_above n d b K : 0 < n -> 0 < d -> 0 <= K -> 0 <= b + K ->
  2 ^ (b + K) * d <= n * 2 ^ K -> b <= Float.binade n d.
Proof.
  intros Hn Hd HK Hb H.
  destruct (Z.lt_ge_cases (Float.binade n d) b) as [Hlt|]; [exfalso|lia].
  (* shift further so that Float.binade n d + K' is non-negative *)
  set (J := Z.max 0 (- (Float.binade n d + K))).
  destruct (binade_spec n d (K + J) Hn Hd ltac:(lia) ltac:(lia)) as [_ Hhi].
  pose proof (pow2_mono (Float.binade n d + (K + J) + 1) (b + K + J) ltac:(lia)).
  assert (E1 : 2 ^ (b + K + J) = 2 ^ (b + K) * 2 ^ J)
    by (rewrite <- Z.pow_add_r by lia; reflexivity).
  assert (E2 : 2 ^ (K + J) = 2 ^ K * 2 ^ J)
    by (rewrite <- Z.pow_add_r by lia; reflexivity).
  pose proof (pow2_pos J ltac:(lia)). pose proof (pow2_pos (b + K) Hb).
  pose proof (pow2_pos (Float.binade n d + (K + J) + 1) ltac:(lia)).
  rewrite E2 in Hhi.
  assert (2 ^ (b + K) * d * 2 ^ J <= n * 2 ^ K * 2 ^ J) by nia.
  nia.
Qed.

(** Rounding returns the integer within one half of the quotient. *)
Lemma round_half_even_near q r d m :
  0 <= r < d -> (2 * m - 1) * d < 2 * (q * d + r) < (2 * m + 1) * d ->
  Float.round_half_even q r d = m.
Proof.
  intros Hr [Hlo Hhi]. unfold Float.round_half_even.
  assert (q = m - 1 \/ q = m) as [-> | ->] by nia.
  - assert (d < 2 * r) by nia.
    destruct (Z.compare_spec (2 * r) d); lia.
  - assert (2 * r < d) by nia.
    destruct (Z.compare_spec (2 * r) d); lia.
Qed.

Lemma round_ratio_near num den m :
  0 < den -> (2 * m - 1) * den < 2 * num < (2 * m + 1) * den ->
  Float.round_half_even (num / den) (num mod den) den = m.
Proof.
  intros Hden H. apply round_half_even_near.
  - apply Z.mod_pos_bound; assumption.
  - rewrite (Z.mul_comm (num / den) den), <- Z.div_mod by lia. assumption.
Qed.

(** A fraction nearer to a float than to any other float is rounded to
    it. *)
Lemma of_ratio_near neg n d m e : 0 < n -> 0 < d ->
  canonical m e -> within_half_gap n d m e ->
  Float.of_ratio neg n d = S754_finite neg m e.
Proof.
  intros Hn Hd Hcan [Hlo Hhi].
  assert (He : -1074 <= e <= 971) by (destruct Hcan; lia).
  pose proof (pow2_pos (e + 1074) ltac:(lia)) as HS.
  set (S := 2 ^ (e + 1074)) in *.
  set (T := 2 ^ 1074) in *.
  assert (HT : 0 < T) by (apply pow2_pos; lia).
  (* the common case: the quotient is rounded at exponent [e] itself *)
  assert (Hsame : Z.max (Float.binade n d - 52) (-1074) = e ->
                  (2 * Zpos m - 1) * (S * d) < 2 * (n * T) ->
                  Float.of_ratio neg n d = S754_finite neg m e).
  { intros Hmax Hlo'. unfold Float.of_ratio.
    destruct (n =? 0) eqn:En; [lia|]. rewrite Hmax. fold S T.
    rewrite (round_ratio_near (n * T) (d * S) (Zpos m)) by nia.
    destruct (Zpos m =? 0) eqn:E0; [lia|].
    destruct (Zpos m =? 2 ^ 53) eqn:E1; [destruct Hcan; lia|].
    destruct (e <=? 971) eqn:E2; [reflexivity|lia]. }
  assert (Hup : Float.binade n d < e + 53).
  { apply binade_below with (K := 1074); try lia. fold T.
    replace (e + 53 + 1074) with (e + 1074 + 53) by lia.
    rewrite Z.pow_add_r by lia. fold S.
    destruct Hcan as [[Hm _]|[Hm _]]; nia. }
  destruct Hcan as [[Hm _]|[Hm ->]].
  - destruct (Z.le_gt_cases (2 ^ 52 * (S * d)) (n * T)) as [Hge|Hlt].
    + (* the quotient lies in the Float.binade of [x] *)
      assert (e + 52 <= Float.binade n d).
      { apply binade_above with (K := 1074); try lia. fold T.
        replace (e + 52 + 1074) with (e + 1074 + 52) by lia.
        rewrite Z.pow_add_r by lia. fold S. nia. }
      apply Hsame; [lia|].
      unfold low_gap_halved in Hlo.
      destruct (Zpos m =? 2 ^ 52) eqn:E; [|assumption].
      apply Z.eqb_eq in E. nia.
    + (* the quotient lies just below a power of two *)
      assert (Em : Zpos m = 2 ^ 52).
      { unfold low_gap_halved in Hlo.
        destruct (Zpos m =? 2 ^ 52) eqn:E; [apply Z.eqb_eq in E; exact E|].
        apply Z.eqb_neq in E. cbn [andb] in Hlo. nia. }
      unfold low_gap_halved in Hlo. rewrite Em, Z.eqb_refl in Hlo.
      cbn [andb] in Hlo.
      destruct (-1074 <? e) eqn:Ee.
      * apply Z.ltb_lt in Ee.
        assert (ES : S = 2 * 2 ^ (e - 1 + 1074)).
        { unfold S. replace (e + 1074) with (1 + (e - 1 + 1074)) by lia.
          rewrite Z.pow_add_r by lia. reflexivity. }
        pose proof (pow2_pos (e - 1 + 1074) ltac:(lia)) as HS'.
        set (S' := 2 ^ (e - 1 + 1074)) in *.
        assert (Float.binade n d = e + 51).
        { apply Z.le_antisymm.
          - enough (Float.binade n d < e + 52) by lia.
            apply binade_below with (K := 1074); try lia. fold T.
            replace (e + 52 + 1074) with (e + 1074 + 52) by lia.
            rewrite Z.pow_add_r by lia. fold S. nia.
          - apply binade_above with (K := 1074); try lia. fold T.
            replace (e + 51 + 1074) with (e - 1 + 1074 + 52) by lia.
            rewrite Z.pow_add_r by lia. fold S'. nia. }
        unfold Float.of_ratio. destruct (n =? 0) eqn:En; [lia|].
        replace (Z.max (Float.binade n d - 52) (-1074)) with (e - 1) by lia.
        fold S' T.
        rewrite (round_ratio_near (n * T) (d * S') (2 ^ 53)) by nia.
        cbn [Z.eqb Z.pow Z.pow_pos Pos.iter Z.mul Pos.mul Pos.eqb].
        replace (e - 1 + 1) with e by lia.
        destruct (e <=? 971) eqn:E2; [|lia].
        f_equal. apply Pos2Z.inj. rewrite Em. reflexivity.
      * apply Z.ltb_ge in Ee. assert (e = -1074) by lia. subst e.
        apply Hsame; [lia|rewrite Em; assumption].
  - unfold low_gap_halved in Hlo.
    destruct (Zpos m =? 2 ^ 52) eqn:E; [lia|]. cbn [andb] in Hlo.
    assert (Float.binade n d < -1074 + 52).
    { apply binade_below with (K := 1074); try lia. fold T.
      replace (-1074 + 52 + 1074) with (-1074 + 1074 + 52) by lia.
      rewrite Z.pow_add_r by lia. fold S. nia. }
    apply Hsame; [lia|assumption].
Qed.

(** *** The floats [of_ratio] returns *)

Lemma digits2_pos_spec m :
  2 ^ (Zpos (digits2_pos m) - 1) <= Zpos m < 2 ^ Zpos (digits2_pos m).
Proof.
  induction m as [p IH|p IH|]; cbn [digits2_pos].
  - rewrite Pos2Z.inj_succ. replace (Z.succ (Zpos (digits2_pos p)) - 1)
      with (Z.succ (Zpos (digits2_pos p) - 1)) by lia.
    rewrite !Z.pow_succ_r by lia. lia.
  - rewrite Pos2Z.inj_succ. replace (Z.succ (Zpos (digits2_pos p)) - 1)
      with (Z.succ (Zpos (digits2_pos p) - 1)) by lia.
    rewrite !Z.pow_succ_r by lia. lia.
  - cbn. lia.
Qed.

(** [valid_binary] in terms of the bounds on mantissa and exponent. *)
Lemma valid_canonical s m e :
  Float.valid (S754_finite s m e) = true <-> canonical m e.
Proof.
  unfold Float.valid, valid_binary, bounded, canonical_mantissa, fexp, emin,
    Float.prec, Float.emax, canonical.
  pose proof (digits2_pos_spec m) as Hd.
  set (k := Zpos (digits2_pos m)) in *.
  assert (Hk : 0 < k) by (unfold k; lia).
  rewrite andb_true_iff, Z.leb_le, Z.eqb_eq.
  split.
  - intros [Hc He].
    destruct (Z.lt_ge_cases k 53) as [Hlt|Hge].
    + right. split; [|lia].
      pose proof (pow2_mono k 52 ltac:(lia)). lia.
    + left. assert (k = 53) by lia.
      replace k with 53 in Hd by lia. change (53 - 1) with 52 in Hd. lia.
  - intros [[Hm He]|[Hm ->]].
    + assert (k = 53).
      { destruct (Z.lt_trichotomy k 53) as [Hlt|[E|Hgt]]; [|exact E|].
        - pose proof (pow2_mono k 52 ltac:(lia)). lia.
        - pose proof (pow2_mono 53 (k - 1) ltac:(lia)). lia. }
      lia.
    + assert (k <= 52).
      { destruct (Z.le_gt_cases k 52) as [Hle|Hgt]; [exact Hle|].
        pose proof (pow2_mono 52 (k - 1) ltac:(lia)). lia. }
      lia.
Qed.

Lemma binade_scale g n d : 0 < g -> 0 < n -> 0 < d ->
  Float.binade (g * n) (g * d) = Float.binade n d.
Proof.
  intros Hg Hn Hd.
  set (b := Float.binade n d).
  set (K := Z.max 0 (- b)).
  destruct (binade_spec n d K Hn Hd ltac:(lia) ltac:(lia)) as [Hlo Hhi].
  fold b in Hlo, Hhi.
  apply Z.le_antisymm.
  - enough (Float.binade (g * n) (g * d) < b + 1) by lia.
    apply binade_below with (K := K); try nia.
    replace (b + 1 + K) with (b + K + 1) by lia. nia.
  - apply binade_above with (K := K); try nia.
Qed.

Lemma round_half_even_scale g q r d : 0 < g ->
  Float.round_half_even q (g * r) (g * d) = Float.round_half_even q r d.
Proof.
  intros Hg. unfold Float.round_half_even.
  destruct (Z.compare_spec (2 * (g * r)) (g * d));
    destruct (Z.compare_spec (2 * r) d); try reflexivity; nia.
Qed.

(** The result depends on the fraction, not on its two terms. *)
Lemma of_ratio_scale neg g n d : 0 < g -> 0 < n -> 0 < d ->
  Float.of_ratio neg (g * n) (g * d) = Float.of_ratio neg n d.
Proof.
  intros Hg Hn Hd. unfold Float.of_ratio.
  destruct (g * n =? 0) eqn:E1; [nia|]. destruct (n =? 0) eqn:E2; [lia|].
  rewrite binade_scale by assumption.
  set (e := Z.max (Float.binade n d - 52) (-1074)).
  assert (HS : 0 < 2 ^ (e + 1074)) by (apply pow2_pos; lia).
  replace (g * n * 2 ^ 1074) with (g * (n * 2 ^ 1074)) by ring.
  replace (g * d * 2 ^ (e + 1074)) with (g * (d * 2 ^ (e + 1074))) by ring.
  rewrite Z.div_mul_cancel_l by nia.
  rewrite Z.mul_mod_distr_l by nia.
  rewrite round_half_even_scale by assumption.
  reflexivity.
Qed.

Lemma of_ratio_cross neg n1 d1 n2 d2 :
  0 < n1 -> 0 < d1 -> 0 < n2 -> 0 < d2 -> n1 * d2 = n2 * d1 ->
  Float.of_ratio neg n1 d1 = Float.of_ratio neg n2 d2.
Proof.
  intros H1 H2 H3 H4 E.
  rewrite <- (of_ratio_scale neg d2 n1 d1) by assumption.
  rewrite <- (of_ratio_scale neg d1 n2 d2) by assumption.
  f_equal; lia.
Qed.

(** The sign is carried over unchanged. *)
Lemma of_ratio_sign a b n d m e :
  Float.of_ratio a n d = S754_finite a m e ->
  Float.of_ratio b n d = S754_finite b m e.
Proof.
  unfold Float.of_ratio.
  repeat match goal with
         | |- context [if ?c then _ else _] => destruct c
         end; try discriminate; intros H; inversion H; reflexivity.
Qed.

(** Rounding returns floats of binary64 only. *)
Lemma of_ratio_valid neg n d : 0 <= n -> 0 < d ->
  Float.valid (Float.of_ratio neg n d) = true.
Proof.
  intros Hn Hd. unfold Float.of_ratio.
  destruct (n =? 0) eqn:En; [reflexivity|]. apply Z.eqb_neq in En.
  assert (Hn' : 0 < n) by lia.
  set (b := Float.binade n d).
  set (e := Z.max (b - 52) (-1074)).
  assert (HS : 0 < 2 ^ (e + 1074)) by (apply pow2_pos; lia).
  set (S := 2 ^ (e + 1074)) in *.
  set (T := 2 ^ 1074).
  assert (HT : 0 < T) by (apply pow2_pos; lia).
  assert (Hden : 0 < d * S) by nia.
  pose proof (Z.div_mod (n * T) (d * S) ltac:(lia)) as Hdm.
  pose proof (Z.mod_pos_bound (n * T) (d * S) Hden) as Hr.
  assert (Hq0 : 0 <= n * T / (d * S)) by (apply Z.div_pos; nia).
  (* the quotient has at most 53 bits *)
  assert (Hq1 : n * T / (d * S) < 2 ^ 53).
  { apply Z.div_lt_upper_bound; [exact Hden|].
    set (J := Z.max 0 (- (b + 1074))).
    destruct (binade_spec n d (1074 + J) Hn' Hd ltac:(lia) ltac:(unfold b in *; lia))
      as [_ Hhi]. fold b in Hhi.
    pose proof (pow2_mono (b + (1074 + J) + 1) (53 + (e + 1074) + J)
                  ltac:(lia)) as Hm.
    rewrite (Z.pow_add_r 2 1074 J) in Hhi by lia. fold T in Hhi.
    rewrite !Z.pow_add_r in Hm by lia. fold S in Hm.
    pose proof (pow2_pos J ltac:(lia)).
    rewrite <- !Z.pow_add_r in Hm by lia.
    rewrite (Z.pow_add_r 2 (53 + (e + 1074)) J) in Hm by lia.
    rewrite (Z.pow_add_r 2 53 (e + 1074)) in Hm by lia. fold S in Hm.
    nia. }
  (* and exactly 53 in the normal range *)
  assert (Hq2 : -1074 < e -> 2 ^ 52 <= n * T / (d * S)).
  { intros He. apply Z.div_le_lower_bound; [exact Hden|].
    destruct (binade_spec n d 1074 Hn' Hd ltac:(lia) ltac:(unfold b in *; lia))
      as [Hlo _]. fold b T in Hlo.
    replace (b + 1074) with (52 + (e + 1074)) in Hlo by lia.
    rewrite Z.pow_add_r in Hlo by lia. fold S in Hlo. nia. }
  set (q := n * T / (d * S)) in *.
  set (r := (n * T) mod (d * S)) in *.
  assert (Hm : Float.round_half_even q r (d * S) = q \/
               Float.round_half_even q r (d * S) = q + 1).
  { unfold Float.round_half_even.
    destruct (2 * r ?= d * S); [destruct (Z.even q)| |]; auto. }
  set (m := Float.round_half_even q r (d * S)) in *.
  destruct (m =? 0) eqn:E0; [reflexivity|]. apply Z.eqb_neq in E0.
  destruct (m =? 2 ^ 53) eqn:E1.
  - destruct (e + 1 <=? 971) eqn:E2; [|reflexivity]. apply Z.leb_le in E2.
    apply valid_canonical. left. split; [|lia].
    replace (Zpos (Z.to_pos (2 ^ 52))) with (2 ^ 52) by reflexivity. lia.
  - apply Z.eqb_neq in E1.
    destruct (e <=? 971) eqn:E2; [|reflexivity]. apply Z.leb_le in E2.
    apply valid_canonical. unfold canonical. rewrite Z2Pos.id by lia.
    destruct (Z.eq_dec e (-1074)) as [He|He].
    + destruct (Z.lt_ge_cases m (2 ^ 52)); [right|left]; lia.
    + left. specialize (Hq2 ltac:(lia)). lia.
Qed.

(** *** Decimal numerals *)

Lemma pow10_pos k : 0 <= k -> 0 < 10 ^ k.
Proof. intros. apply Z.pow_pos_nonneg; lia. Qed.

Lemma of_decimal_ratio neg c p :
  Float.of_decimal neg c p =
  Float.of_ratio neg (c * 10 ^ Z.max p 0) (10 ^ Z.max (- p) 0).
Proof.
  unfold Float.of_decimal. destruct (0 <=? p) eqn:Hp.
  - apply Z.leb_le in Hp.
    rewrite (Z.max_l p 0), (Z.max_r (- p) 0) by lia. reflexivity.
  - apply Z.leb_gt in Hp.
    rewrite (Z.max_r p 0), (Z.max_l (- p) 0) by lia.
    now rewrite Z.pow_0_r, Z.mul_1_r.
Qed.

Lemma fraction_ratio m e :
  Float.fraction m e = (Zpos m * 2 ^ Z.max e 0, 2 ^ Z.max (- e) 0).
Proof.
  unfold Float.fraction. destruct (0 <=? e) eqn:He.
  - apply Z.leb_le in He.
    rewrite (Z.max_l e 0), (Z.max_r (- e) 0) by lia. reflexivity.
  - apply Z.leb_gt in He.
    rewrite (Z.max_r e 0), (Z.max_l (- e) 0) by lia.
    now rewrite Z.pow_0_r, Z.mul_1_r.
Qed.

Lemma scaled_ratio n d p :
  Float.scaled n d p =
  let num := n * 10 ^ Z.max (- p) 0 in
  let den := d * 10 ^ Z.max p 0 in
  (num / den, num mod den, den).
Proof.
  unfold Float.scaled. destruct (0 <=? p) eqn:Hp.
  - apply Z.leb_le in Hp.
    rewrite (Z.max_l p 0), (Z.max_r (- p) 0) by lia.
    now rewrite Z.pow_0_r, Z.mul_1_r.
  - apply Z.leb_gt in Hp.
    rewrite (Z.max_r p 0), (Z.max_l (- p) 0) by lia.
    now rewrite Z.pow_0_r, Z.mul_1_r.
Qed.

Lemma of_decimal_zero neg p : Float.of_decimal neg 0 p = S754_zero neg.
Proof. rewrite of_decimal_ratio. reflexivity. Qed.

Lemma of_decimal_sign a b c p m e :
  Float.of_decimal a c p = S754_finite a m e ->
  Float.of_decimal b c p = S754_finite b m e.
Proof. rewrite !of_decimal_ratio. apply of_ratio_sign. Qed.

Lemma of_decimal_valid neg c p : 0 <= c ->
  Float.valid (Float.of_decimal neg c p) = true.
Proof.
  intros Hc. rewrite of_decimal_ratio. apply of_ratio_valid.
  - pose proof (pow10_pos (Z.max p 0) ltac:(lia)). nia.
  - apply pow10_pos. lia.
Qed.

(** Zeros at the end of the digits count as a larger exponent. *)
Lemma of_decimal_shift neg v a p : 0 < v -> 0 <= a ->
  Float.of_decimal neg (v * 10 ^ a) p = Float.of_decimal neg v (p + a).
Proof.
  intros Hv Ha. rewrite !of_decimal_ratio.
  pose proof (pow10_pos a Ha).
  pose proof (pow10_pos (Z.max p 0) ltac:(lia)).
  pose proof (pow10_pos (Z.max (- p) 0) ltac:(lia)).
  pose proof (pow10_pos (Z.max (p + a) 0) ltac:(lia)).
  pose proof (pow10_pos (Z.max (- (p + a)) 0) ltac:(lia)).
  apply of_ratio_cross; try nia.
  rewrite <- !Z.mul_assoc, <- !Z.pow_add_r by lia.
  f_equal. f_equal. lia.
Qed.

(** *** The decimal exponent *)

Lemma log10_up_spec fuel : forall n d k,
  d <= n -> 0 <= k ->
  let r := Float.log10_up fuel n d k in
  k <= r /\ d * 10 ^ (r - k) <= n.
Proof.
  induction fuel as [|f IH]; intros n d k Hd Hk; cbn [Float.log10_up].
  - cbv zeta. rewrite Z.sub_diag, Z.pow_0_r. lia.
  - destruct (n <? 10 * d) eqn:E.
    + cbv zeta. rewrite Z.sub_diag, Z.pow_0_r. lia.
    + apply Z.ltb_ge in E.
      destruct (IH n (10 * d) (k + 1) E ltac:(lia)) as [H1 H2].
      cbv zeta. split; [lia|].
      replace (Float.log10_up f n (10 * d) (k + 1) - k)
        with (1 + (Float.log10_up f n (10 * d) (k + 1) - (k + 1))) by lia.
      rewrite Z.pow_add_r by lia. change (10 ^ 1) with 10. lia.
Qed.

Lemma log10_down_spec fuel : forall n d k,
  0 < n -> n < d -> d <= n * 10 ^ Z.of_nat fuel ->
  let r := Float.log10_down fuel n d k in
  r < k /\ d <= n * 10 ^ (k - r).
Proof.
  induction fuel as [|f IH]; intros n d k Hn Hd Hf.
  - change (10 ^ Z.of_nat 0) with 1 in Hf. lia.
  - cbn [Float.log10_down]. destruct (d <=? 10 * n) eqn:E.
    + apply Z.leb_le in E. cbv zeta.
      replace (k - (k - 1)) with 1 by lia. change (10 ^ 1) with 10. lia.
    + apply Z.leb_gt in E.
      rewrite Nat2Z.inj_succ, Z.pow_succ_r in Hf by lia.
      destruct (IH (10 * n) d (k - 1) ltac:(lia) E ltac:(lia)) as [H1 H2].
      cbv zeta. split; [lia|].
      replace (k - Float.log10_down f (10 * n) d (k - 1))
        with (1 + (k - 1 - Float.log10_down f (10 * n) d (k - 1))) by lia.
      rewrite Z.pow_add_r by lia. change (10 ^ 1) with 10. lia.
Qed.

(** [10 ^ ilog10 n d <= n / d], for fractions that are not too small. *)
Lemma ilog10_below n d : 0 < n -> 0 < d -> d <= n * 10 ^ 400 ->
  let k := Float.ilog10 n d in
  10 ^ Z.max k 0 * d <= n * 10 ^ Z.max (- k) 0.
Proof.
  intros Hn Hd Hsmall. unfold Float.ilog10.
  destruct (d <=? n) eqn:E.
  - apply Z.leb_le in E.
    destruct (log10_up_spec 400 n d 0 E ltac:(lia)) as [H1 H2].
    cbv zeta. rewrite Z.sub_0_r in H2.
    rewrite Z.max_l, Z.max_r by lia. rewrite Z.pow_0_r. lia.
  - apply Z.leb_gt in E.
    destruct (log10_down_spec 400 n d 0 Hn E Hsmall) as [H1 H2].
    cbv zeta. rewrite Z.sub_0_l in H2.
    rewrite Z.max_r, Z.max_l by lia. rewrite Z.pow_0_r. lia.
Qed.

(** *** Seventeen digits identify a float *)

Lemma half_gap_arith c m X Y :
  0 < X -> 0 < Y -> 0 < m < 2 ^ 53 ->
  2 * c * X <= 2 * m * Y + X -> 2 * m * Y <= 2 * c * X + X ->
  10 ^ 16 * X <= m * Y ->
  (2 * m - 1) * Y < 2 * c * X /\
  (m = 2 ^ 52 -> (4 * m - 1) * Y < 4 * c * X) /\
  2 * c * X < (2 * m + 1) * Y.
Proof.
  intros HX HY Hm H1 H2 H3.
  assert (HXY : X < Y).
  { assert (10 ^ 16 * X < 10 ^ 16 * Y); [|lia].
    assert (m * Y < 10 ^ 16 * Y) by (apply Z.mul_lt_mono_pos_r; lia). lia. }
  split; [lia|]. split; [|lia].
  intros ->.
  assert (2 * X < Y); [|lia].
  assert (10 ^ 16 * (2 * X) < 10 ^ 16 * Y); [|lia].
  assert (2 * (2 ^ 52 * Y) < 10 ^ 16 * Y); [|lia].
  replace (2 * (2 ^ 52 * Y)) with (2 ^ 53 * Y)
    by (change (2 ^ 53) with (2 * 2 ^ 52); ring).
  apply Z.mul_lt_mono_pos_r; lia.
Qed.

Lemma canonical_range m e : canonical m e ->
  -1074 <= e <= 971 /\ 0 < Zpos m < 2 ^ 53.
Proof. intros [[? ?]|[? ->]]; lia. Qed.

(** The nearest numeral of 17 digits is within half a gap of the float,
    as [10^16] exceeds [2^53]. *)
Lemma nearest17_reads m e c p :
  canonical m e ->
  Float.nearest17 m e
    (Float.ilog10 (fst (Float.fraction m e)) (snd (Float.fraction m e)))
  = (c, p) ->
  0 < c /\ Float.of_decimal false c p = S754_finite false m e.
Proof.
  intros Hcan. destruct (canonical_range m e Hcan) as [He Hm].
  unfold Float.nearest17. rewrite fraction_ratio. cbn [fst snd].
  set (Ea := 2 ^ Z.max e 0). set (Eb := 2 ^ Z.max (- e) 0).
  assert (HEa : 0 < Ea) by (apply pow2_pos; lia).
  assert (HEb : 0 < Eb) by (apply pow2_pos; lia).
  set (k := Float.ilog10 (Zpos m * Ea) Eb).
  rewrite scaled_ratio. cbv zeta.
  set (q := k - 16).
  set (A := 10 ^ Z.max q 0). set (B := 10 ^ Z.max (- q) 0).
  assert (HA : 0 < A) by (apply pow10_pos; lia).
  assert (HB : 0 < B) by (apply pow10_pos; lia).
  set (num := Zpos m * Ea * B). set (den := Eb * A).
  assert (Hden : 0 < den) by (unfold den; nia).
  pose proof (Z.div_mod num den ltac:(lia)) as Hdm.
  pose proof (Z.mod_pos_bound num den Hden) as Hr.
  set (lo := num / den) in *. set (r := num mod den) in *.
  (* the numeral is no smaller than [10^16] units of its last digit *)
  assert (Hk : 10 ^ 16 * den <= num).
  { assert (Hsmall : Eb <= Zpos m * Ea * 10 ^ 400).
    { assert (Eb <= 2 ^ 1074) by (apply pow2_mono; lia).
      assert (2 ^ 1074 <= 10 ^ 400) by (vm_compute; discriminate).
      assert (1 * 1 <= Zpos m * Ea) by (apply Z.mul_le_mono_nonneg; lia).
      nia. }
    pose proof (ilog10_below (Zpos m * Ea) Eb ltac:(nia) HEb Hsmall) as Hlog.
    cbv zeta in Hlog. fold k in Hlog.
    set (Kp := 10 ^ Z.max k 0) in *. set (Kn := 10 ^ Z.max (- k) 0) in *.
    assert (HKn : 0 < Kn) by (apply pow10_pos; lia).
    assert (E : Kp * B = 10 ^ 16 * A * Kn).
    { unfold Kp, Kn, A, B. rewrite <- !Z.pow_add_r by lia. f_equal. lia. }
    unfold num, den.
    apply Z.mul_le_mono_pos_r with (p := Kn); [exact HKn|].
    replace (10 ^ 16 * (Eb * A) * Kn) with (10 ^ 16 * A * Kn * Eb) by ring.
    rewrite <- E. nia. }
  intros Hc. cbv beta iota in Hc. fold q lo r in Hc.
  assert (Hnear : 2 * c * den <= 2 * num + den /\ 2 * num <= 2 * c * den + den
                  /\ lo <= c /\ p = q).
  { destruct (Z.compare_spec (2 * r) den) as [Hcmp|Hcmp|Hcmp];
      [destruct (Z.even lo)| |]; injection Hc as <- <-;
      repeat split; lia. }
  destruct Hnear as (H1 & H2 & Hlo & ->).
  assert (Hc0 : 0 < c).
  { assert (10 ^ 16 <= lo) by (apply Z.div_le_lower_bound; lia). lia. }
  split; [exact Hc0|].
  rewrite of_decimal_ratio. fold A B.
  apply of_ratio_near; [nia|exact HB|exact Hcan|].
  set (S := 2 ^ (e + 1074)). set (T := 2 ^ 1074).
  assert (HS : 0 < S) by (apply pow2_pos; lia).
  assert (HT : 0 < T) by (apply pow2_pos; lia).
  assert (HST : S * Eb = T * Ea).
  { unfold S, T, Ea, Eb. rewrite <- !Z.pow_add_r by lia. f_equal. lia. }
  destruct (half_gap_arith c (Zpos m) (A * T) (S * B)) as (G1 & G2 & G3).
  - apply Z.mul_pos_pos; assumption.
  - apply Z.mul_pos_pos; assumption.
  - exact Hm.
  - (* upper rounding bound, with the scale [Eb] cancelled *)
    apply Z.mul_le_mono_pos_r with (p := Eb); [exact HEb|].
    replace ((2 * Zpos m * (S * B) + A * T) * Eb)
      with (2 * Zpos m * B * (S * Eb) + A * T * Eb) by ring.
    rewrite HST. unfold num, den in H1.
    apply Z.mul_le_mono_nonneg_r with (p := T) in H1; [lia|lia].
  - apply Z.mul_le_mono_pos_r with (p := Eb); [exact HEb|].
    replace (2 * Zpos m * (S * B) * Eb)
      with (2 * Zpos m * B * (S * Eb)) by ring.
    rewrite HST. unfold num, den in H2.
    apply Z.mul_le_mono_nonneg_r with (p := T) in H2; [lia|lia].
  - apply Z.mul_le_mono_pos_r with (p := Eb); [exact HEb|].
    replace (Zpos m * (S * B) * Eb) with (Zpos m * B * (S * Eb)) by ring.
    rewrite HST. unfold num, den in Hk.
    apply Z.mul_le_mono_nonneg_r with (p := T) in Hk; [lia|lia].
  - unfold within_half_gap. fold S T. split.
    + unfold low_gap_halved.
      destruct (Zpos m =? 2 ^ 52) eqn:E52; cbn [andb].
      * apply Z.eqb_eq in E52. destruct (-1074 <? e); [specialize (G2 E52)|]; lia.
      * lia.
    + lia.
Qed.

(** A candidate is kept only if it reads back. *)
Lemma candidate_reads m e k nd c p :
  Float.candidate m e k nd = Some (c, p) ->
  0 < c /\ Float.of_decimal false c p = S754_finite false m e.
Proof.
  unfold Float.candidate. rewrite fraction_ratio. cbv beta iota zeta.
  rewrite scaled_ratio. cbv beta iota zeta.
  set (Ea := 2 ^ Z.max e 0). set (Eb := 2 ^ Z.max (- e) 0).
  assert (HEa : 0 < Ea) by (apply pow2_pos; lia).
  assert (HEb : 0 < Eb) by (apply pow2_pos; lia).
  set (q := k - nd + 1).
  set (A := 10 ^ Z.max q 0). set (B := 10 ^ Z.max (- q) 0).
  assert (HA : 0 < A) by (apply pow10_pos; lia).
  assert (HB : 0 < B) by (apply pow10_pos; lia).
  set (num := Zpos m * Ea * B). set (den := Eb * A).
  assert (Hlo : 0 <= num / den).
  { apply Z.div_pos; [|apply Z.mul_pos_pos; assumption].
    unfold num. apply Z.mul_nonneg_nonneg; [|lia].
    apply Z.mul_nonneg_nonneg; lia. }
  set (lo := num / den) in *. set (r := num mod den).
  assert (Hback : forall c', 0 <= c' ->
            Float.eqb (Float.of_decimal false c' q) (S754_finite false m e) = true ->
            0 < c' /\ Float.of_decimal false c' q = S754_finite false m e).
  { intros c' H0 H. apply float_eqb_eq in H. split; [|exact H].
    destruct (Z.eq_dec c' 0) as [->|]; [|lia].
    rewrite of_decimal_zero in H. discriminate. }
  destruct (r =? 0).
  - destruct (Float.eqb (Float.of_decimal false lo q) _) eqn:E1; [|discriminate].
    intros H. injection H as <- <-. apply Hback; [lia|exact E1].
  - destruct (Float.eqb (Float.of_decimal false lo q) _) eqn:E1;
    destruct (Float.eqb (Float.of_decimal false (lo + 1) q) _) eqn:E2;
      try discriminate.
    + destruct (2 * r ?= den); [destruct (Z.even lo)| |];
        intros H; injection H as <- <-;
        first [apply Hback; [lia|exact E1] | apply Hback; [lia|exact E2]].
    + intros H. injection H as <- <-. apply Hback; [lia|exact E1].
    + intros H. injection H as <- <-. apply Hback; [lia|exact E2].
Qed.

(** The numeral [repr] chooses reads back. *)
Lemma shortest_reads m e fuel : forall nd c p,
  canonical m e ->
  Float.shortest fuel m e
    (Float.ilog10 (fst (Float.fraction m e)) (snd (Float.fraction m e))) nd
  = (c, p) ->
  0 < c /\ Float.of_decimal false c p = S754_finite false m e.
Proof.
  induction fuel as [|f IH]; intros nd c p Hcan; cbn [Float.shortest].
  - now apply nearest17_reads.
  - destruct (Float.candidate m e _ nd) as [[c' p']|] eqn:E.
    + intros H. injection H as <- <-. exact (candidate_reads _ _ _ _ _ _ E).
    + now apply IH.
Qed.

(** *** The digits [repr] lays out *)

Lemma rev_append_acc s : forall acc,
  Text.rev_append s acc = Text.rev_append s "" ++ acc.
Proof.
  induction s as [|c r IH]; intros acc; cbn [Text.rev_append]; [reflexivity|].
  rewrite (IH (String c acc)), (IH (String c "")), append_assoc. reflexivity.
Qed.

Lemma rev_cons c s : Text.rev (String c s) = Text.rev s ++ String c "".
Proof. unfold Text.rev. cbn [Text.rev_append]. apply rev_append_acc. Qed.

Lemma rev_app a b : Text.rev (a ++ b) = Text.rev b ++ Text.rev a.
Proof.
  induction a as [|c r IH]; cbn [append].
  - change (Text.rev "") with "". now rewrite append_nil_r.
  - rewrite !rev_cons, IH, append_assoc. reflexivity.
Qed.

Lemma rev_involutive s : Text.rev (Text.rev s) = s.
Proof.
  induction s as [|c r IH]; [reflexivity|].
  rewrite rev_cons, rev_app, IH. reflexivity.
Qed.

Lemma repeat_char_snoc c n :
  Text.repeat_char c n ++ String c "" = String c (Text.repeat_char c n).
Proof. induction n as [|k IH]; cbn; [reflexivity|]. now rewrite IH. Qed.

Lemma rev_repeat_char c n :
  Text.rev (Text.repeat_char c n) = Text.repeat_char c n.
Proof.
  induction n as [|k IH]; [reflexivity|].
  cbn [Text.repeat_char]. rewrite rev_cons, IH. apply repeat_char_snoc.
Qed.

Lemma length_repeat_char c n : String.length (Text.repeat_char c n) = n.
Proof. induction n as [|k IH]; cbn; congruence. Qed.

Lemma strip_zeros_rev_spec s :
  exists z, s = Text.repeat_char "0" z ++ Float.strip_zeros_rev s.
Proof.
  induction s as [|c r [z IH]]; [exists 0%nat; reflexivity|].
  cbn [Float.strip_zeros_rev]. destruct (Ascii.eqb c "0") eqn:E.
  - apply Ascii.eqb_eq in E. subst c. exists (S z). cbn. now rewrite <- IH.
  - exists 0%nat. reflexivity.
Qed.

Lemma digits_zeros n :
  forallb_string Text.is_digit (Text.repeat_char "0" n) = true.
Proof. induction n as [|k IH]; [reflexivity|]. cbn. exact IH. Qed.

Lemma value_acc_zeros n a :
  Numeral.value_acc (Text.repeat_char "0" n) a = a * 10 ^ Z.of_nat n.
Proof.
  revert a. induction n as [|k IH]; intros a.
  - cbn. lia.
  - cbn [Text.repeat_char Numeral.value_acc]. rewrite IH.
    change (Text.digit_val "0") with 0.
    rewrite Nat2Z.inj_succ, Z.pow_succ_r by lia. lia.
Qed.

Lemma value_append_zeros ds n :
  Numeral.value (ds ++ Text.repeat_char "0" n)
  = Numeral.value ds * 10 ^ Z.of_nat n.
Proof. unfold Numeral.value. now rewrite value_acc_append, value_acc_zeros. Qed.

Lemma value_zeros_append n ds :
  Numeral.value (Text.repeat_char "0" n ++ ds) = Numeral.value ds.
Proof.
  unfold Numeral.value. rewrite value_acc_append, value_acc_zeros. reflexivity.
Qed.

Lemma len_append a b : Text.len (a ++ b) = Text.len a + Text.len b.
Proof. unfold Text.len. rewrite length_append. lia. Qed.

Lemma len_zeros n : 0 <= n -> Text.len (Float.zeros n) = n.
Proof.
  intros H. unfold Text.len, Float.zeros. rewrite length_repeat_char. lia.
Qed.


Lemma digits_point_spec c p : 0 < c ->
  exists (z : nat) d1 rest,
    fst (Float.digits_point c p) = String d1 rest /\
    Text.is_digit d1 = true /\ d1 <> "0"%char /\
    forallb_string Text.is_digit rest = true /\
    c = Numeral.value (String d1 rest) * 10 ^ Z.of_nat z /\
    snd (Float.digits_point c p) = Text.len (String d1 rest) + Z.of_nat z + p.
Proof.
  intros Hc. unfold Float.digits_point. cbn [fst snd].
  destruct (digits_spec c ltac:(lia)) as (Hall & Hval & h & t & Eh & Hnz).
  destruct (strip_zeros_rev_spec (Text.rev (Numeral.digits c))) as [z Hz].
  set (ds := Text.rev (Float.strip_zeros_rev (Text.rev (Numeral.digits c)))).
  assert (E : Numeral.digits c = ds ++ Text.repeat_char "0" z).
  { rewrite <- (rev_involutive (Numeral.digits c)), Hz at 1.
    rewrite rev_app, rev_repeat_char. reflexivity. }
  rewrite E in Hall, Hval. rewrite forallb_string_append in Hall.
  apply andb_prop in Hall as [Hds _]. rewrite value_append_zeros in Hval.
  destruct ds as [|d1 rest] eqn:Eds.
  - change (Numeral.value "") with 0 in Hval. lia.
  - exists z, d1, rest. cbn [forallb_string] in Hds.
    apply andb_prop in Hds as [Hd1 Hrest].
    repeat split; try assumption.
    + intros ->. apply Hnz; [exact Hc|].
      rewrite Eh in E. cbn [append] in E. congruence.
    + symmetry. exact Hval.
    + rewrite E, len_append. unfold Text.len at 2.
      rewrite length_repeat_char. lia.
Qed.

(** *** Reading a numeral of [repr] *)

Lemma numeral_char_plain c : numeral_char c = true ->
  is_space c = false /\ Ascii.eqb c "_" = false /\ lower_char c = c.
Proof.
  destruct c as [[] [] [] [] [] [] [] []]; try discriminate; repeat split.
Qed.

Lemma digit_is_numeral_char c : is_digit c = true -> numeral_char c = true.
Proof. intros H. unfold numeral_char. now rewrite H. Qed.

Lemma digits_are_numeral s :
  forallb_string is_digit s = true -> forallb_string numeral_char s = true.
Proof.
  induction s as [|c r IH]; [reflexivity|]. cbn [forallb_string].
  intros H. apply andb_prop in H as [Hc Hr].
  now rewrite (digit_is_numeral_char c Hc), IH.
Qed.

Lemma digit_head c : is_digit c = true ->
  Ascii.eqb c "-" = false /\ Ascii.eqb c "+" = false /\
  Ascii.eqb c "." = false /\ Ascii.eqb c "i" = false /\
  Ascii.eqb c "n" = false /\ Ascii.eqb (lower_char c) "e" = false /\
  Ascii.eqb c "e" = false /\ Ascii.eqb c "E" = false.
Proof.
  destruct c as [[] [] [] [] [] [] [] []]; try discriminate; repeat split.
Qed.

Lemma forallb_string_rev f s :
  forallb_string f (Text.rev s) = forallb_string f s.
Proof.
  induction s as [|c r IH]; [reflexivity|].
  rewrite rev_cons, forallb_string_append, IH. cbn [forallb_string].
  rewrite andb_true_r. apply andb_comm.
Qed.

Lemma lstrip_plain s : forallb_string numeral_char s = true -> lstrip s = s.
Proof.
  destruct s as [|c r]; [reflexivity|]. cbn [forallb_string lstrip].
  intros H. apply andb_prop in H as [Hc _].
  destruct (numeral_char_plain c Hc) as (-> & _). reflexivity.
Qed.

Lemma strip_plain s : forallb_string numeral_char s = true -> strip s = s.
Proof.
  intros H. unfold strip. rewrite (lstrip_plain s H).
  rewrite lstrip_plain by now rewrite forallb_string_rev.
  apply rev_involutive.
Qed.

Lemma lower_plain s : forallb_string numeral_char s = true -> lower s = s.
Proof.
  unfold lower. induction s as [|c r IH]; [reflexivity|].
  cbn [forallb_string map_string]. intros H. apply andb_prop in H as [Hc Hr].
  destruct (numeral_char_plain c Hc) as (_ & _ & ->). now rewrite IH.
Qed.

Lemma drop_underscores_plain s : forall prev,
  forallb_string numeral_char s = true ->
  Float.drop_underscores prev s = Some s.
Proof.
  induction s as [|c r IH]; intros prev; [reflexivity|].
  cbn [forallb_string Float.drop_underscores].
  intros H. apply andb_prop in H as [Hc Hr].
  destruct (numeral_char_plain c Hc) as (_ & -> & _). now rewrite IH.
Qed.

(** [float(s)] on a numeral with an optional minus sign. *)
Lemma of_string_numeral neg d r mant ex :
  is_digit d = true -> forallb_string numeral_char r = true ->
  Float.read_decimal (String d r) = Some (mant, ex) ->
  Float.of_string (Float.sign_string neg ++ String d r)
  = Some (Float.of_decimal neg mant ex).
Proof.
  intros Hd Hr Hread.
  destruct (digit_head d Hd) as (Hm & Hp & _ & Hi & Hn & _).
  assert (Hbody : forallb_string numeral_char (String d r) = true).
  { cbn [forallb_string]. now rewrite (digit_is_numeral_char d Hd). }
  assert (Hall : forallb_string numeral_char
                   (Float.sign_string neg ++ String d r) = true).
  { rewrite forallb_string_append, Hbody. now destruct neg. }
  assert (Hsplit : Float.split_sign (Float.sign_string neg ++ String d r)
                   = (neg, String d r)).
  { destruct neg; [reflexivity|]. cbn [Float.sign_string append Float.split_sign].
    now rewrite Hm, Hp. }
  unfold Float.of_string. rewrite (strip_plain _ Hall), Hsplit.
  rewrite (lower_plain _ Hbody).
  assert (Hname : forall t, String.eqb (String d r) (String "i" t) = false).
  { intros t. cbn [String.eqb]. now rewrite Hi. }
  assert (Hnan : forall t, String.eqb (String d r) (String "n" t) = false).
  { intros t. cbn [String.eqb]. now rewrite Hn. }
  rewrite !Hname, Hnan. cbn [orb].
  rewrite (drop_underscores_plain _ false Hbody), Hread. reflexivity.
Qed.

Lemma exp_text_stops ex : stops_digits (exp_text ex).
Proof. destruct ex as [[neg ed]|]; [reflexivity|exact I]. Qed.

Lemma frac_exp_stops fp ex : stops_digits (frac_text fp ++ exp_text ex).
Proof.
  destruct fp as [f|]; [reflexivity|]. cbn [frac_text append].
  apply exp_text_stops.
Qed.

Lemma read_exponent_text ex :
  match ex with
  | Some (_, ed) => forallb_string is_digit ed = true /\ ed <> ""
  | None => True
  end ->
  Float.read_exponent (exp_text ex) = Some (exp_value ex).
Proof.
  destruct ex as [[neg ed]|]; [|reflexivity]. intros [Hd Hne].
  cbn [exp_text exp_value Float.read_exponent].
  change (Ascii.eqb (lower_char "e") "e") with true. cbv iota.
  assert (Hs : Float.split_sign ((if neg then "-" else "+") ++ ed) = (neg, ed))
    by (destruct neg; reflexivity).
  rewrite Hs. destruct ed as [|c t]; [contradiction|]. now rewrite Hd.
Qed.

Lemma read_decimal_text ip fp ex :
  digit_parts ip fp ex ->
  Float.read_decimal (numeral_text ip fp ex)
  = Some (value (ip ++ frac_digits fp), exp_value ex - len (frac_digits fp)).
Proof.
  intros (Hip & Hne & Hfp & Hex). unfold Float.read_decimal, numeral_text.
  rewrite (span_digits_append ip _ Hip (frac_exp_stops fp ex)).
  assert (Hfrac :
    match (frac_text fp ++ exp_text ex)%string with
    | String c t =>
        if Ascii.eqb c "." then Float.span_digits t
        else (EmptyString, (frac_text fp ++ exp_text ex)%string)
    | EmptyString => (EmptyString, (frac_text fp ++ exp_text ex)%string)
    end = (frac_digits fp, exp_text ex)).
  { destruct fp as [f|]; cbn [frac_text frac_digits append].
    - change (Ascii.eqb "." ".") with true. cbv iota.
      apply span_digits_append; [exact Hfp|apply exp_text_stops].
    - destruct ex as [[neg ed]|]; reflexivity. }
  rewrite Hfrac, (read_exponent_text ex Hex).
  destruct ip as [|c t]; [contradiction|]. reflexivity.
Qed.

(** The same numeral as [json.loads] matches it. *)
Lemma scan_exp_text ex :
  match ex with
  | Some (_, ed) => forallb_string is_digit ed = true /\ ed <> ""
  | None => True
  end ->
  Json.scan_exp (exp_text ex) = (exp_text ex, "").
Proof.
  destruct ex as [[neg ed]|]; [|reflexivity]. intros [Hd Hne].
  cbn [exp_text Json.scan_exp].
  change (Ascii.eqb "e" "e" || Ascii.eqb "e" "E") with true. cbv iota.
  destruct ed as [|c t]; [contradiction|].
  pose proof (span_digits_all (String c t) Hd) as Hspan.
  destruct neg; cbn [append];
    [change (Ascii.eqb "-" "-" || Ascii.eqb "-" "+") with true
    |change (Ascii.eqb "+" "-" || Ascii.eqb "+" "+") with true];
    cbv iota; rewrite Hspan; reflexivity.
Qed.

Lemma scan_frac_text fp ex :
  match fp with
  | Some f => forallb_string is_digit f = true /\ f <> ""
  | None => True
  end ->
  Json.scan_frac (frac_text fp ++ exp_text ex) = (frac_text fp, exp_text ex).
Proof.
  destruct fp as [f|]; cbn [frac_text append].
  - intros [Hd Hne]. cbn [Json.scan_frac].
    change (Ascii.eqb "." ".") with true. cbv iota.
    rewrite (span_digits_append f _ Hd (exp_text_stops ex)).
    destruct f as [|c t]; [contradiction|]. reflexivity.
  - intros _. destruct ex as [[neg ed]|]; reflexivity.
Qed.

Lemma scan_int_part_text ip rest :
  ip = "0" \/
  (exists d r, ip = String d r /\ is_digit d = true /\ d <> "0"%char /\
               forallb_string is_digit r = true) ->
  stops_digits rest ->
  Json.scan_int_part (ip ++ rest) = Some (ip, rest).
Proof.
  intros [->|(d & r & -> & Hd & Hnz & Hr)] Hstop; [reflexivity|].
  cbn [append Json.scan_int_part].
  destruct (Ascii.eqb d "0") eqn:E; [apply Ascii.eqb_eq in E; contradiction|].
  rewrite Hd, (span_digits_append r rest Hr Hstop). reflexivity.
Qed.

Lemma scan_number_text neg ip fp ex :
  ip = "0" \/
  (exists d r, ip = String d r /\ is_digit d = true /\ d <> "0"%char /\
               forallb_string is_digit r = true) ->
  match fp with
  | Some f => forallb_string is_digit f = true /\ f <> ""
  | None => True
  end ->
  match ex with
  | Some (_, ed) => forallb_string is_digit ed = true /\ ed <> ""
  | None => True
  end ->
  (frac_text fp ++ exp_text ex)%string <> "" ->
  Json.scan_number (Float.sign_string neg ++ numeral_text ip fp ex)
  = Some (Float.sign_string neg ++ numeral_text ip fp ex, true, "").
Proof.
  intros Hip Hfp Hex Hreal. unfold Json.scan_number.
  assert (Hsign :
    match (Float.sign_string neg ++ numeral_text ip fp ex)%string with
    | String c r =>
        if Ascii.eqb c "-" then ("-", r)
        else ("", (Float.sign_string neg ++ numeral_text ip fp ex)%string)
    | EmptyString => ("", (Float.sign_string neg ++ numeral_text ip fp ex)%string)
    end = (Float.sign_string neg, numeral_text ip fp ex)).
  { destruct neg; [reflexivity|]. cbn [Float.sign_string append].
    unfold numeral_text.
    destruct Hip as [->|(d & r & -> & Hd & _)]; [reflexivity|].
    cbn [append]. destruct (digit_head d Hd) as (-> & _). reflexivity. }
  rewrite Hsign. unfold numeral_text at 1.
  rewrite (scan_int_part_text ip _ Hip (frac_exp_stops fp ex)).
  rewrite (scan_frac_text fp ex Hfp), (scan_exp_text ex Hex).
  unfold numeral_text.
  destruct (frac_text fp ++ exp_text ex)%string; [contradiction|].
  reflexivity.
Qed.

Lemma numeral_parts_digits ip fp ex :
  numeral_parts ip fp ex -> digit_parts ip fp ex.
Proof.
  intros (Hip & Hfp & Hex & _). unfold digit_parts.
  assert (forallb_string is_digit ip = true /\ ip <> "") as [H1 H2].
  { destruct Hip as [->|(d & r & -> & Hd & _ & Hr)].
    - split; [reflexivity|discriminate].
    - split; [cbn [forallb_string]; now rewrite Hd|discriminate]. }
  repeat split; try assumption.
  destruct fp as [f|]; [apply Hfp|reflexivity].
Qed.

Lemma numeral_text_chars ip fp ex :
  numeral_parts ip fp ex ->
  exists d r, numeral_text ip fp ex = String d r /\
    is_digit d = true /\ forallb_string numeral_char r = true.
Proof.
  intros Hparts. destruct (numeral_parts_digits _ _ _ Hparts)
    as (Hip & Hne & Hfp & Hex).
  assert (Htail : forallb_string numeral_char (frac_text fp ++ exp_text ex) = true).
  { rewrite forallb_string_append. apply andb_true_intro. split.
    - destruct fp as [f|]; [|reflexivity]. cbn [frac_text forallb_string].
      now rewrite (digits_are_numeral f Hfp).
    - destruct ex as [[neg ed]|]; [|reflexivity]. destruct Hex as [Hed _].
      cbn [exp_text forallb_string]. rewrite forallb_string_append.
      rewrite (digits_are_numeral ed Hed). now destruct neg. }
  unfold numeral_text. destruct ip as [|d r]; [contradiction|].
  cbn [forallb_string] in Hip. apply andb_prop in Hip as [Hd Hr].
  exists d, (r ++ frac_text fp ++ exp_text ex)%string. repeat split.
  - exact Hd.
  - rewrite forallb_string_append, Htail, (digits_are_numeral r Hr). reflexivity.
Qed.

(** A numeral in parts is read by [float] and matched by [json.loads]. *)
Lemma numeral_text_reads neg ip fp ex :
  numeral_parts ip fp ex ->
  let text := (Float.sign_string neg ++ numeral_text ip fp ex)%string in
  Float.of_string text
  = Some (Float.of_decimal neg (value (ip ++ frac_digits fp))
            (exp_value ex - len (frac_digits fp))) /\
  Json.scan_number text = Some (text, true, "").
Proof.
  intros Hparts text. split.
  - destruct (numeral_text_chars ip fp ex Hparts) as (d & r & E & Hd & Hr).
    unfold text. rewrite E. apply of_string_numeral; [exact Hd|exact Hr|].
    rewrite <- E. apply read_decimal_text, numeral_parts_digits, Hparts.
  - destruct Hparts as (Hip & Hfp & Hex & Hreal).
    now apply scan_number_text.
Qed.

Lemma take_drop n : forall s, (take n s ++ drop n s)%string = s.
Proof.
  induction n as [|k IH]; intros s; [reflexivity|].
  destruct s as [|c r]; [reflexivity|]. cbn [take drop append]. now rewrite IH.
Qed.

Lemma length_drop n : forall s,
  String.length (drop n s) = (String.length s - n)%nat.
Proof.
  induction n as [|k IH]; intros s; cbn [drop]; [lia|].
  destruct s as [|c r]; [reflexivity|]. cbn [String.length]. apply IH.
Qed.

Lemma pad_text w n : 0 <= n ->
  forallb_string is_digit (pad w n) = true /\ pad w n <> "" /\
  value (pad w n) = n.
Proof.
  intros Hn. unfold pad. change (digit_chr 0) with "0"%char.
  destruct (digits_spec n Hn) as (Hall & Hval & c & r & E & _).
  repeat split.
  - now rewrite forallb_string_append, digits_zeros, Hall.
  - rewrite E. destruct (Text.repeat_char "0" _); discriminate.
  - now rewrite value_zeros_append.
Qed.

Lemma zeros_cons n :
  String "0" (Text.repeat_char "0" n) = Text.repeat_char "0" (S n).
Proof. reflexivity. Qed.

Lemma value_zero_head s : value (String "0" s) = value s.
Proof. reflexivity. Qed.

(** Every layout of [repr] is a numeral in parts, of the value of its
    digits at the decimal point. *)
Lemma layout_reads neg d1 rest decpt :
  is_digit d1 = true -> d1 <> "0"%char ->
  forallb_string is_digit rest = true ->
  0 < value (String d1 rest) ->
  let ds := String d1 rest in
  let text := (Float.sign_string neg ++ Float.layout ds decpt)%string in
  Float.of_string text
  = Some (Float.of_decimal neg (value ds) (decpt - len ds)) /\
  Json.scan_number text = Some (text, true, "").
Proof.
  intros Hd1 Hnz Hrest Hpos ds text.
  assert (Hds : forallb_string is_digit ds = true).
  { unfold ds. cbn [forallb_string]. now rewrite Hd1. }
  assert (Hip : exists d r, ds = String d r /\ is_digit d = true /\
                  d <> "0"%char /\ forallb_string is_digit r = true).
  { exists d1, rest. auto. }
  assert (Hlen : len ds = 1 + len rest).
  { unfold ds, len. cbn [String.length]. lia. }
  (* it is enough to name the parts and compare the values *)
  assert (Hparts : forall ip fp ex,
            Float.layout ds decpt = numeral_text ip fp ex ->
            numeral_parts ip fp ex ->
            Float.of_decimal neg (value (ip ++ frac_digits fp))
              (exp_value ex - len (frac_digits fp))
            = Float.of_decimal neg (value ds) (decpt - len ds) ->
            Float.of_string text
            = Some (Float.of_decimal neg (value ds) (decpt - len ds)) /\
            Json.scan_number text = Some (text, true, "")).
  { intros ip fp ex E Hp Hv. unfold text. rewrite E, <- Hv.
    exact (numeral_text_reads neg ip fp ex Hp). }
  destruct ((decpt <=? -4) || (16 <? decpt)) eqn:Hexp.
  - (* exponent notation *)
    set (ex := decpt - 1).
    destruct (pad_text 2 (Z.abs ex) ltac:(lia)) as (Hpd & Hpne & Hpv).
    apply (Hparts (String d1 "")
             (match rest with EmptyString => None | _ => Some rest end)
             (Some (ex <? 0, pad 2 (Z.abs ex)))).
    + unfold Float.layout. rewrite Hexp. fold ex. unfold ds, numeral_text.
      cbn [take drop]. destruct rest; reflexivity.
    + repeat split.
      * right. exists d1, "". auto.
      * destruct rest; [exact I|]. split; [exact Hrest|discriminate].
      * exact Hpd.
      * exact Hpne.
      * destruct rest; discriminate.
    + assert (Ev : exp_value (Some (ex <? 0, pad 2 (Z.abs ex))) = ex).
      { cbn [exp_value]. rewrite Hpv. destruct (ex <? 0) eqn:E0;
          [apply Z.ltb_lt in E0|apply Z.ltb_ge in E0]; lia. }
      rewrite Ev. f_equal.
      * destruct rest; reflexivity.
      * destruct rest as [|c t]; cbn [frac_digits]; unfold ex; lia.
  - destruct (orb_false_elim _ _ Hexp) as [H4 H16].
    apply Z.leb_gt in H4. apply Z.ltb_ge in H16.
    destruct (decpt <=? 0) eqn:H0.
    + (* zeros after the point *)
      apply (Hparts "0" (Some (Float.zeros (- decpt) ++ ds)%string) None).
      * unfold Float.layout. rewrite Hexp, H0.
        unfold numeral_text. cbn [frac_text exp_text append].
        now rewrite append_nil_r.
      * repeat split.
        -- now left.
        -- unfold Float.zeros. now rewrite forallb_string_append, digits_zeros.
        -- unfold ds. destruct (Float.zeros (- decpt)); discriminate.
        -- discriminate.
      * apply Z.leb_le in H0.
        cbn [frac_digits exp_value append]. unfold Float.zeros.
        rewrite value_zero_head, value_zeros_append. f_equal.
        rewrite len_append. fold (Float.zeros (- decpt)).
        rewrite len_zeros by lia. lia.
    + destruct (len ds <=? decpt) eqn:Hnd.
      * (* zeros before the point *)
        apply (Hparts (ds ++ Float.zeros (decpt - len ds))%string
                 (Some "0") None).
        -- unfold Float.layout. rewrite Hexp, H0, Hnd.
           unfold numeral_text. cbn [frac_text exp_text].
           now rewrite append_assoc.
        -- repeat split; try discriminate.
           right. exists d1, (rest ++ Float.zeros (decpt - len ds))%string.
           repeat split; try assumption.
           unfold Float.zeros.
           now rewrite forallb_string_append, digits_zeros, Hrest.
        -- apply Z.leb_le in Hnd.
           cbn [frac_digits exp_value]. unfold Float.zeros.
           rewrite append_assoc, repeat_char_snoc, zeros_cons.
           rewrite value_append_zeros.
           rewrite of_decimal_shift by (try exact Hpos; lia). f_equal.
           change (len "0") with 1. lia.
      * (* the point among the digits *)
        assert (H0' : 0 < decpt) by (apply Z.leb_gt; exact H0).
        assert (Hnd' : decpt < len ds) by (apply Z.leb_gt; exact Hnd).
        set (k := Z.to_nat decpt).
        assert (Hk : (0 < k < String.length ds)%nat)
          by (unfold k, len in *; lia).
        pose proof (take_drop k ds) as Htd.
        assert (Htk : exists r, take k ds = String d1 r /\
                        forallb_string is_digit r = true).
        { destruct k as [|j]; [lia|]. unfold ds. cbn [take].
          exists (take j rest). split; [reflexivity|].
          pose proof (take_drop j rest) as E. rewrite <- E in Hrest.
          rewrite forallb_string_append in Hrest.
          now apply andb_prop in Hrest as [? _]. }
        destruct Htk as (r & Etk & Hr).
        assert (Hdr : forallb_string is_digit (drop k ds) = true).
        { rewrite <- Htd, forallb_string_append in Hds.
          now apply andb_prop in Hds as [_ ?]. }
        assert (Hdl : len (drop k ds) = len ds - decpt).
        { unfold len. rewrite length_drop. unfold k, len in *. lia. }
        apply (Hparts (take k ds) (Some (drop k ds)) None).
        -- unfold Float.layout. rewrite Hexp, H0, Hnd.
           fold k. unfold numeral_text. cbn [frac_text exp_text append].
           now rewrite append_nil_r.
        -- repeat split; try discriminate.
           ++ right. exists d1, r. auto.
           ++ exact Hdr.
           ++ intros E. rewrite E in Hdl. change (len "") with 0 in Hdl. lia.
        -- cbn [frac_digits exp_value]. rewrite Htd, Hdl. f_equal. lia.
Qed.

(** [repr] of a finite float is a numeral that reads back as the float. *)
Lemma repr_reads s m e :
  canonical m e ->
  Float.of_string (Float.repr (S754_finite s m e)) = Some (S754_finite s m e) /\
  Json.scan_number (Float.repr (S754_finite s m e))
  = Some (Float.repr (S754_finite s m e), true, "").
Proof.
  intros Hcan. unfold Float.repr.
  pose proof (shortest_reads m e 16 1) as Hshort.
  destruct (Float.fraction m e) as [n d]. cbn [fst snd] in Hshort.
  destruct (Float.shortest 16 m e (Float.ilog10 n d) 1) as [c p].
  destruct (Hshort c p Hcan eq_refl) as [Hc Hback].
  destruct (digits_point_spec c p Hc)
    as (z & d1 & rest & Eds & Hd1 & Hnz & Hrest & Hval & Ept).
  destruct (Float.digits_point c p) as [ds decpt]. cbn [fst snd] in Eds, Ept.
  subst ds.
  assert (Hpos : 0 < value (String d1 rest)).
  { pose proof (pow10_pos (Z.of_nat z) ltac:(lia)). nia. }
  destruct (layout_reads s d1 rest decpt Hd1 Hnz Hrest Hpos) as [Hread Hscan].
  split; [|exact Hscan].
  rewrite Hread. f_equal.
  replace (decpt - len (String d1 rest)) with (p + Z.of_nat z) by lia.
  rewrite <- of_decimal_shift by lia. rewrite <- Hval.
  exact (of_decimal_sign false s c p m e Hback).
Qed.

Lemma float_eqb_refl x : Float.eqb x x = true.
Proof.
  destruct x as [a|a| |a m e]; cbn [Float.eqb]; try reflexivity.
  - apply Bool.eqb_reflx.
  - apply Bool.eqb_reflx.
  - now rewrite Bool.eqb_reflx, Pos.eqb_refl, Z.eqb_refl.
Qed.

(** Every float of binary64 reads back from the text [json.dumps] writes
    for it. *)
Lemma reads_back_valid x : Float.valid x = true -> reads_back x = true.
Proof.
  destruct x as [s|s| |s m e]; intros Hv; try reflexivity.
  - destruct s; vm_compute; reflexivity.
  - apply valid_canonical in Hv. destruct (repr_reads s m e Hv) as [Hread Hscan].
    unfold reads_back. rewrite Hscan, Hread.
    now rewrite String.eqb_refl, float_eqb_refl.
Qed.

(** *** The floats [float(s)] returns *)

Lemma span_digits_digits s :
  forallb_string is_digit (fst (Float.span_digits s)) = true.
Proof.
  induction s as [|c r IH]; [reflexivity|]. cbn [Float.span_digits].
  destruct (is_digit c) eqn:E; [|reflexivity].
  destruct (Float.span_digits r) as [d t]. cbn [fst forallb_string] in *.
  now rewrite E, IH.
Qed.

Lemma value_acc_nonneg s : forall a,
  forallb_string is_digit s = true -> 0 <= a -> 0 <= value_acc s a.
Proof.
  induction s as [|c r IH]; intros a Hs Ha; [exact Ha|].
  cbn [forallb_string value_acc] in *. apply andb_prop in Hs as [Hc Hr].
  apply IH; [exact Hr|].
  unfold is_digit, digit_val in *. apply andb_prop in Hc as [H1 H2].
  apply Z.leb_le in H1. lia.
Qed.

Lemma read_decimal_nonneg s mant ex :
  Float.read_decimal s = Some (mant, ex) -> 0 <= mant.
Proof.
  unfold Float.read_decimal.
  pose proof (span_digits_digits s) as Hip.
  destruct (Float.span_digits s) as [ip r1]. cbn [fst] in Hip.
  assert (Hfp : forallb_string is_digit
            (fst match r1 with
                 | String c t =>
                     if Ascii.eqb c "." then Float.span_digits t
                     else (EmptyString, r1)
                 | EmptyString => (EmptyString, r1)
                 end) = true).
  { destruct r1 as [|c t]; [reflexivity|].
    destruct (Ascii.eqb c "."); [apply span_digits_digits|reflexivity]. }
  destruct (match r1 with
            | String c t =>
                if Ascii.eqb c "." then Float.span_digits t
                else (EmptyString, r1)
            | EmptyString => (EmptyString, r1)
            end) as [fp r2]. cbn [fst] in Hfp.
  assert (Hds : 0 <= value (ip ++ fp)).
  { apply value_acc_nonneg; [|lia].
    now rewrite forallb_string_append, Hip, Hfp. }
  destruct (ip ++ fp)%string as [|c t]; [discriminate|].
  destruct (Float.read_exponent r2); [|discriminate].
  intros H. injection H as <- _. exact Hds.
Qed.

(** [float(s)] returns floats of binary64 only. *)
Lemma of_string_valid s x : Float.of_string s = Some x -> Float.valid x = true.
Proof.
  unfold Float.of_string.
  destruct (Float.split_sign (strip s)) as [neg body].
  destruct (String.eqb (lower body) "inf" || String.eqb (lower body) "infinity").
  - intros H. injection H as <-. reflexivity.
  - destruct (String.eqb (lower body) "nan").
    + intros H. injection H as <-. reflexivity.
    + destruct (Float.drop_underscores false body) as [t|]; [|discriminate].
      destruct (Float.read_decimal t) as [[mant ex]|] eqn:E; [|discriminate].
      intros H. injection H as <-.
      apply of_decimal_valid. exact (read_decimal_nonneg t mant ex E).
Qed.

End FloatFacts.

(** The amount of a command is a float of binary64, so it reads back. *)
Lemma command_amount_valid content symbol fiat channel_id amount :
  command_args content = Ok (symbol, fiat, channel_id, amount) ->
  Float.valid amount = true.
Proof.
  unfold command_args. cbv zeta.
  destruct (Py.index (Text.split content) 1) as [p1|]; [|discriminate].
  destruct (Py.index (Text.split content) 2) as [p2|]; [|discriminate].
  destruct (Py.index (Text.split content) 3) as [p3|]; [|discriminate].
  destruct (Py.int_of_string p3) as [cid|]; [|discriminate].
  destruct (4 <? Z.of_nat (List.length (Text.split content))).
  - destruct (Py.index (Text.split content) 4) as [p4|]; [|discriminate].
    cbn [Py.to_float].
    destruct (Float.of_string p4) as [x|] eqn:E; [|discriminate].
    intros H. inversion H; subst. exact (of_string_valid p4 amount E).
  - intros H. inversion H; subst. reflexivity.
Qed.

Lemma command_amount_reads_back content symbol fiat channel_id amount :
  command_args content = Ok (symbol, fiat, channel_id, amount) ->
  reads_back amount = true.
Proof.
  intros H. apply reads_back_valid. exact (command_amount_valid _ _ _ _ _ H).
Qed.

(** ** The store on disk *)

Lemma each_member_Forall P kvs :
  Forall (fun kv : string * json => P (snd kv)) kvs -> each_member P kvs.
Proof.
  induction 1 as [|[k v] r Hv _ IH]; simpl; auto.
Qed.

Lemma tracked_item_faithful message_id symbol fiat amount channel_id :
  reads_back amount = true ->
  faithful (tracked_item message_id symbol fiat amount channel_id).
Proof.
  intros Ha. unfold tracked_item. simpl. split; [|tauto].
  repeat constructor; simpl; intuition discriminate.
Qed.

Lemma well_formed_store_faithful store :
  well_formed_store store -> faithful store.
Proof.
  intros (kvs & -> & Hnd & Hall). simpl. split; [exact Hnd|].
  apply each_member_Forall. eapply Forall_impl; [|exact Hall].
  intros [k v] (mid & sym & fiat & a & cid & -> & Ha & _).
  now apply tracked_item_faithful, reads_back_valid.
Qed.

(** C4. Saving a well-formed store and loading it back gives the same
    mapping, keys in the same order, provided the cache file can be
    written and, if it exists already, read. *)
Theorem save_then_load env s store :
  well_formed_store store ->
  cache_writable env = true ->
  (forall f, cache_file s = Some f -> readable f = true) ->
  let saved := Bot.save_cache store env s in
  fst saved = Ok tt /\
  fst (Bot.load_cache env (snd saved)) = Ok store.
Proof.
  intros Hwf Hw Hr saved. subst saved.
  unfold Bot.save_cache, IO.write_cache_file. rewrite Hw.
  split; [reflexivity|].
  unfold Bot.load_cache. run. cbn [cache_file readable content].
  assert (Hreadable : match cache_file s with
                      | Some f => readable f
                      | None => true
                      end = true).
  { destruct (cache_file s) as [f|]; [now apply Hr|reflexivity]. }
  rewrite Hreadable.
  now rewrite (loads_dumps store (well_formed_store_faithful store Hwf)).
Qed.

Lemma save_then_load_witness :
  fst (Bot.load_cache Scenario.world
         (snd (Bot.save_cache Scenario.btc_store Scenario.world Scenario.fresh)))
  = Ok Scenario.btc_store.
Proof.
  apply (save_then_load Scenario.world Scenario.fresh Scenario.btc_store).
  - exists [("1-BTC-USD-0", Scenario.btc_item)]. split; [reflexivity|]. split.
    + repeat constructor. simpl. tauto.
    + repeat constructor. simpl.
      exists 555, "BTC", "USD", Scenario.two, 1.
      split; [reflexivity|]. split; reflexivity.
  - reflexivity.
  - intros f Hf. discriminate Hf.
Defined.

(** ** Keys *)

Section KeyFacts.
Import Text Numeral.

Lemma existsb_string_append f (a b : string) :
  existsb_string f (a ++ b) = existsb_string f a || existsb_string f b.
Proof.
  induction a as [|c r IH]; simpl; [reflexivity|].
  rewrite IH. now rewrite orb_assoc.
Qed.

Lemma after_last_dash_append x d :
  existsb_string (Ascii.eqb "-") d = false ->
  after_last_dash (x ++ String "-" d) = d.
Proof.
  intros Hd. induction x as [|c r IH]; simpl.
  - now rewrite Hd.
  - rewrite existsb_string_append. simpl. rewrite orb_true_r. exact IH.
Qed.

Lemma digits_no_dash (ds : string) :
  forallb_string is_digit ds = true ->
  existsb_string (Ascii.eqb "-") ds = false.
Proof.
  induction ds as [|c r IH]; cbn [forallb_string existsb_string];
    [reflexivity|]. intros H.
  apply andb_prop in H as [Hc Hr]. rewrite (IH Hr), orb_false_r.
  destruct (Ascii.eqb "-" c) eqn:E; [|reflexivity].
  apply Ascii.eqb_eq in E. subst c. discriminate.
Qed.

Lemma of_Z_no_dash n : 0 <= n ->
  existsb_string (Ascii.eqb "-") (of_Z n) = false.
Proof.
  intros Hn. unfold of_Z. destruct (n <? 0) eqn:E.
  - apply Z.ltb_lt in E. lia.
  - apply digits_no_dash. now destruct (digits_spec n Hn).
Qed.

Lemma of_Z_inj a b : of_Z a = of_Z b -> a = b.
Proof.
  intros H. rewrite <- (value_of_Z a), <- (value_of_Z b). now rewrite H.
Qed.

Lemma tracked_key_size channel_id symbol fiat size : 0 <= size ->
  after_last_dash (tracked_key channel_id symbol fiat size) = of_Z size.
Proof.
  intros Hs. unfold tracked_key.
  replace (of_Z channel_id ++ "-" ++ symbol ++ "-" ++ fiat ++ "-" ++ of_Z size)
    with ((of_Z channel_id ++ "-" ++ symbol ++ "-" ++ fiat)
          ++ String "-" (of_Z size)).
  - apply after_last_dash_append. now apply of_Z_no_dash.
  - rewrite !append_assoc. reflexivity.
Qed.

(** Keys derived at different sizes of the store differ, whatever the
    channel, the symbol and the fiat. *)
Lemma tracked_key_inj c1 s1 f1 n1 c2 s2 f2 n2 :
  0 <= n1 -> 0 <= n2 ->
  tracked_key c1 s1 f1 n1 = tracked_key c2 s2 f2 n2 -> n1 = n2.
Proof.
  intros H1 H2 E. apply of_Z_inj.
  rewrite <- (tracked_key_size c1 s1 f1 n1 H1),
          <- (tracked_key_size c2 s2 f2 n2 H2).
  now rewrite E.
Qed.

Lemma keyed_fresh kvs channel_id symbol fiat :
  keyed_by_position kvs ->
  ~ In (tracked_key channel_id symbol fiat (Z.of_nat (List.length kvs)))
       (map fst kvs).
Proof.
  intros Hk Hin. apply in_map_iff in Hin as ([k v] & Hfst & Hin).
  simpl in Hfst. subst k.
  apply In_nth_error in Hin as [i Hi].
  destruct (Hk i _ _ Hi) as (mid & sy & fi & a & ci & _ & Hkey).
  apply tracked_key_inj in Hkey; try lia.
  apply Nat2Z.inj in Hkey.
  assert (i < List.length kvs)%nat
    by (apply nth_error_Some; rewrite Hi; discriminate).
  lia.
Qed.

Lemma keyed_distinct kvs : keyed_by_position kvs -> NoDup (map fst kvs).
Proof.
  intros Hk. apply (proj2 (NoDup_nth_error (map fst kvs))).
  intros i j Hi E. rewrite length_map in Hi.
  assert (Hj : (j < List.length kvs)%nat).
  { apply nth_error_Some. intros Hn.
    rewrite !nth_error_map, Hn in E. simpl in E.
    destruct (nth_error kvs i) eqn:Ei; [discriminate|].
    apply nth_error_None in Ei. lia. }
  rewrite !nth_error_map in E.
  destruct (nth_error kvs i) as [[ki vi]|] eqn:Ei;
    [|apply nth_error_None in Ei; lia].
  destruct (nth_error kvs j) as [[kj vj]|] eqn:Ej;
    [|apply nth_error_None in Ej; lia].
  simpl in E. inversion E; subst kj.
  destruct (Hk i _ _ Ei) as (? & ? & ? & ? & ? & _ & Hki).
  destruct (Hk j _ _ Ej) as (? & ? & ? & ? & ? & _ & Hkj).
  rewrite Hki in Hkj. apply tracked_key_inj in Hkj; lia.
Qed.

Lemma keyed_snoc kvs message_id symbol fiat amount channel_id :
  keyed_by_position kvs ->
  keyed_by_position
    (kvs ++ [(tracked_key channel_id symbol fiat (Z.of_nat (List.length kvs)),
              tracked_item message_id symbol fiat amount channel_id)]).
Proof.
  intros Hk i k v Hi.
  destruct (Nat.lt_ge_cases i (List.length kvs)) as [Hlt|Hge].
  - rewrite nth_error_app1 in Hi by exact Hlt. eauto.
  - rewrite nth_error_app2 in Hi by exact Hge.
    destruct (i - List.length kvs)%nat as [|n] eqn:En; simpl in Hi.
    + inversion Hi; subst. replace i with (List.length kvs) by lia.
      eexists _, _, _, _, _. split; reflexivity.
    + destruct n; discriminate.
Qed.

End KeyFacts.

(** ** Sequences of commands *)

Lemma handle_all_app env before after s :
  handle_all env (before ++ after) s
  = handle_all env after (handle_all env before s).
Proof. revert s. induction before as [|m r IH]; simpl; auto. Qed.

Lemma built_holds env s kvs :
  built s kvs -> keyed_by_position kvs -> Forall item_reads_back kvs ->
  holds env s kvs.
Proof.
  intros Hb Hk Hall. unfold holds, Bot.load_cache. run.
  destruct Hb as [[-> ->] | ->]; [reflexivity|].
  cbn [readable content]. rewrite loads_dumps; [reflexivity|].
  simpl. split; [now apply keyed_distinct|].
  apply each_member_Forall. eapply Forall_impl; [|exact Hall].
  intros [k v] (mid & sy & fi & a & ci & Hv & Ha). simpl in Hv. subst v.
  now apply tracked_item_faithful.
Qed.

(** One command, on a store built by commands: the store is left as it
    is, or it gains one entry at its end, under the key derived from
    its size. *)
Lemma on_message_step env s m kvs :
  built s kvs -> keyed_by_position kvs -> Forall item_reads_back kvs ->
  let s' := snd (Bot.on_message m env s) in
  built s' kvs \/
  exists message_id symbol fiat amount channel_id,
    reads_back amount = true /\
    built s'
      (kvs ++ [(tracked_key channel_id symbol fiat (Z.of_nat (List.length kvs)),
                tracked_item message_id symbol fiat amount channel_id)]).
Proof.
  intros Hb Hk Hall s'.
  destruct (on_message_cases env s m) as [Same|Done]; fold s' in Same || fold s' in Done.
  - left. unfold built in *. now rewrite Same.
  - right. destruct Done as
      [symbol fiat channel_id amount data s1 embed image_path cache size chan
         message_id cache' tail _ _ Hargs Hfetch _ _ Hload Hlen _ _ _ Hset _
         Hfile _].
    pose proof (get_crypto_data_quiet (JStr symbol) (JStr fiat) env s) as Hq.
    rewrite Hfetch in Hq. destruct Hq as [Hsame _]. cbn [snd] in Hsame.
    pose proof (built_holds env s kvs Hb Hk Hall) as Hholds.
    unfold holds in Hholds.
    rewrite <- (load_cache_reads_file env s s1 Hsame), Hload in Hholds.
    cbn [fst] in Hholds. inversion Hholds; subst cache.
    simpl in Hlen. inversion Hlen; subst size.
    simpl in Hset. inversion Hset; subst cache'.
    rewrite dict_set_fresh in Hfile by now apply keyed_fresh.
    exists message_id, symbol, fiat, amount, channel_id.
    split; [exact (command_amount_reads_back _ _ _ _ _ Hargs)|].
    right. rewrite Hfile. f_equal. f_equal.
    destruct Hb as [[-> _] | ->]; reflexivity.
Qed.

Lemma handle_all_built env messages : forall s kvs,
  built s kvs -> keyed_by_position kvs -> Forall item_reads_back kvs ->
  exists kvs', built (handle_all env messages s) kvs' /\
    keyed_by_position kvs' /\ Forall item_reads_back kvs'.
Proof.
  induction messages as [|m r IH]; intros s kvs Hb Hk Hall; simpl.
  - eauto.
  - destruct (on_message_step env s m kvs Hb Hk Hall)
      as [Hb' | (mid & sy & fi & a & ci & Ha & Hb')].
    + eapply IH; eauto.
    + eapply IH; [exact Hb' | now apply keyed_snoc |].
      apply Forall_app. split; [exact Hall|]. constructor; [|constructor].
      eexists _, _, _, _, _. split; [reflexivity|exact Ha].
Qed.

(** C8. Starting without a cache file and handling any messages one
    after the other: every command leaves the store as it is or adds one
    entry under a key that no entry of the store has; and in the end
    every entry is filed under the key derived from its channel, its
    symbol, its fiat and its position, and no two entries share a key. *)
Theorem keys_identify_records env messages s0 :
  cache_file s0 = None ->
  (forall before m after, messages = (before ++ m :: after)%list ->
     exists kvs,
       holds env (handle_all env before s0) kvs /\
       (holds env (handle_all env (before ++ [m]) s0) kvs \/
        exists message_id symbol fiat amount channel_id,
          let key := tracked_key channel_id symbol fiat
                       (Z.of_nat (List.length kvs)) in
          ~ In key (map fst kvs) /\
          holds env (handle_all env (before ++ [m]) s0)
            (kvs ++ [(key, tracked_item message_id symbol fiat amount channel_id)]))) /\
  (exists kvs,
     holds env (handle_all env messages s0) kvs /\
     keyed_by_position kvs /\ NoDup (map fst kvs)).
Proof.
  intros Hnone.
  assert (Hstart : built s0 []) by (left; auto).
  assert (Hk0 : keyed_by_position []).
  { intros i k v Hi. destruct i; discriminate. }
  split.
  - intros before m after ->.
    destruct (handle_all_built env before s0 [] Hstart Hk0 (Forall_nil _))
      as (kvs & Hb & Hk & Hall).
    exists kvs. split; [now apply built_holds|].
    rewrite handle_all_app. simpl.
    destruct (on_message_step env _ m kvs Hb Hk Hall)
      as [Hb' | (mid & sy & fi & a & ci & Ha & Hb')].
    + left. now apply built_holds.
    + right. exists mid, sy, fi, a, ci. split; [now apply keyed_fresh|].
      apply built_holds; [exact Hb' | now apply keyed_snoc |].
      apply Forall_app. split; [exact Hall|]. constructor; [|constructor].
      eexists _, _, _, _, _. split; [reflexivity|exact Ha].
  - destruct (handle_all_built env messages s0 [] Hstart Hk0 (Forall_nil _))
      as (kvs & Hb & Hk & Hall).
    exists kvs. split; [now apply built_holds|].
    split; [exact Hk | now apply keyed_distinct].
Qed.

Lemma keys_identify_records_witness :
  exists kvs,
    holds Scenario.world
      (handle_all Scenario.world Scenario.session Scenario.fresh) kvs /\
    map fst kvs = ["42-ETH-EUR-0"; "42-ETH-EUR-1"; "1-BTC-USD-2"] /\
    NoDup (map fst kvs).
Proof.
  destruct (proj2 (keys_identify_records Scenario.world Scenario.session
                     Scenario.fresh eq_refl))
    as (kvs & Hholds & _ & Hnd).
  exists kvs. split; [exact Hholds|]. split; [|exact Hnd].
  unfold holds in Hholds. vm_compute in Hholds. inversion Hholds.
  reflexivity.
Defined.

(** * More of the script *)

(** ** The price fetcher *)

(** Membership and subscription raise nothing but [TypeError] and
    [KeyError]. *)
Lemma contains_raises k v e :
  Py.contains k v = Raise e -> exn_kind e = TypeError /\ forall kvs, v <> JObj kvs.
Proof.
  destruct v; simpl; try discriminate; intros H; inversion H;
    (split; [reflexivity|discriminate]).
Qed.

Lemma getitem_raises v k e :
  Py.getitem v k = Raise e ->
  match v with
  | JObj kvs => Py.lookup kvs k = None /\ exn_kind e = KeyError
  | _ => exn_kind e = TypeError
  end.
Proof.
  destruct v; simpl; try (intros H; inversion H; reflexivity).
  destruct (Py.lookup kvs k); [discriminate|].
  intros H; inversion H. split; reflexivity.
Qed.

Lemma contains_getitem k v :
  Py.contains k v = Ok true -> forall kvs, v = JObj kvs ->
  exists x, Py.lookup kvs k = Some x /\ Py.getitem v k = Ok x.
Proof.
  intros H kvs ->. simpl in *. destruct (Py.lookup kvs k) as [x|]; [|discriminate].
  exists x. split; reflexivity.
Qed.

(** The fetcher sends one request. *)
Lemma get_crypto_data_requests env s symbol fiat :
  exists l,
    history (snd (Bot.get_crypto_data symbol fiat env s)) = (history s ++ l)%list /\
    requests l = 1%nat.
Proof.
  unfold Bot.get_crypto_data.
  repeat plain_step; cbn [cache_file history];
    rewrite <- ?app_assoc; cbn [app];
    eexists; (split; reflexivity).
Qed.

(** X1. Whatever the price service answers, [get_crypto_data] sends
    exactly one request, for the pair [<symbol>-<fiat>], before anything
    else; all it does besides is print to the console, and it leaves the
    cache file alone.  There is no second attempt. *)
Theorem fetch_makes_one_request env s symbol fiat :
  let pair := PyStr.str symbol ++ "-" ++ PyStr.str fiat in
  let s' := snd (Bot.get_crypto_data symbol fiat env s) in
  cache_file s' = cache_file s /\
  exists l, history s' = (history s ++ Requested pair :: l)%list /\
            Forall is_print l.
Proof.
  intros pair s'. subst s'. unfold Bot.get_crypto_data. fold pair.
  repeat plain_step; cbn [cache_file history];
    (split; [reflexivity|]);
    rewrite <- ?app_assoc; cbn [app];
    eexists; (split; [reflexivity|]); repeat constructor.
Qed.

(** X2. When [get_crypto_data] raises, the exception is the one
    [requests.post] raised, of a class other than [requests]' own, or it
    is a [TypeError] met on a response that decodes to something other
    than an object whose ["data"] is an object. *)
Theorem fetch_raises_type_error env s symbol fiat e :
  let pair := PyStr.str symbol ++ "-" ++ PyStr.str fiat in
  fst (Bot.get_crypto_data symbol fiat env s) = Raise e ->
  (http_post env (history s) pair = HttpFailed e /\
   is_RequestException e = false) \/
  (exn_kind e = TypeError /\
   exists status body doc,
     http_post env (history s) pair = HttpResponse status body /\
     Json.loads body = Some doc /\ misshapen doc).
Proof.
  intros pair. unfold Bot.get_crypto_data. fold pair. run.
  destruct (http_post env (history s) pair) as [e0|status body] eqn:Hout; run.
  - destruct (is_RequestException e0) eqn:He0; run; [discriminate|].
    intros H; inversion H; subst. left. split; [reflexivity|exact He0].
  - intros H. right.
    destruct ((400 <=? status) && (status <? 600)); run; [discriminate|].
    destruct (Json.loads body) as [doc|] eqn:Hdoc; run; [|discriminate].
    assert (Hshape : exn_kind e = TypeError /\ misshapen doc);
      [|destruct Hshape; split; [assumption|]; exists status, body, doc; auto].
    destruct (Py.contains "data" doc) as [[|]|e1] eqn:Hc; run.
    + destruct (Py.getitem doc "data") as [inner|e2] eqn:Hg; run.
      * destruct (Py.contains pair inner) as [[|]|e3] eqn:Hc2; run.
        -- destruct (Py.getitem inner pair) as [w|e4] eqn:Hg2; run;
             [discriminate|].
           destruct (is_RequestException e4); run; [discriminate|].
           inversion H; subst e4.
           apply getitem_raises in Hg2.
           destruct inner; try (split; [exact Hg2|]).
           7:{ exfalso. destruct (contains_getitem _ _ Hc2 _ eq_refl)
                 as (x & Hx & _). destruct Hg2. congruence. }
           all: destruct doc; try exact I; simpl in Hg |- *;
             destruct (Py.lookup kvs "data") as [y|]; inversion Hg; subst;
             eexists; split; [reflexivity|discriminate].
        -- discriminate.
        -- destruct (is_RequestException e3); run; [discriminate|].
           inversion H; subst e3. apply contains_raises in Hc2 as [Hk Hno].
           split; [exact Hk|].
           destruct doc; try exact I. simpl in Hg |- *.
           destruct (Py.lookup kvs "data") as [y|]; inversion Hg; subst.
           exists inner. split; [reflexivity|exact Hno].
      * destruct (is_RequestException e2); run; [discriminate|].
        inversion H; subst e2. apply getitem_raises in Hg.
        destruct doc; try (split; [exact Hg|exact I]).
        exfalso. destruct (contains_getitem _ _ Hc _ eq_refl) as (x & Hx & _).
        destruct Hg. congruence.
    + discriminate.
    + destruct (is_RequestException e1); run; [discriminate|].
      inversion H; subst e1. apply contains_raises in Hc as [Hk Hno].
      split; [exact Hk|]. destruct doc; try exact I.
      exfalso. eapply Hno. reflexivity.
Qed.

Lemma fetch_raises_type_error_witness :
  fst (Bot.get_crypto_data (JStr "BTC") (JStr "USD")
         Scenario.null_data Scenario.fresh)
  = Raise (Exn TypeError "argument of type 'NoneType' is not iterable") /\
  exists status body doc,
    http_post Scenario.null_data [] "BTC-USD" = HttpResponse status body /\
    Json.loads body = Some doc /\ misshapen doc.
Proof.
  assert (H : fst (Bot.get_crypto_data (JStr "BTC") (JStr "USD")
                     Scenario.null_data Scenario.fresh)
              = Raise (Exn TypeError "argument of type 'NoneType' is not iterable"))
    by (vm_compute; reflexivity).
  split; [exact H|].
  destruct (fetch_raises_type_error Scenario.null_data Scenario.fresh
              (JStr "BTC") (JStr "USD") _ H) as [[Hout _] | [_ Hdoc]].
  - vm_compute in Hout. discriminate Hout.
  - exact Hdoc.
Defined.

(** ** The store on disk *)

Lemma storable_faithful v : storable v -> faithful v.
Proof.
  induction v as [ | b | z | x | t | l IH | kvs IH ] using json_induction;
    cbn [storable faithful]; try tauto.
  - apply reads_back_valid.
  - induction IH as [|y r Hy _ IHr]; cbn [each_item]; [tauto|].
    intros [H1 H2]. split; auto.
  - intros [Hnd Hall]. split; [exact Hnd|].
    clear Hnd. induction IH as [|[k y] r Hy _ IHr]; cbn [each_member] in *;
      [tauto|].
    destruct Hall as [H1 H2]. split; auto.
Qed.

(** X3. [save_cache] followed by [load_cache] gives back any value
    of nested lists and mappings, whatever the file held before: the
    file is replaced as a whole by the text of the value, and that text
    decodes to the value, provided no mapping has a key twice, the file
    can be written and, if it exists already, read. *)
Theorem save_then_load_any_value env s v :
  storable v ->
  cache_writable env = true ->
  (forall f, cache_file s = Some f -> readable f = true) ->
  let saved := Bot.save_cache v env s in
  fst saved = Ok tt /\
  fst (Bot.load_cache env (snd saved)) = Ok v /\
  exists f, cache_file (snd saved) = Some f /\ content f = Json.dumps v.
Proof.
  intros Hv Hw Hr saved. subst saved.
  unfold Bot.save_cache, IO.write_cache_file. rewrite Hw.
  split; [reflexivity|]. cbn [snd]. split.
  - unfold Bot.load_cache. run. cbn [cache_file readable content].
    assert (Hreadable : match cache_file s with
                        | Some f => readable f
                        | None => true
                        end = true).
    { destruct (cache_file s) as [f|]; [now apply Hr|reflexivity]. }
    rewrite Hreadable.
    now rewrite (loads_dumps v (storable_faithful v Hv)).
  - eexists. split; reflexivity.
Qed.

Lemma save_then_load_any_value_witness :
  let v := JObj [("note", JStr "by hand");
                 ("items", JArr [JInt (-3); JFloat Scenario.half; JNull;
                                 JBool true; JObj []])] in
  fst (Bot.load_cache Scenario.world
         (snd (Bot.save_cache v Scenario.world (Scenario.on_disk "{oops"))))
  = Ok v.
Proof.
  intros v.
  apply (save_then_load_any_value Scenario.world (Scenario.on_disk "{oops") v).
  - cbn. repeat split; try reflexivity; try apply NoDup_nil.
    repeat constructor; simpl; intuition discriminate.
  - reflexivity.
  - intros f Hf. inversion Hf. reflexivity.
Defined.

(** ** The refresh tick *)

(** X4. A cache file that cannot be read, that is no JSON document,
    or whose document is not a mapping makes the tick raise ([OSError],
    [JSONDecodeError], [AttributeError]) before it has asked a price or
    touched a message. *)
Theorem tick_needs_a_store env s f :
  cache_file s = Some f ->
  (readable f = false ->
   exists e, Bot.update_crypto_prices env s = (Raise e, s) /\
             exn_kind e = OSError) /\
  (readable f = true -> Json.loads (content f) = None ->
   exists e, Bot.update_crypto_prices env s = (Raise e, s) /\
             exn_kind e = JSONDecodeError) /\
  (forall v, readable f = true -> Json.loads (content f) = Some v ->
   (forall kvs, v <> JObj kvs) ->
   exists e, Bot.update_crypto_prices env s = (Raise e, s) /\
             exn_kind e = AttributeError).
Proof.
  intros Hf. unfold Bot.update_crypto_prices, Bot.load_cache. run.
  rewrite Hf. repeat split.
  - intros ->. eexists. split; reflexivity.
  - intros -> ->. eexists. split; reflexivity.
  - intros v -> -> Hv. run.
    destruct v; run; try (eexists; split; reflexivity).
    exfalso. eapply Hv. reflexivity.
Qed.

Lemma tick_needs_a_store_witness :
  (exists e, Bot.update_crypto_prices Scenario.world (Scenario.on_disk "{oops")
             = (Raise e, Scenario.on_disk "{oops") /\
             exn_kind e = JSONDecodeError) /\
  (exists e, Bot.update_crypto_prices Scenario.world (Scenario.on_disk "[]")
             = (Raise e, Scenario.on_disk "[]") /\
             exn_kind e = AttributeError).
Proof.
  split.
  - apply (proj1 (proj2 (tick_needs_a_store Scenario.world
                           (Scenario.on_disk "{oops") _ eq_refl)));
      reflexivity.
  - apply (proj2 (proj2 (tick_needs_a_store Scenario.world
                           (Scenario.on_disk "[]") _ eq_refl)) (JArr []));
      [reflexivity | reflexivity | discriminate].
Defined.

(** X5. With no cache file, or with a cache file holding the empty
    mapping, the tick returns at once: no request, no edit, no line on
    the console. *)
Theorem tick_on_empty_store env s :
  cache_file s = None \/
  (exists f, cache_file s = Some f /\ readable f = true /\
             Json.loads (content f) = Some (JObj [])) ->
  Bot.update_crypto_prices env s = (Ok tt, s).
Proof.
  unfold Bot.update_crypto_prices, Bot.load_cache. run.
  intros [-> | (f & -> & -> & ->)]; reflexivity.
Qed.

Lemma tick_on_empty_store_witness :
  Bot.update_crypto_prices Scenario.down Scenario.fresh
  = (Ok tt, Scenario.fresh) /\
  Bot.update_crypto_prices Scenario.down
    (snd (Bot.save_cache (JObj []) Scenario.world Scenario.fresh))
  = (Ok tt, snd (Bot.save_cache (JObj []) Scenario.world Scenario.fresh)).
Proof.
  split.
  - apply tick_on_empty_store. left. reflexivity.
  - apply tick_on_empty_store. right. eexists. repeat split; reflexivity.
Defined.

Lemma refresh_only_refreshes data : quiet is_refresh_event (Bot.refresh data).
Proof.
  unfold Bot.refresh. quiet_script ltac:(first [exact I | contradiction]).
Qed.

(** X6. A tick asks for prices, prints, fetches posted messages and
    edits them; it never posts a new message, never replies and never
    saves the store. *)
Theorem tick_never_posts env s :
  let s' := snd (Bot.update_crypto_prices env s) in
  exists l, history s' = (history s ++ l)%list /\ Forall is_refresh_event l.
Proof.
  assert (H : quiet is_refresh_event Bot.update_crypto_prices).
  { unfold Bot.update_crypto_prices.
    quiet_script ltac:(first [exact I | contradiction]).
    apply refresh_only_refreshes. }
  exact (proj2 (H env s)).
Qed.



(** The image [create_embed] looks for, and the thumbnail it sets. *)
Lemma create_embed_image symbol fiat data amount env s embed image_path s' :
  Bot.create_embed symbol fiat data amount env s = (Ok (embed, image_path), s') ->
  image_path = Py.path_join Bot.IMAGES_FOLDER (PyStr.str symbol ++ ".png") /\
  thumbnail embed =
    match path env image_path with
    | Missing => None
    | _ => Some ("attachment://" ++ PyStr.str symbol ++ ".png")
    end.
Proof.
  unfold Bot.create_embed.
  repeat plain_step; try discriminate.
  all: intros H; injection H as <- <- <-; cbn [thumbnail];
    first [split; reflexivity | congruence].
Qed.








Lemma lookup_app kvs more k :
  Py.lookup (kvs ++ more) k =
  match Py.lookup kvs k with
  | Some v => Some v
  | None => Py.lookup more k
  end.
Proof.
  induction kvs as [|[k' v'] r IH]; cbn [app Py.lookup]; [reflexivity|].
  destruct (String.eqb k' k); [reflexivity|exact IH].
Qed.

(** X10. An entry without [amount] is refreshed exactly as the same
    entry with the amount [1.0]. *)
Theorem entry_without_amount_uses_one env s kvs :
  Py.lookup kvs "amount" = None ->
  Bot.refresh (JObj kvs) env s
  = Bot.refresh (JObj (kvs ++ [("amount", JFloat Float.one)])) env s.
Proof.
  intros Hnone.
  unfold Bot.refresh. cbn [Py.getitem Py.dict_get].
  rewrite !lookup_app, Hnone. cbn [Py.lookup String.eqb Ascii.eqb Bool.eqb].
  destruct (Py.lookup kvs "symbol"); [|reflexivity].
  destruct (Py.lookup kvs "fiat"); [|reflexivity].
  destruct (Py.lookup kvs "channel_id"); [|reflexivity].
  destruct (Py.lookup kvs "message_id"); reflexivity.
Qed.

Lemma entry_without_amount_uses_one_witness :
  let old := JObj [("message_id", JInt 555); ("symbol", JStr "BTC");
                   ("fiat", JStr "USD"); ("channel_id", JInt 1)] in
  exists embed l,
    history (snd (Bot.refresh old Scenario.world Scenario.fresh))
    = (l ++ [EditedEmbed 1 (JInt 555) embed;
             EditedAttachments 1 (JInt 555)
               [{| att_path := "images/BTC.png"; att_name := "BTC.png" |}]])%list /\
    fields embed =
      [ ("Current Price", "USD 50000.00", false);
        ("24h Change", "-1.23%", false);
        ("Value of 1.0 BTC", "USD 50000.00", false) ].
Proof.
  intros old. subst old.
  rewrite (entry_without_amount_uses_one Scenario.world Scenario.fresh
             [("message_id", JInt 555); ("symbol", JStr "BTC");
              ("fiat", JStr "USD"); ("channel_id", JInt 1)] eq_refl).
  eexists _, [_; _; _]. split; vm_compute; reflexivity.
Defined.

(** ** More of the tick *)



Lemma requests_app a b : requests (a ++ b) = (requests a + requests b)%nat.
Proof. unfold requests. now rewrite filter_app, length_app. Qed.

(** An entry costs one price request at most. *)
Lemma refresh_requests data env s :
  exists l,
    history (snd (Bot.refresh data env s)) = (history s ++ l)%list /\
    (requests l <= 1)%nat.
Proof.
  unfold Bot.refresh, IO.discord_File.
  repeat step.
  all: cbn [history cache_file].
  all: try (exists []; rewrite app_nil_r; split; [reflexivity|cbn; lia]).
  all: match goal with
       | H : Bot.get_crypto_data ?a ?b ?env ?s = (_, ?s0) |- _ =>
           let l := fresh "l" in
           let Hl := fresh "Hl" in
           let Hn := fresh "Hn" in
           destruct (get_crypto_data_requests env s a b) as [l [Hl Hn]];
           rewrite H in Hl; cbn [snd] in Hl; rewrite Hl
       end.
  all: rewrite <- ?app_assoc;
    eexists; (split; [reflexivity|]);
    rewrite ?requests_app;
    match goal with Hn : requests _ = 1%nat |- _ => rewrite Hn end;
    cbn; lia.
Qed.

Lemma for_each_requests entries env : forall s,
  exists l,
    history (snd (for_each entries (fun entry : string * json =>
                                      Bot.refresh (snd entry)) env s))
    = (history s ++ l)%list /\
    (requests l <= List.length entries)%nat.
Proof.
  induction entries as [|[k data] r IH]; intros s; cbn [for_each List.length].
  - exists []. rewrite app_nil_r. split; [reflexivity|cbn; lia].
  - unfold bind. cbn [snd].
    destruct (refresh_requests data env s) as (l1 & H1 & B1).
    destruct (Bot.refresh data env s) as [[[]|e] s1]; cbn [snd] in H1.
    + destruct (IH s1) as (l2 & H2 & B2).
      exists (l1 ++ l2)%list. split.
      * now rewrite H2, H1, app_assoc.
      * rewrite requests_app. lia.
    + exists l1. cbn [snd]. split; [exact H1|lia].
Qed.

(** X12. A tick sends at most one price request for each entry of
    the store. *)
Theorem tick_asks_once_per_entry env s kvs :
  fst (Bot.load_cache env s) = Ok (JObj kvs) ->
  exists l,
    history (snd (Bot.update_crypto_prices env s)) = (history s ++ l)%list /\
    (requests l <= List.length kvs)%nat.
Proof.
  intros Hload. unfold Bot.update_crypto_prices, bind.
  pose proof (load_cache_state env s) as Hs.
  destruct (Bot.load_cache env s) as [r s1]. cbn [fst snd] in Hload, Hs.
  subst r s1. cbn [Py.items lift]. apply for_each_requests.
Qed.

Lemma tick_asks_once_per_entry_witness :
  exists l,
    history (snd (Bot.update_crypto_prices Scenario.world
                    (Scenario.on_disk (Json.dumps Scenario.btc_store))))
    = l /\ (requests l <= 1)%nat.
Proof.
  destruct (tick_asks_once_per_entry Scenario.world
              (Scenario.on_disk (Json.dumps Scenario.btc_store))
              [("1-BTC-USD-0", Scenario.btc_item)]
              ltac:(vm_compute; reflexivity)) as (l & Hl & Hb).
  exists l. split; [exact Hl|exact Hb].
Defined.

(** ** The command handler *)

(** X13. A message of the bot itself, and a message that does not
    start with [!crypto], is ignored: nothing is requested, sent, printed
    or saved, whatever its text. *)
Theorem other_messages_are_ignored env s message :
  msg_from_self message = true \/
  Text.startswith "!crypto" (msg_content message) = false ->
  Bot.on_message message env s = (Ok tt, s).
Proof.
  unfold Bot.on_message. intros [-> | H]; [reflexivity|].
  rewrite H. destruct (msg_from_self message); reflexivity.
Qed.

Lemma other_messages_are_ignored_witness :
  Bot.on_message {| msg_from_self := true;
                    msg_content := "!crypto ETH EUR 42 0.5";
                    msg_channel := 7 |} Scenario.world Scenario.fresh
  = (Ok tt, Scenario.fresh) /\
  Bot.on_message (Scenario.command "please !crypto ETH EUR 42")
    Scenario.world Scenario.fresh
  = (Ok tt, Scenario.fresh).
Proof.
  split; apply other_messages_are_ignored; [left|right]; reflexivity.
Defined.

(** The exceptions of the conversions are [Exception]s. *)
Lemma index_raises l i e :
  Py.index l i = Raise e -> exn_kind e = IndexError.
Proof.
  unfold Py.index. destruct (nth_error l i); [discriminate|].
  intros H; inversion H; reflexivity.
Qed.

Lemma int_of_string_raises t e :
  Py.int_of_string t = Raise e -> exn_kind e = ValueError.
Proof.
  unfold Py.int_of_string.
  destruct (Float.split_sign (Text.strip t)) as [neg body].
  destruct (Float.drop_underscores false body) as [[|c r]|];
    try (intros H; inversion H; reflexivity).
  destruct (Text.forallb_string Text.is_digit (String c r));
    [discriminate|intros H; inversion H; reflexivity].
Qed.

Lemma to_float_str_raises t e :
  Py.to_float (JStr t) = Raise e -> exn_kind e = ValueError.
Proof.
  cbn [Py.to_float]. destruct (Float.of_string t); [discriminate|].
  intros H; inversion H; reflexivity.
Qed.

Lemma command_args_raises content e :
  command_args content = Raise e ->
  exn_kind e = IndexError \/ exn_kind e = ValueError.
Proof.
  unfold command_args. cbv zeta.
  destruct (Py.index (Text.split content) 1) as [p1|e1] eqn:E1.
  2:{ intros H; inversion H; subst. left. eapply index_raises; eauto. }
  destruct (Py.index (Text.split content) 2) as [p2|e2] eqn:E2.
  2:{ intros H; inversion H; subst. left. eapply index_raises; eauto. }
  destruct (Py.index (Text.split content) 3) as [p3|e3] eqn:E3.
  2:{ intros H; inversion H; subst. left. eapply index_raises; eauto. }
  destruct (Py.int_of_string p3) as [cid|e4] eqn:E4.
  2:{ intros H; inversion H; subst. right. eapply int_of_string_raises; eauto. }
  destruct (4 <? Z.of_nat (List.length (Text.split content))).
  - destruct (Py.index (Text.split content) 4) as [p4|e5] eqn:E5.
    2:{ intros H; inversion H; subst. left. eapply index_raises; eauto. }
    destruct (Py.to_float (JStr p4)) as [x|e6] eqn:E6; [discriminate|].
    intros H; inversion H; subst. right. eapply to_float_str_raises; eauto.
  - discriminate.
Qed.

(** The arguments are read first: [track] stops where [command_args]
    raises, before anything is asked of the outside. *)
Lemma track_malformed message e env s :
  command_args (msg_content message) = Raise e ->
  Bot.track message env s = (Raise e, s).
Proof.
  unfold command_args, Bot.track. cbv zeta. run.
  destruct (Py.index (Text.split (msg_content message)) 1) as [p1|e1];
    [|intros H; inversion H; reflexivity].
  destruct (Py.index (Text.split (msg_content message)) 2) as [p2|e2];
    [|intros H; inversion H; reflexivity].
  destruct (Py.index (Text.split (msg_content message)) 3) as [p3|e3];
    [|intros H; inversion H; reflexivity].
  destruct (Py.int_of_string p3) as [cid|e4];
    [|intros H; inversion H; reflexivity].
  destruct (4 <? Z.of_nat (List.length (Text.split (msg_content message)))).
  - destruct (Py.index (Text.split (msg_content message)) 4) as [p4|e5];
      [|intros H; inversion H; reflexivity].
    destruct (Py.to_float (JStr p4)) as [x|e6]; [discriminate|].
    intros H; inversion H; reflexivity.
  - discriminate.
Qed.

(** X14. A command whose arguments cannot be read (fewer than three
    words after the command, a channel that is no integer, an amount that
    is no number) raises [IndexError] or [ValueError] before any price is
    requested; the sender is told [An error occurred: ...], the same
    text is printed, and nothing else happens.  If that reply cannot be
    sent, its exception leaves the handler. *)
Theorem malformed_command_is_answered env s message e :
  msg_from_self message = false ->
  Text.startswith "!crypto" (msg_content message) = true ->
  command_args (msg_content message) = Raise e ->
  let c := msg_channel message in
  let replied :=
    (history s ++ [SentText c ("An error occurred: " ++ exn_text e)])%list in
  (exn_kind e = IndexError \/ exn_kind e = ValueError) /\
  (forall id, send_outcome env (history s) c = Ok id ->
     Bot.on_message message env s
     = (Ok tt,
        {| cache_file := cache_file s;
           history := (replied ++ [Printed ("Error: " ++ exn_text e)])%list |})) /\
  (forall e', send_outcome env (history s) c = Raise e' ->
     Bot.on_message message env s
     = (Raise e', {| cache_file := cache_file s; history := replied |})).
Proof.
  intros Hself Hstart Hargs c replied.
  pose proof (command_args_raises _ _ Hargs) as Hkind.
  split; [exact Hkind|].
  assert (Hexn : is_Exception e = true).
  { unfold is_Exception. destruct Hkind as [-> | ->]; reflexivity. }
  unfold Bot.on_message. rewrite Hself, Hstart.
  unfold try_except. rewrite (track_malformed message e env s Hargs), Hexn.
  subst c replied. split.
  - intros id Hsend. run. rewrite Hsend. reflexivity.
  - intros e' Hsend. run. rewrite Hsend. reflexivity.
Qed.

Lemma malformed_command_is_answered_witness :
  Bot.on_message (Scenario.command "!crypto ETH EUR")
    Scenario.down (Scenario.on_disk "{oops")
  = (Ok tt,
     {| cache_file := Some {| readable := true; content := "{oops" |};
        history :=
          [ SentText 7 "An error occurred: list index out of range";
            Printed "Error: list index out of range" ] |}) /\
  fst (Bot.on_message (Scenario.command "!crypto ETH EUR forty-two")
         (Scenario.with_send (Raise (Exn Forbidden "403 Forbidden"))
            Scenario.world) Scenario.fresh)
  = Raise (Exn Forbidden "403 Forbidden").
Proof.
  split.
  - destruct (malformed_command_is_answered Scenario.down
                (Scenario.on_disk "{oops") (Scenario.command "!crypto ETH EUR")
                (Exn IndexError "list index out of range")
                eq_refl eq_refl eq_refl) as (_ & H & _).
    rewrite (H _ eq_refl). reflexivity.
  - destruct (malformed_command_is_answered
                (Scenario.with_send (Raise (Exn Forbidden "403 Forbidden"))
                   Scenario.world)
                Scenario.fresh (Scenario.command "!crypto ETH EUR forty-two")
                _ eq_refl eq_refl ltac:(vm_compute; reflexivity))
      as (_ & _ & H).
    rewrite (H _ eq_refl). reflexivity.
Defined.

Lemma exception_kind e :
  exn_kind e <> CancelledError -> is_Exception e = true.
Proof. unfold is_Exception. destruct (exn_kind e); congruence. Qed.

Lemma getitem_exception v k e : Py.getitem v k = Raise e -> is_Exception e = true.
Proof.
  intros H. apply getitem_raises in H. apply exception_kind.
  destruct v; try (rewrite H; discriminate).
  destruct H as [_ ->]. discriminate.
Qed.

Lemma to_float_exception v e : Py.to_float v = Raise e -> is_Exception e = true.
Proof.
  destruct v; cbn [Py.to_float]; try discriminate;
    try (intros H; inversion H; reflexivity).
  - unfold Py.float_of_int. destruct (Float.is_finite (Float.of_Z z));
      [discriminate|intros H; inversion H; reflexivity].
  - destruct (Float.of_string s); [discriminate|intros H; inversion H; reflexivity].
Qed.

Lemma float_times_exception x v e :
  Py.float_times x v = Raise e -> is_Exception e = true.
Proof.
  destruct v; cbn [Py.float_times]; try discriminate;
    try (intros H; inversion H; reflexivity).
  unfold Py.float_of_int. destruct (Float.is_finite (Float.of_Z z));
    [discriminate|intros H; inversion H; reflexivity].
Qed.

Lemma create_embed_exception symbol fiat data amount env s e :
  fst (Bot.create_embed symbol fiat data amount env s) = Raise e ->
  is_Exception e = true.
Proof.
  unfold Bot.create_embed. run.
  destruct (Py.getitem data "last") as [last|e1] eqn:E1; run;
    [|intros H; inversion H; subst; eapply getitem_exception; eauto].
  destruct (Py.to_float last) as [price|e2] eqn:E2; run;
    [|intros H; inversion H; subst; eapply to_float_exception; eauto].
  destruct (Py.getitem data "priceChangePercentage") as [change|e3] eqn:E3; run;
    [|intros H; inversion H; subst; eapply getitem_exception; eauto].
  destruct (Py.to_float change) as [pct|e4] eqn:E4; run;
    [|intros H; inversion H; subst; eapply to_float_exception; eauto].
  destruct (Py.float_times price amount) as [total|e5] eqn:E5; run;
    [|intros H; inversion H; subst; eapply float_times_exception; eauto].
  discriminate.
Qed.

Lemma load_cache_exception env s e :
  fst (Bot.load_cache env s) = Raise e -> is_Exception e = true.
Proof.
  unfold Bot.load_cache. run. destruct (cache_file s) as [f|]; [|discriminate].
  destruct (readable f); [|intros H; inversion H; reflexivity].
  destruct (Json.loads (content f)); [discriminate|].
  intros H; inversion H; reflexivity.
Qed.

Lemma len_exception v e : Py.len v = Raise e -> is_Exception e = true.
Proof.
  destruct v; cbn [Py.len]; try discriminate; intros H; inversion H; reflexivity.
Qed.

Lemma setitem_exception v k x e :
  Py.setitem v k x = Raise e -> is_Exception e = true.
Proof.
  destruct v; cbn [Py.setitem]; try discriminate;
    intros H; inversion H; reflexivity.
Qed.

Lemma index_exception l i e : Py.index l i = Raise e -> is_Exception e = true.
Proof. intros H. apply exception_kind. rewrite (index_raises _ _ _ H). discriminate. Qed.

Lemma int_of_string_exception t e :
  Py.int_of_string t = Raise e -> is_Exception e = true.
Proof.
  intros H. apply exception_kind. rewrite (int_of_string_raises _ _ H).
  discriminate.
Qed.

Lemma contains_exception k v e :
  Py.contains k v = Raise e -> is_Exception e = true.
Proof.
  intros H. apply exception_kind.
  rewrite (proj1 (contains_raises _ _ _ H)). discriminate.
Qed.

(** The fetcher raises nothing outside [Exception] if [requests.post]
    does not. *)
Lemma get_crypto_data_exception env s symbol fiat e :
  (forall h pair e, http_post env h pair = HttpFailed e -> is_Exception e = true) ->
  fst (Bot.get_crypto_data symbol fiat env s) = Raise e ->
  is_Exception e = true.
Proof.
  intros Hhttp. unfold Bot.get_crypto_data.
  repeat plain_step; try discriminate;
    intros H; injection H as <-;
    first [ eapply Hhttp; eassumption
          | eapply contains_exception; eassumption
          | eapply getitem_exception; eassumption ].
Qed.

(** Closes the cases that the assumptions on the chat service and the
    classes of the exceptions exclude. *)
Ltac excluded Hsend Hhttp Hexn :=
  match goal with
  | H : send_outcome _ ?h (msg_channel _) = Raise _ |- _ =>
      exfalso; destruct (Hsend h) as [? ?]; congruence
  | H : is_Exception ?e = false, H' : send_outcome _ _ _ = Raise ?e |- _ =>
      exfalso; rewrite (Hexn _ _ _ H') in H; discriminate
  | H : is_Exception ?e = false, H' : Py.index _ _ = Raise ?e |- _ =>
      exfalso; rewrite (index_exception _ _ _ H') in H; discriminate
  | H : is_Exception ?e = false, H' : Py.int_of_string _ = Raise ?e |- _ =>
      exfalso; rewrite (int_of_string_exception _ _ H') in H; discriminate
  | H : is_Exception ?e = false, H' : Py.to_float _ = Raise ?e |- _ =>
      exfalso; rewrite (to_float_exception _ _ H') in H; discriminate
  | H : is_Exception ?e = false, H' : Py.len _ = Raise ?e |- _ =>
      exfalso; rewrite (len_exception _ _ H') in H; discriminate
  | H : is_Exception ?e = false, H' : Py.setitem _ _ _ = Raise ?e |- _ =>
      exfalso; rewrite (setitem_exception _ _ _ _ H') in H; discriminate
  | H : is_Exception ?e = false, H' : _ = (Raise ?e, _) |- _ =>
      exfalso; apply (f_equal fst) in H'; cbn [fst] in H';
      first [ rewrite (get_crypto_data_exception _ _ _ _ _ Hhttp H') in H
            | rewrite (create_embed_exception _ _ _ _ _ _ _ H') in H
            | rewrite (load_cache_exception _ _ _ H') in H ];
      discriminate
  end.

(** Settles a case with the events it left. *)
Ltac shaped :=
  split; [reflexivity|]; cbn [history cache_file];
  first
    [ match goal with
      | H : calm _ ?s _ |- _ =>
          let l := fresh "l" in
          let Hl := fresh "Hl" in
          let Hf := fresh "Hf" in
          destruct H as [_ [l [Hl Hf]]]; rewrite Hl;
          rewrite <- ?app_assoc; cbn [app];
          exists l; eexists; split; [reflexivity|];
          split; [exact Hf|econstructor]
      end
    | exists []; eexists; cbn [app]; rewrite <- ?app_assoc; cbn [app];
      split; [reflexivity|]; split; [constructor|econstructor] ].

(** X15. If replies to the sender's channel succeed and neither the
    price service nor the chat service raises anything outside
    [Exception], every [!crypto] command is handled without an
    exception and answered exactly once: by an error reply, by the reply
    that no price could be fetched, by an error reply after the initial
    post was attempted, or by the confirmation that follows the initial
    post and the save of the store. *)
Theorem command_is_answered_once env s message :
  msg_from_self message = false ->
  Text.startswith "!crypto" (msg_content message) = true ->
  (forall h, exists id, send_outcome env h (msg_channel message) = Ok id) ->
  (forall h pair e, http_post env h pair = HttpFailed e -> is_Exception e = true) ->
  (forall h c e, send_outcome env h c = Raise e -> is_Exception e = true) ->
  let after := Bot.on_message message env s in
  fst after = Ok tt /\
  exists l1 l2,
    history (snd after) = (history s ++ l1 ++ l2)%list /\
    Forall is_console_or_request l1 /\
    reply_shape (msg_channel message) l2.
Proof.
  intros Hself Hstart Hsend Hhttp Hexn after. subst after.
  unfold Bot.on_message, Bot.track, Bot.save_cache, IO.write_cache_file,
    IO.discord_File.
  cbv zeta. rewrite Hself, Hstart.
  repeat (step; try excluded Hsend Hhttp Hexn).
  all: shaped.
Qed.

Lemma command_is_answered_once_witness :
  let after := Bot.on_message (Scenario.command "!crypto ETH EUR 42 0.5")
                 Scenario.down Scenario.fresh in
  fst after = Ok tt /\
  exists l1 l2,
    history (snd after) = (l1 ++ l2)%list /\
    Forall is_console_or_request l1 /\ reply_shape 7 l2.
Proof.
  apply (command_is_answered_once Scenario.down Scenario.fresh
           (Scenario.command "!crypto ETH EUR 42 0.5")).
  - reflexivity.
  - reflexivity.
  - intros h. eexists. reflexivity.
  - intros h pair e H. inversion H. reflexivity.
  - intros h c e H. discriminate H.
Defined.

(** The handler up to the initial post: what remains to be run, in the
    state the post left. *)
Lemma on_message_after_post env s message symbol fiat channel_id amount
    data s1 embed image_path cache size chan message_id :
  msg_from_self message = false ->
  Text.startswith "!crypto" (msg_content message) = true ->
  command_args (msg_content message) = Ok (symbol, fiat, channel_id, amount) ->
  Bot.get_crypto_data (JStr symbol) (JStr fiat) env s = (Ok data, s1) ->
  Py.is_None data = false ->
  Bot.create_embed (JStr symbol) (JStr fiat) data (JFloat amount) env s1
  = (Ok (embed, image_path), s1) ->
  Bot.load_cache env s1 = (Ok cache, s1) ->
  Py.len cache = Ok size ->
  channel_of env (history s1) (JInt channel_id) = Some chan ->
  path env image_path = Readable ->
  send_outcome env (history s1) chan = Ok message_id ->
  Bot.on_message message env s
  = try_except
      (cache' <- lift (Py.setitem cache (tracked_key channel_id symbol fiat size)
                         (tracked_item message_id symbol fiat amount channel_id)) ;;
       Bot.save_cache cache' ;;
       IO.send_text (msg_channel message)
         ("Tracking " ++ symbol ++ " in " ++ fiat ++ " with amount "
          ++ Float.repr amount ++ " in channel " ++ Numeral.of_Z channel_id))
      is_Exception
      (fun e =>
         IO.send_text (msg_channel message) ("An error occurred: " ++ exn_text e) ;;
         IO.print ("Error: " ++ exn_text e))
      env
      {| cache_file := cache_file s1;
         history :=
           (history s1
            ++ [SentEmbed chan embed
                  [{| att_path := image_path; att_name := symbol ++ ".png" |}]])%list |}.
Proof.
  intros Hself Hstart Hargs Hfetch Hsome Hembed Hload Hlen Hchan Hpath Hsend.
  destruct (command_args_inv _ _ _ _ _ Hargs)
    as (p1 & p2 & p3 & H1 & H2 & H3 & Hcid & -> & -> & Hamount).
  unfold tracked_key, tracked_item.
  unfold Bot.on_message, Bot.track, Bot.save_cache, IO.write_cache_file,
    IO.discord_File; cbv zeta.
  rewrite Hself, Hstart. run. rewrite H1; run; rewrite H2; run; rewrite H3; run.
  rewrite Hcid; run.
  destruct (4 <? Z.of_nat (List.length (Text.split (msg_content message))));
    [destruct Hamount as (p4 & H4 & Hfloat); rewrite H4; run; rewrite Hfloat
    |subst amount];
    run; rewrite Hfetch; run; rewrite Hsome; run; rewrite Hembed; run;
    rewrite Hload; run; rewrite Hlen; run; rewrite Hchan; run;
    rewrite Hpath; run; rewrite Hsend; run; cbn [history cache_file];
    reflexivity.
Qed.

(** X16. The initial message is posted before the store is saved:
    when the cache file cannot be written, the message is in the channel
    all the same, no record of it is kept, and the sender gets an error
    reply. *)
Theorem failed_save_orphans_post env s message symbol fiat channel_id amount
    data s1 embed image_path cache size chan message_id cache' reply_id :
  msg_from_self message = false ->
  Text.startswith "!crypto" (msg_content message) = true ->
  command_args (msg_content message) = Ok (symbol, fiat, channel_id, amount) ->
  Bot.get_crypto_data (JStr symbol) (JStr fiat) env s = (Ok data, s1) ->
  Py.is_None data = false ->
  Bot.create_embed (JStr symbol) (JStr fiat) data (JFloat amount) env s1
  = (Ok (embed, image_path), s1) ->
  Bot.load_cache env s1 = (Ok cache, s1) ->
  Py.len cache = Ok size ->
  channel_of env (history s1) (JInt channel_id) = Some chan ->
  path env image_path = Readable ->
  send_outcome env (history s1) chan = Ok message_id ->
  Py.setitem cache (tracked_key channel_id symbol fiat size)
    (tracked_item message_id symbol fiat amount channel_id) = Ok cache' ->
  cache_writable env = false ->
  let posted :=
    (history s1
     ++ [SentEmbed chan embed
           [{| att_path := image_path; att_name := symbol ++ ".png" |}]])%list in
  send_outcome env posted (msg_channel message) = Ok reply_id ->
  exists text,
    Bot.on_message message env s
    = (Ok tt,
       {| cache_file := cache_file s1;
          history :=
            (posted ++ [SentText (msg_channel message)
                          ("An error occurred: " ++ text);
                        Printed ("Error: " ++ text)])%list |}) /\
    cache_file s1 = cache_file s.
Proof.
  intros Hself Hstart Hargs Hfetch Hsome Hembed Hload Hlen Hchan Hpath Hsend
    Hset Hw posted Hreply. subst posted.
  rewrite (on_message_after_post env s message symbol fiat channel_id amount
             data s1 embed image_path cache size chan message_id)
    by assumption.
  unfold Bot.save_cache, IO.write_cache_file. run. rewrite Hset. run.
  rewrite Hw. run. cbn [history cache_file]. rewrite Hreply.
  eexists. split.
  - cbn [history cache_file exn_text]. rewrite <- !app_assoc. cbn [app].
    reflexivity.
  - pose proof (get_crypto_data_quiet (JStr symbol) (JStr fiat) env s) as Hq.
    rewrite Hfetch in Hq. exact (proj1 Hq).
Qed.

Lemma failed_save_orphans_post_witness :
  exists embed text,
    Bot.on_message (Scenario.command "!crypto ETH EUR 42 0.5")
      (read_only Scenario.world) Scenario.fresh
    = (Ok tt,
       {| cache_file := None;
          history :=
            [ Requested "ETH-EUR";
              Printed ("API Response: " ++ Scenario.ticker "ETH-EUR");
              SentEmbed 42 embed
                [{| att_path := "images/ETH.png"; att_name := "ETH.png" |}];
              SentText 7 ("An error occurred: " ++ text);
              Printed ("Error: " ++ text) ] |}).
Proof.
  destruct (failed_save_orphans_post (read_only Scenario.world) Scenario.fresh
              (Scenario.command "!crypto ETH EUR 42 0.5")
              "ETH" "EUR" 42 Scenario.half _ _ _ _ _ _ _ _ _ _
              eq_refl eq_refl
              ltac:(vm_compute; reflexivity)
              ltac:(vm_compute; reflexivity)
              eq_refl
              ltac:(vm_compute; reflexivity)
              ltac:(vm_compute; reflexivity)
              eq_refl
              ltac:(vm_compute; reflexivity)
              ltac:(vm_compute; reflexivity)
              ltac:(vm_compute; reflexivity)
              ltac:(vm_compute; reflexivity)
              eq_refl
              ltac:(vm_compute; reflexivity)) as (text & Hrun & _).
  eexists _, text. rewrite Hrun. reflexivity.
Defined.

Lemma dict_set_present kvs k v old :
  Py.lookup kvs k = Some old ->
  map fst (Json.dict_set kvs k v) = map fst kvs.
Proof.
  induction kvs as [|[k' v'] r IH]; cbn [Py.lookup Json.dict_set]; [discriminate|].
  destruct (String.eqb k' k); cbn [map fst]; [reflexivity|].
  intros H. now rewrite IH.
Qed.

(** X17. When the store already holds an entry under the key the
    command derives (the store's size is not the number of keys ever
    used, as after entries were removed by hand), the command replaces
    the record of that entry: the store keeps its keys and its size, and
    the message of the old record is no longer tracked. *)
Theorem colliding_key_is_overwritten env s message symbol fiat channel_id
    amount data s1 embed image_path kvs chan message_id old :
  msg_from_self message = false ->
  Text.startswith "!crypto" (msg_content message) = true ->
  command_args (msg_content message) = Ok (symbol, fiat, channel_id, amount) ->
  Bot.get_crypto_data (JStr symbol) (JStr fiat) env s = (Ok data, s1) ->
  Py.is_None data = false ->
  Bot.create_embed (JStr symbol) (JStr fiat) data (JFloat amount) env s1
  = (Ok (embed, image_path), s1) ->
  Bot.load_cache env s1 = (Ok (JObj kvs), s1) ->
  channel_of env (history s1) (JInt channel_id) = Some chan ->
  path env image_path = Readable ->
  send_outcome env (history s1) chan = Ok message_id ->
  cache_writable env = true ->
  let key := tracked_key channel_id symbol fiat (Z.of_nat (List.length kvs)) in
  let item := tracked_item message_id symbol fiat amount channel_id in
  Py.lookup kvs key = Some old ->
  exists kvs' f,
    cache_file (snd (Bot.on_message message env s)) = Some f /\
    content f = Json.dumps (JObj kvs') /\
    map fst kvs' = map fst kvs /\
    Py.lookup kvs' key = Some item /\
    (forall k, k <> key -> Py.lookup kvs' k = Py.lookup kvs k).
Proof.
  intros Hself Hstart Hargs Hfetch Hsome Hembed Hload Hchan Hpath Hsend Hw
    key item Hold.
  rewrite (on_message_after_post env s message symbol fiat channel_id amount
             data s1 embed image_path (JObj kvs) (Z.of_nat (List.length kvs))
             chan message_id) by (assumption || reflexivity).
  fold key item.
  exists (Json.dict_set kvs key item).
  unfold Bot.save_cache, IO.write_cache_file. run. cbn [Py.setitem]. run.
  rewrite Hw. run. cbn [history cache_file].
  assert (Hrest : map fst (Json.dict_set kvs key item) = map fst kvs /\
                  Py.lookup (Json.dict_set kvs key item) key = Some item /\
                  (forall k, k <> key ->
                     Py.lookup (Json.dict_set kvs key item) k = Py.lookup kvs k)).
  { split; [eapply dict_set_present; eassumption|].
    split; [apply lookup_dict_set|].
    intros k Hk. now apply lookup_dict_set_other. }
  repeat match goal with
         | |- context [match ?x with _ => _ end] =>
             lazymatch x with
             | send_outcome _ _ _ => destruct x
             | is_Exception _ => destruct x
             end; run; cbn [history cache_file]
         end;
    (eexists; split; [reflexivity|]; split; [reflexivity|exact Hrest]).
Qed.

Lemma colliding_key_is_overwritten_witness :
  let left_over :=
    JObj [("42-ETH-EUR-1",
           tracked_item 901 "ETH" "EUR" Scenario.two 42)] in
  exists f message_id,
    cache_file (snd (Bot.on_message (Scenario.command "!crypto ETH EUR 42 0.5")
                       Scenario.world (Scenario.on_disk (Json.dumps left_over))))
    = Some f /\
    content f
    = Json.dumps (JObj [("42-ETH-EUR-1",
                         tracked_item message_id "ETH" "EUR" Scenario.half 42)]).
Proof.
  intros left_over. subst left_over.
  destruct (colliding_key_is_overwritten Scenario.world
              (Scenario.on_disk
                 (Json.dumps (JObj [("42-ETH-EUR-1",
                                     tracked_item 901 "ETH" "EUR" Scenario.two 42)])))
              (Scenario.command "!crypto ETH EUR 42 0.5")
              "ETH" "EUR" 42 Scenario.half _ _ _ _
              [("42-ETH-EUR-1", tracked_item 901 "ETH" "EUR" Scenario.two 42)]
              _ _ (tracked_item 901 "ETH" "EUR" Scenario.two 42)
              eq_refl eq_refl
              ltac:(vm_compute; reflexivity)
              ltac:(vm_compute; reflexivity)
              eq_refl
              ltac:(vm_compute; reflexivity)
              ltac:(vm_compute; reflexivity)
              ltac:(vm_compute; reflexivity)
              ltac:(vm_compute; reflexivity)
              ltac:(vm_compute; reflexivity)
              eq_refl
              ltac:(vm_compute; reflexivity))
    as (kvs' & f & Hf & Hcontent & Hkeys & Hnew & _).
  exists f. eexists. split; [exact Hf|]. rewrite Hcontent.
  destruct kvs' as [|[k v] [|]]; try discriminate Hkeys.
  cbn in Hkeys. injection Hkeys as ->.
  cbn [Py.lookup] in Hnew.
  change (String.eqb "42-ETH-EUR-1"
            (tracked_key 42 "ETH" "EUR" (Z.of_nat 1))) with true in Hnew.
  injection Hnew as ->. reflexivity.
Defined.

(** ** What a command records *)

Section WordFacts.
Import Text.











End WordFacts.



(** X19. The text of a float, as the confirmation and the embed show
    an amount, converts back to that very float: [float(repr(x)) == x]
    for every value of binary64, written here with [nan] equal to
    itself. *)
Theorem echoed_amount_reads_back x :
  Float.valid x = true -> Float.of_string (Float.repr x) = Some x.
Proof.
  destruct x as [s|s| |s m e]; intros Hv.
  - destruct s; vm_compute; reflexivity.
  - destruct s; vm_compute; reflexivity.
  - vm_compute. reflexivity.
  - apply valid_canonical in Hv. exact (proj1 (repr_reads s m e Hv)).
Qed.

Lemma echoed_amount_reads_back_witness :
  Float.repr Scenario.half = "0.5" /\
  Float.of_string (Float.repr Scenario.half) = Some Scenario.half.
Proof.
  split; [vm_compute; reflexivity|].
  apply echoed_amount_reads_back. reflexivity.
Defined.

(** ** The presenter *)

Lemma startswith_slash_append x y :
  Text.startswith "/" y = false ->
  Text.startswith "/" (x ++ y) = Text.startswith "/" x.
Proof.
  intros Hy. destruct x as [|c r]; cbn [append].
  - rewrite Hy. reflexivity.
  - reflexivity.
Qed.

(** X20. [create_embed] changes nothing and emits nothing, whether
    it returns or raises.  The path it returns is [images/<symbol>.png],
    or [<symbol>.png] alone when the symbol starts with a slash, whether
    that file exists or not; and the embed has its thumbnail exactly when
    the file exists. *)
Theorem create_embed_only_looks env s symbol fiat data amount :
  let out := Bot.create_embed symbol fiat data amount env s in
  snd out = s /\
  forall embed image_path, fst out = Ok (embed, image_path) ->
    image_path =
      (if Text.startswith "/" (PyStr.str symbol)
       then PyStr.str symbol ++ ".png"
       else "images/" ++ PyStr.str symbol ++ ".png") /\
    (thumbnail embed = None <-> path env image_path = Missing) /\
    (thumbnail embed = Some ("attachment://" ++ PyStr.str symbol ++ ".png")
     <-> path env image_path <> Missing).
Proof.
  intros out. subst out. split; [apply create_embed_state|].
  intros embed image_path Hout.
  destruct (Bot.create_embed symbol fiat data amount env s) as [r s'] eqn:E.
  cbn [fst] in Hout. subst r.
  destruct (create_embed_image _ _ _ _ _ _ _ _ _ E) as [Hp Ht].
  split.
  - rewrite Hp. unfold Py.path_join, Bot.IMAGES_FOLDER.
    rewrite startswith_slash_append by reflexivity. reflexivity.
  - rewrite Ht. destruct (path env image_path); split; split; congruence.
Qed.

Lemma create_embed_only_looks_witness :
  exists embed,
    Bot.create_embed (JStr "/TMP/X") (JStr "USD")
      (Scenario.snapshot "0.1" "5") (JInt 3) Scenario.world Scenario.fresh
    = (Ok (embed, "/TMP/X.png"), Scenario.fresh) /\
    thumbnail embed = None.
Proof.
  destruct (Bot.create_embed (JStr "/TMP/X") (JStr "USD")
              (Scenario.snapshot "0.1" "5") (JInt 3) Scenario.world
              Scenario.fresh) as [[[embed p]|e] s'] eqn:E;
    [|vm_compute in E; discriminate E].
  destruct (create_embed_only_looks Scenario.world Scenario.fresh
              (JStr "/TMP/X") (JStr "USD") (Scenario.snapshot "0.1" "5") (JInt 3))
    as [Hs Hout].
  rewrite E in Hs, Hout. cbn [fst snd] in Hs, Hout. subst s'.
  destruct (Hout embed p eq_refl) as (-> & Hnone & _).
  exists embed. split; [reflexivity|]. apply Hnone. reflexivity.
Defined.

(** ** Commands and ticks, one after the other *)

Lemma run_all_app env before after s :
  run_all env (before ++ after) s = run_all env after (run_all env before s).
Proof.
  revert s. induction before as [|[m|] r IH]; intros s; cbn [app run_all]; auto.
Qed.

Lemma built_same_file s s' kvs :
  cache_file s' = cache_file s -> built s kvs -> built s' kvs.
Proof. unfold built. intros ->. auto. Qed.

Lemma run_all_built env acts : forall s kvs,
  built s kvs -> keyed_by_position kvs -> Forall item_reads_back kvs ->
  exists extra,
    built (run_all env acts s) (kvs ++ extra) /\
    keyed_by_position (kvs ++ extra) /\
    Forall item_reads_back (kvs ++ extra) /\
    (List.length extra <= List.length (filter is_command acts))%nat.
Proof.
  induction acts as [|[m|] r IH]; intros s kvs Hb Hk Hall; cbn [run_all filter].
  - exists []. rewrite app_nil_r. auto.
  - cbn [is_command].
    destruct (on_message_step env s m kvs Hb Hk Hall)
      as [Hb' | (mid & sy & fi & a & ci & Ha & Hb')].
    + destruct (IH _ kvs Hb' Hk Hall) as (extra & H1 & H2 & H3 & H4).
      exists extra. cbn [List.length]. repeat split; auto.
    + pose proof (keyed_snoc kvs mid sy fi a ci Hk) as Hk'.
      assert (Hall' : Forall item_reads_back
                (kvs ++ [(tracked_key ci sy fi (Z.of_nat (List.length kvs)),
                          tracked_item mid sy fi a ci)])).
      { apply Forall_app. split; [exact Hall|]. constructor; [|constructor].
        eexists _, _, _, _, _. split; [reflexivity|exact Ha]. }
      destruct (IH _ _ Hb' Hk' Hall') as (extra & H1 & H2 & H3 & H4).
      rewrite <- app_assoc in H1, H2, H3. eexists. cbn [List.length].
      repeat split; [exact H1|exact H2|exact H3|].
      cbn [app List.length]. lia.
  - cbn [is_command].
    pose proof (update_crypto_prices_quiet env s) as [Hfile _].
    destruct (IH _ kvs (built_same_file _ _ _ Hfile Hb) Hk Hall)
      as (extra & H1 & H2 & H3 & H4).
    exists extra. auto.
Qed.

(** X21. Commands and ticks run one after the other, from no cache
    file: at any point the store is the store of any earlier point
    followed by at most one new entry for each command handled since;
    every entry is filed under the key of its position and no two entries
    share a key. *)
Theorem store_only_grows env acts more s0 :
  cache_file s0 = None ->
  exists kvs extra,
    holds env (run_all env acts s0) kvs /\
    holds env (run_all env (acts ++ more) s0) (kvs ++ extra) /\
    keyed_by_position (kvs ++ extra) /\
    NoDup (map fst (kvs ++ extra)) /\
    (List.length extra <= List.length (filter is_command more))%nat.
Proof.
  intros Hnone.
  assert (Hstart : built s0 []) by (left; auto).
  assert (Hk0 : keyed_by_position []).
  { intros i k v Hi. destruct i; discriminate. }
  destruct (run_all_built env acts s0 [] Hstart Hk0 (Forall_nil _))
    as (kvs & Hb & Hk & Hall & _).
  cbn [app] in Hb, Hk, Hall.
  destruct (run_all_built env more _ kvs Hb Hk Hall)
    as (extra & Hb' & Hk' & Hall' & Hlen).
  exists kvs, extra. rewrite run_all_app.
  repeat split.
  - now apply built_holds.
  - now apply built_holds.
  - exact Hk'.
  - now apply keyed_distinct.
  - exact Hlen.
Qed.

Lemma store_only_grows_witness :
  exists kvs extra,
    holds Scenario.gone
      (run_all Scenario.gone
         [Command (Scenario.command "!crypto eth eur 42 0.5"); Tick]
         Scenario.fresh) kvs /\
    holds Scenario.gone
      (run_all Scenario.gone
         ([Command (Scenario.command "!crypto eth eur 42 0.5"); Tick]
          ++ [Tick; Command (Scenario.command "!crypto btc usd 1"); Tick])
         Scenario.fresh) (kvs ++ extra) /\
    map fst (kvs ++ extra) = ["42-ETH-EUR-0"; "1-BTC-USD-1"].
Proof.
  destruct (store_only_grows Scenario.gone
              [Command (Scenario.command "!crypto eth eur 42 0.5"); Tick]
              [Tick; Command (Scenario.command "!crypto btc usd 1"); Tick]
              Scenario.fresh eq_refl)
    as (kvs & extra & H1 & H2 & _).
  exists kvs, extra. split; [exact H1|]. split; [exact H2|].
  unfold holds in H2.
  match type of H2 with
  | ?l = _ =>
      let v := eval vm_compute in l in
      assert (Hc : l = v) by (vm_compute; reflexivity); rewrite Hc in H2
  end.
  injection H2 as <-. reflexivity.
Defined.
